(** * ShortShift Agent: the upload submission pipeline

    A shallow embedding of [src/app/page.tsx] (the client intake form) and of
    the [POST /api/upload] route handler, with the properties of the
    specification stated over it.

    JavaScript strings are sequences of UTF-16 code units; [String.length],
    [slice], the regular expressions without the [u] flag and [===] all work
    on code units, so a string is modelled as [list N]. *)

From Stdlib Require Import String Ascii ZArith NArith Bool List Lia.
Import ListNotations.

Set Implicit Arguments.

(** ** JavaScript strings *)

Definition jsstring := list N.

(** A literal of the source, as code units (the literals are ASCII). *)
Definition js (s : string) : jsstring :=
  List.map N_of_ascii (list_ascii_of_string s).

Fixpoint jseqb (a b : jsstring) : bool :=
  match a, b with
  | [], [] => true
  | x :: a', y :: b' => N.eqb x y && jseqb a' b'
  | _, _ => false
  end.

(** [Boolean(s)] for a string: only the empty string is falsy. *)
Definition truthy (s : jsstring) : bool :=
  match s with [] => false | _ :: _ => true end.

(** [a || b] on strings. *)
Definition or_else (a b : jsstring) : jsstring :=
  if truthy a then a else b.

(** [Boolean(v)] for [string | undefined]. *)
Definition truthy_opt (v : option jsstring) : bool :=
  match v with Some s => truthy s | None => false end.

Definition in_range (lo hi c : N) : bool := (N.leb lo c && N.leb c hi)%bool.

Definition is_lower (c : N) : bool := in_range 97 122 c.
Definition is_digit (c : N) : bool := in_range 48 57 c.

(** The class [\s] of ECMAScript regular expressions: WhiteSpace and
    LineTerminator code points. [String.prototype.trim] strips the same set. *)
Definition is_space (c : N) : bool :=
  in_range 9 13 c || N.eqb c 32 || N.eqb c 160 || N.eqb c 5760
  || in_range 8192 8202 c || N.eqb c 8232 || N.eqb c 8233
  || N.eqb c 8239 || N.eqb c 8287 || N.eqb c 12288 || N.eqb c 65279.

Definition HASH : N := 35.
Definition UNDERSCORE : N := 95.
Definition SPACE : N := 32.

(** [s.startsWith("#")] *)
Definition startsWith_hash (s : jsstring) : bool :=
  match s with c :: _ => N.eqb c HASH | [] => false end.

(** [s.split(/\s+/)]: the pieces between maximal runs of white space; a
    leading or trailing run leaves an empty piece, and the empty string
    splits into one empty piece. [cur] is the piece being read, reversed. *)
Fixpoint split_ws_from (cur : jsstring) (in_run : bool) (s : jsstring)
  : list jsstring :=
  match s with
  | [] => [rev cur]
  | c :: s' =>
      if is_space c then
        if in_run then split_ws_from cur true s'
        else rev cur :: split_ws_from [] true s'
      else split_ws_from (c :: cur) false s'
  end.

Definition split_ws (s : jsstring) : list jsstring := split_ws_from [] false s.

(** [s.split(sep)] for a one-unit separator. *)
Fixpoint split_on_from (sep : N) (cur : jsstring) (s : jsstring)
  : list jsstring :=
  match s with
  | [] => [rev cur]
  | c :: s' =>
      if N.eqb c sep then rev cur :: split_on_from sep [] s'
      else split_on_from sep (c :: cur) s'
  end.

Definition split_on (sep : N) (s : jsstring) : list jsstring :=
  split_on_from sep [] s.

Fixpoint trimStart (s : jsstring) : jsstring :=
  match s with
  | c :: s' => if is_space c then trimStart s' else s
  | [] => []
  end.

Definition trim (s : jsstring) : jsstring := rev (trimStart (rev (trimStart s))).

(** [xs.join(sep)] *)
Fixpoint join (sep : jsstring) (xs : list jsstring) : jsstring :=
  match xs with
  | [] => []
  | [x] => x
  | x :: rest => x ++ sep ++ join sep rest
  end.

(** [s.slice(i, j)] and [xs.slice(i, j)] for non-negative [i <= j]. *)
Definition slice {A} (i j : nat) (xs : list A) : list A :=
  firstn (j - i) (skipn i xs).

(** [[...new Set(xs)]]: the distinct elements in order of first occurrence.
    [seen] is the set built so far. *)
Fixpoint dedupe_from (seen : list jsstring) (xs : list jsstring)
  : list jsstring :=
  match xs with
  | [] => []
  | x :: rest =>
      if existsb (jseqb x) seen then dedupe_from seen rest
      else x :: dedupe_from (x :: seen) rest
  end.

Definition dedupe (xs : list jsstring) : list jsstring := dedupe_from [] xs.

(** ** The runtime

    What the program takes from its JavaScript engine and cannot be read off
    the source: Unicode lower-casing, the local time zone, and what
    [Date.parse] does with a string outside the ECMAScript date-time format
    (the standard leaves it to the implementation). No property is assumed
    of any of them. *)
Class Runtime := {
  toLowerCase : jsstring -> jsstring;
  (** offset of local time from UTC, in ms, at the local time value [t] *)
  LocalTZA : Z -> Z;
  (** [Date.parse] outside the format handled by [Date_parse] below;
      [None] is [NaN] *)
  Date_parse_other : jsstring -> option Z
}.

(** ** page.tsx: hashtag suggestions *)

Definition COMMON_SKIP : list jsstring :=
  [ js "the"; js "and"; js "with"; js "your"; js "that"; js "this";
    js "from"; js "about"; js "shorts"; js "video"; js "youtube" ].

Section Hashtags.
Context {RT : Runtime}.

(** [tag.replace(/[^a-z0-9_]/g, '')] *)
Definition keep_tag_chars (s : jsstring) : jsstring :=
  filter (fun c => is_lower c || is_digit c || N.eqb c UNDERSCORE) s.

(** [word.replace(/[^a-z0-9]/g, '')] *)
Definition keep_alnum (s : jsstring) : jsstring :=
  filter (fun c => is_lower c || is_digit c) s.

(** [s.replace(/[^a-z0-9\s]/g, " ")] *)
Definition blank_non_alnum (s : jsstring) : jsstring :=
  List.map (fun c => if is_lower c || is_digit c || is_space c then c else SPACE) s.

Definition extractHashtags (input : jsstring) : list jsstring :=
  filter truthy
    (List.map keep_tag_chars
       (filter startsWith_hash (split_ws (toLowerCase input)))).

(** [histogram.set(token, (histogram.get(token) ?? 0) + 1)] on a [Map],
    which keeps its keys in insertion order. *)
Fixpoint histogram_bump (token : jsstring) (h : list (jsstring * N))
  : list (jsstring * N) :=
  match h with
  | [] => [(token, 1%N)]
  | (k, n) :: h' =>
      if jseqb k token then (k, (n + 1)%N) :: h'
      else (k, n) :: histogram_bump token h'
  end.

Definition histogram_of (tokens : list jsstring) : list (jsstring * N) :=
  fold_left (fun h token => histogram_bump token h) tokens [].

(** [Array.prototype.sort] is stable; with the comparator
    [(a, b) => b[1] - a[1]] an entry moves in front of exactly the
    entries of strictly smaller count. *)
Fixpoint insert_by_count (x : jsstring * N) (sorted : list (jsstring * N))
  : list (jsstring * N) :=
  match sorted with
  | [] => [x]
  | y :: rest =>
      if N.ltb (snd y) (snd x) then x :: y :: rest
      else y :: insert_by_count x rest
  end.

Definition sort_by_count_desc (entries : list (jsstring * N))
  : list (jsstring * N) :=
  fold_left (fun sorted x => insert_by_count x sorted) entries [].

Definition hashtag_tokens (title description tags : jsstring)
  : list jsstring :=
  filter (fun word => Nat.ltb 3 (length word)
                      && negb (existsb (jseqb word) COMMON_SKIP))
    (split_ws
       (blank_non_alnum
          (toLowerCase (title ++ [SPACE] ++ description ++ [SPACE] ++ tags)))).

Definition ranked_hashtags (title description tags : jsstring)
  : list jsstring :=
  List.map (fun entry => HASH :: keep_alnum (fst entry))
    (slice 0 5
       (sort_by_count_desc
          (histogram_of (hashtag_tokens title description tags)))).

Definition generateHashtags (title description tags : jsstring)
  : list jsstring :=
  let ranked := ranked_hashtags title description tags in
  let inline := slice 0 3 (extractHashtags description) in
  let deduped := dedupe (inline ++ ranked) in
  slice 0 8 deduped.

End Hashtags.

(** ASCII lower-casing: what [toLowerCase] does on a string of ASCII
    characters. *)
Definition ascii_lower (s : jsstring) : jsstring :=
  List.map (fun c => if in_range 65 90 c then (c + 32)%N else c) s.

(** ** Dates

    A [Date] object is its time value: milliseconds since the epoch, or
    [NaN] ([None]). The day arithmetic is the one of ECMA-262 (21.4.1). *)

Local Open Scope Z_scope.

Definition time_value := option Z.

Definition msPerDay : Z := 86400000.

Definition DayFromYear (y : Z) : Z :=
  365 * (y - 1970) + (y - 1969) / 4 - (y - 1901) / 100 + (y - 1601) / 400.

Definition InLeapYear (y : Z) : bool :=
  ((y mod 4 =? 0) && negb (y mod 100 =? 0)) || (y mod 400 =? 0).

Definition leap_day (y : Z) : Z := if InLeapYear y then 1 else 0.

(** Days of the year before the first of month [m] (1 to 12). *)
Definition days_before_month (y m : Z) : Z :=
  if m =? 1 then 0 else if m =? 2 then 31
  else leap_day y +
       (if m =? 3 then 59 else if m =? 4 then 90 else if m =? 5 then 120
        else if m =? 6 then 151 else if m =? 7 then 181
        else if m =? 8 then 212 else if m =? 9 then 243
        else if m =? 10 then 273 else if m =? 11 then 304 else 334).

Definition DaysInMonth (y m : Z) : Z :=
  if m =? 2 then 28 + leap_day y
  else if (m =? 4) || (m =? 6) || (m =? 9) || (m =? 11) then 30 else 31.

Definition MakeDay (y m d : Z) : Z :=
  DayFromYear y + days_before_month y m + (d - 1).

Definition MakeTime (h mi s ms : Z) : Z :=
  h * 3600000 + mi * 60000 + s * 1000 + ms.

Definition MakeDate (day time : Z) : Z := day * msPerDay + time.

Definition TimeClip (t : Z) : time_value :=
  if Z.abs t <=? 8640000000000000 then Some t else None.

(** The fields of a string in the date-time format
    [YYYY-MM-DDTHH:mm:ss], local time, or [YYYY-MM-DDTHH:mm:ss.sssZ], UTC. *)
Record date_fields := {
  f_year : Z; f_month : Z; f_day : Z;
  f_hour : Z; f_minute : Z; f_second : Z; f_millis : Z;
  f_utc : bool
}.

Definition digit (c : N) : option Z :=
  if is_digit c then Some (Z.of_N c - 48) else None.

Fixpoint number_from (acc : Z) (ds : list N) : option Z :=
  match ds with
  | [] => Some acc
  | c :: rest =>
      match digit c with
      | Some d => number_from (10 * acc + d) rest
      | None => None
      end
  end.

Definition number (ds : list N) : option Z := number_from 0 ds.

Definition is_char (a : ascii) (c : N) : bool := N.eqb c (N_of_ascii a).

Definition read_date_time (s : jsstring) : option date_fields :=
  match s with
  | y1 :: y2 :: y3 :: y4 :: p1 :: m1 :: m2 :: p2 :: d1 :: d2 :: t
      :: h1 :: h2 :: c1 :: i1 :: i2 :: c2 :: s1 :: s2 :: rest =>
      if is_char "-" p1 && is_char "-" p2 && is_char "T" t
         && is_char ":" c1 && is_char ":" c2
      then
        match number [y1; y2; y3; y4], number [m1; m2], number [d1; d2],
              number [h1; h2], number [i1; i2], number [s1; s2] with
        | Some y, Some m, Some d, Some h, Some i, Some sec =>
            match rest with
            | [] =>
                Some {| f_year := y; f_month := m; f_day := d; f_hour := h;
                        f_minute := i; f_second := sec; f_millis := 0;
                        f_utc := false |}
            | [dot; f1; f2; f3; z] =>
                if is_char "." dot && is_char "Z" z then
                  match number [f1; f2; f3] with
                  | Some ms =>
                      Some {| f_year := y; f_month := m; f_day := d;
                              f_hour := h; f_minute := i; f_second := sec;
                              f_millis := ms; f_utc := true |}
                  | None => None
                  end
                else None
            | _ => None
            end
        | _, _, _, _, _, _ => None
        end
      else None
  | _ => None
  end.

(** Every element within its calendar range. A string in the format with
    an element out of range (a 30th of February, an hour 24) is left to the
    engine, as are all other strings. *)
Definition legal_fields (f : date_fields) : bool :=
  (1 <=? f_month f) && (f_month f <=? 12)
  && (1 <=? f_day f) && (f_day f <=? DaysInMonth (f_year f) (f_month f))
  && (f_hour f <=? 23) && (f_minute f <=? 59) && (f_second f <=? 59).

Definition fields_time (f : date_fields) : Z :=
  MakeDate (MakeDay (f_year f) (f_month f) (f_day f))
           (MakeTime (f_hour f) (f_minute f) (f_second f) (f_millis f)).

(** Two decimal digits and so on, zero padded. *)
Definition digit_char (d : Z) : N := Z.to_N (48 + d mod 10).

Definition pad2 (n : Z) : jsstring := [digit_char (n / 10); digit_char n].
Definition pad3 (n : Z) : jsstring :=
  [digit_char (n / 100); digit_char (n / 10); digit_char n].
Definition pad4 (n : Z) : jsstring :=
  [digit_char (n / 1000); digit_char (n / 100); digit_char (n / 10);
   digit_char n].
Definition pad6 (n : Z) : jsstring :=
  [digit_char (n / 100000); digit_char (n / 10000); digit_char (n / 1000);
   digit_char (n / 100); digit_char (n / 10); digit_char n].

(** Year, month (1 to 12) and day of the month of a day number. *)
Definition civil_from_days (days : Z) : Z * Z * Z :=
  let z := days + 719468 in
  let era := z / 146097 in
  let doe := z - era * 146097 in
  let yoe := (doe - doe / 1460 + doe / 36524 - doe / 146096) / 365 in
  let doy := doe - (365 * yoe + yoe / 4 - yoe / 100) in
  let mp := (5 * doy + 2) / 153 in
  let d := doy - (153 * mp + 2) / 5 + 1 in
  let m := if mp <? 10 then mp + 3 else mp - 9 in
  let y := yoe + era * 400 + (if m <=? 2 then 1 else 0) in
  (y, m, d).

(** [Date.prototype.toISOString] of a finite time value. *)
Definition toISOString (t : Z) : jsstring :=
  let '(y, m, d) := civil_from_days (t / msPerDay) in
  let ms := t mod msPerDay in
  let year :=
    if (0 <=? y) && (y <=? 9999) then pad4 y
    else (if y <? 0 then N_of_ascii "-" else N_of_ascii "+") :: pad6 (Z.abs y) in
  year ++ js "-" ++ pad2 m ++ js "-" ++ pad2 d ++ js "T"
    ++ pad2 (ms / 3600000) ++ js ":" ++ pad2 (ms / 60000 mod 60) ++ js ":"
    ++ pad2 (ms / 1000 mod 60) ++ js "." ++ pad3 (ms mod 1000) ++ js "Z".

Section Dates.
Context {RT : Runtime}.

(** [UTC(t)]: the time value of the local time [t]. *)
Definition UTC (t : Z) : Z := t - LocalTZA t.

(** [Date.parse]; a date-time without offset is local time. *)
Definition Date_parse (s : jsstring) : time_value :=
  match read_date_time s with
  | Some f =>
      if legal_fields f then
        TimeClip (if f_utc f then fields_time f else UTC (fields_time f))
      else Date_parse_other s
  | None => Date_parse_other s
  end.

(** [new Date(s)] *)
Definition new_Date (s : jsstring) : time_value := Date_parse s.

(** The instant at which the local clock shows the given date and time. *)
Definition local_instant (y m d h mi : Z) : time_value :=
  TimeClip (UTC (MakeDate (MakeDay y m d) (MakeTime h mi 0 0))).

(** *** page.tsx: the publish-time resolver *)

Definition safeToISOString (date : option time_value) : option jsstring :=
  match date with
  | None => None
  | Some None => None
  | Some (Some t) => Some (toISOString t)
  end.

Definition buildPublishDate (date time : jsstring) : option jsstring :=
  if negb (truthy date) then None
  else
    let fallbackTime := or_else time (js "09:00") in
    let iso := new_Date (date ++ js "T" ++ fallbackTime ++ js ":00") in
    safeToISOString (Some iso).

End Dates.

(** A runtime for running the model: an engine in the UTC time zone that
    reads no date outside the standard format, with inputs in ASCII. *)
Definition utc_runtime : Runtime :=
  {| toLowerCase := ascii_lower;
     LocalTZA := fun _ => 0;
     Date_parse_other := fun _ => None |}.

(** The same engine four hours west of Greenwich. *)
Definition new_york_summer_runtime : Runtime :=
  {| toLowerCase := ascii_lower;
     LocalTZA := fun _ => -14400000;
     Date_parse_other := fun _ => None |}.

(** ** Data shared by the page and the route *)

Record File := { name : jsstring; type : jsstring; size : N }.

(** A [FormData] entry value, and a [FormData] as its entries in order of
    [append]; [get] returns the first value of the name, or [null]. *)
Inductive entry := EString (s : jsstring) | EFile (f : File).

Definition FormData := list (jsstring * entry).

Definition append (fd : FormData) (key : string) (v : entry) : FormData :=
  fd ++ [(js key, v)].

Fixpoint get (fd : FormData) (key : jsstring) : option entry :=
  match fd with
  | [] => None
  | (k, v) :: rest => if jseqb k key then Some v else get rest key
  end.

Inductive PrivacyStatus := private | public | unlisted.

Definition privacy_name (p : PrivacyStatus) : jsstring :=
  match p with
  | private => js "private"
  | public => js "public"
  | unlisted => js "unlisted"
  end.

Definition is_public (p : PrivacyStatus) : bool :=
  match p with public => true | _ => false end.

(** [String(b)] *)
Definition String_of_bool (b : bool) : jsstring :=
  if b then js "true" else js "false".

(** What a [throw] carries: an [Error] with its message, or anything else. *)
Inductive thrown := ThrownError (message : jsstring) | ThrownOther.

(** The JSON objects exchanged by the route: [{error}] and
    [{videoId, url}]. An absent field is [None]. *)
Record Payload := {
  p_error : option jsstring;
  p_videoId : option jsstring;
  p_url : option jsstring
}.

(** [await response.json()] resolves to the parsed body or rejects (a
    [SyntaxError] carrying the parser's message when the body is not JSON). *)
Inductive json_outcome := JsonRejects (e : thrown) | JsonResolves (data : Payload).

(** [await fetch(...)] rejects on a transport failure, else resolves to a
    response with its status. *)
Inductive fetch_outcome :=
| FetchRejects (e : thrown)
| FetchResolves (status : Z) (body : json_outcome).

(** [response.ok] *)
Definition ok (status : Z) : bool := (200 <=? status) && (status <=? 299).

(** ** page.tsx: the launch queue and the form *)

Inductive QueueStatus := draft | ready | scheduled | uploaded.

Module QueueItem.
Record t := {
  id : jsstring;
  title : jsstring;
  publishAt : option jsstring;
  status : QueueStatus;
  url : option jsstring
}.
End QueueItem.

(** The eleven cells of [useState] that hold the form, in the order of
    [resetForm]. *)
Module Form.
Record t := {
  file : option File;
  title : jsstring;
  description : jsstring;
  tagsInput : jsstring;
  privacyStatus : PrivacyStatus;
  scheduleDate : jsstring;
  scheduleTime : jsstring;
  madeForKids : bool;
  notifySubscribers : bool;
  categoryId : jsstring;
  defaultLanguage : jsstring
}.
End Form.

Record Page := {
  form : Form.t;
  uploading : bool;
  error : option jsstring;
  result : option Payload;
  queue : list QueueItem.t
}.

Definition setForm (f : Form.t) (st : Page) : Page :=
  {| form := f; uploading := uploading st; error := error st;
     result := result st; queue := queue st |}.

Definition setUploading (b : bool) (st : Page) : Page :=
  {| form := form st; uploading := b; error := error st;
     result := result st; queue := queue st |}.

Definition setError (e : option jsstring) (st : Page) : Page :=
  {| form := form st; uploading := uploading st; error := e;
     result := result st; queue := queue st |}.

Definition setResult (r : option Payload) (st : Page) : Page :=
  {| form := form st; uploading := uploading st; error := error st;
     result := r; queue := queue st |}.

(** [setQueue((prev) => f(prev))] *)
Definition setQueue (f : list QueueItem.t -> list QueueItem.t) (st : Page)
  : Page :=
  {| form := form st; uploading := uploading st; error := error st;
     result := result st; queue := f (queue st) |}.

(** The values [resetForm] writes. *)
Definition reset_values : Form.t :=
  {| Form.file := None; Form.title := []; Form.description := [];
     Form.tagsInput := []; Form.privacyStatus := private;
     Form.scheduleDate := []; Form.scheduleTime := [];
     Form.madeForKids := false; Form.notifySubscribers := false;
     Form.categoryId := js "24"; Form.defaultLanguage := js "en" |}.

Definition resetForm (st : Page) : Page := setForm reset_values st.

(** The first render; [hashtags] is [process.env.NEXT_PUBLIC_DEFAULT_HASHTAGS]. *)
Definition initial_page (hashtags : option jsstring) : Page :=
  {| form :=
       {| Form.file := None; Form.title := []; Form.description := [];
          Form.tagsInput := match hashtags with Some h => h | None => [] end;
          Form.privacyStatus := private;
          Form.scheduleDate := []; Form.scheduleTime := [];
          Form.madeForKids := false; Form.notifySubscribers := false;
          Form.categoryId := js "24"; Form.defaultLanguage := js "en" |};
     uploading := false; error := None; result := None; queue := [] |}.

(** [Math.random().toString(36).slice(2, 10)]; [text] is the text of the
    draw in radix 36, such as [0.i] for one half and [0.3lllllllllm] for
    one tenth. *)
Definition randomId (text : jsstring) : jsstring := slice 2 10 text.

Section Client.
Context {RT : Runtime}.

(** [draw] is the text of this call's [Math.random()] in radix 36. *)
Definition addToQueue (draw : jsstring) (st : Page) : Page :=
  let publishAt :=
    buildPublishDate (Form.scheduleDate (form st)) (Form.scheduleTime (form st)) in
  setQueue (fun prev =>
    prev ++
    [ {| QueueItem.id := randomId draw;
         QueueItem.title := or_else (Form.title (form st)) (js "Untitled Short");
         QueueItem.publishAt := publishAt;
         QueueItem.status := if truthy_opt publishAt then scheduled else draft;
         QueueItem.url := None |} ]) st.

(** The body of the request, for a form with file [f]. *)
Definition request_body (f : File) (publishAt : option jsstring) (fm : Form.t)
  : FormData :=
  let formData := [] in
  let formData := append formData "video" (EFile f) in
  let formData := append formData "title" (EString (Form.title fm)) in
  let formData := append formData "description" (EString (Form.description fm)) in
  let formData := append formData "tags" (EString (Form.tagsInput fm)) in
  let formData :=
    append formData "privacyStatus" (EString (privacy_name (Form.privacyStatus fm))) in
  let formData :=
    match publishAt with
    | Some p => if truthy p then append formData "publishAt" (EString p) else formData
    | None => formData
    end in
  let formData :=
    append formData "madeForKids" (EString (String_of_bool (Form.madeForKids fm))) in
  let formData :=
    append formData "notifySubscribers"
      (EString (String_of_bool (Form.notifySubscribers fm))) in
  let formData := append formData "categoryId" (EString (Form.categoryId fm)) in
  append formData "defaultLanguage" (EString (Form.defaultLanguage fm)).

(** [handleSubmit] up to its [await fetch]: the state it leaves and the
    request it sends, if it sends one. *)
Definition handleSubmit_begin (st : Page) : Page * option FormData :=
  let st := setError None st in
  let st := setResult None st in
  match Form.file (form st) with
  | None => (setError (Some (js "Attach a Short before uploading.")) st, None)
  | Some f =>
      let publishAt :=
        buildPublishDate (Form.scheduleDate (form st))
                         (Form.scheduleTime (form st)) in
      if truthy_opt publishAt && is_public (Form.privacyStatus (form st)) then
        (setError
           (Some (js "Scheduled Shorts must use private or unlisted privacy until publish time."))
           st, None)
      else (setUploading true st, Some (request_body f publishAt (form st)))
  end.

(** The [catch] and [finally] blocks. *)
Definition submit_failed (uploadError : thrown) (st : Page) : Page :=
  setUploading false
    (match uploadError with
     | ThrownError message => setError (Some message) st
     | ThrownOther => setError (Some (js "Something went wrong.")) st
     end).

(** The queue update of a successful upload; [title] is the title the
    handler was called with. *)
Definition mark_uploaded (title : jsstring) (data : Payload)
    (item : QueueItem.t) : QueueItem.t :=
  if negb (truthy_opt (QueueItem.url item)) && truthy title
     && jseqb (QueueItem.title item) title
  then {| QueueItem.id := QueueItem.id item;
          QueueItem.title := QueueItem.title item;
          QueueItem.publishAt := QueueItem.publishAt item;
          QueueItem.status := uploaded;
          QueueItem.url := p_url data |}
  else item.

(** [handleSubmit] from the moment [fetch] settles. [title] is the value
    the handler's closure holds; [st] is the state by then. *)
Definition handleSubmit_end (title : jsstring) (outcome : fetch_outcome)
    (st : Page) : Page :=
  match outcome with
  | FetchRejects e => submit_failed e st
  | FetchResolves status body =>
      if negb (ok status) then
        match body with
        | JsonRejects e => submit_failed e st
        | JsonResolves data =>
            submit_failed
              (ThrownError
                 (match p_error data with
                  | Some message => message
                  | None => js "Upload failed."
                  end)) st
        end
      else
        match body with
        | JsonRejects e => submit_failed e st
        | JsonResolves data =>
            let st := setResult (Some data) st in
            let st := setQueue (List.map (mark_uploaded title data)) st in
            let st := resetForm st in
            setUploading false st
        end
  end.

(** *** A session

    What the user and the network do to one mounted page. The submit
    button is disabled while [uploading], so one request is in flight at
    most; the form stays editable meanwhile. *)
Record Session := {
  page : Page;
  (** the title held by the handler awaiting its response *)
  in_flight : option jsstring;
  (** the requests sent so far, latest first *)
  sent : list FormData
}.

Inductive Action :=
| Edit (f : Form.t)                  (* any of the input setters *)
| ClickReset
| ClickAddToLaunchPlan (draw : jsstring)
| Submit
| Settle (outcome : fetch_outcome).

Definition step (s : Session) (a : Action) : Session :=
  match a with
  | Edit f =>
      {| page := setForm f (page s); in_flight := in_flight s; sent := sent s |}
  | ClickReset =>
      {| page := resetForm (page s); in_flight := in_flight s; sent := sent s |}
  | ClickAddToLaunchPlan draw =>
      {| page := addToQueue draw (page s); in_flight := in_flight s;
         sent := sent s |}
  | Submit =>
      if uploading (page s) then s
      else
        match handleSubmit_begin (page s) with
        | (st, Some request) =>
            {| page := st;
               in_flight := Some (Form.title (form (page s)));
               sent := request :: sent s |}
        | (st, None) =>
            {| page := st; in_flight := in_flight s; sent := sent s |}
        end
  | Settle outcome =>
      match in_flight s with
      | Some title =>
          {| page := handleSubmit_end title outcome (page s);
             in_flight := None; sent := sent s |}
      | None => s
      end
  end.

Definition start (hashtags : option jsstring) : Session :=
  {| page := initial_page hashtags; in_flight := None; sent := [] |}.

Definition run (hashtags : option jsstring) (actions : list Action) : Session :=
  fold_left step actions (start hashtags).

End Client.

(** ** route.ts: the schema

    [zod] is a dependency of the repository; its combinators are modelled
    as the library documents them, on the values [safeParse] can be given.
    A parser returns its output or the issues it raised. *)

Inductive value :=
| VUndefined
| VNull
| VString (s : jsstring)
| VFile (f : File).

(** [formData.get(key)] as a value: [null] when the field is absent. *)
Definition get_value (formData : FormData) (key : string) : value :=
  match get formData (js key) with
  | None => VNull
  | Some (EString s) => VString s
  | Some (EFile f) => VFile f
  end.

Inductive parsed (A : Type) :=
| Valid (output : A)
| Invalid (issues : list jsstring).

Arguments Valid {A} output.
Arguments Invalid {A} issues.

Definition issues_of {A} (p : parsed A) : list jsstring :=
  match p with Valid _ => [] | Invalid issues => issues end.

(** The messages of the library's own error map, which the source does not
    fix: for a value that is not a string, and for one outside an enum. *)
Class ZodErrorMap := {
  invalid_type_message : value -> jsstring;
  invalid_enum_message : value -> jsstring
}.

Section Zod.
Context {EM : ZodErrorMap}.

(** [z.string()] *)
Definition z_string (v : value) : parsed jsstring :=
  match v with
  | VString s => Valid s
  | _ => Invalid [invalid_type_message v]
  end.

(** [.min(n, message)] on a string schema; the length is [s.length]. *)
Definition min (n : nat) (message : string)
    (schema : value -> parsed jsstring) (v : value) : parsed jsstring :=
  match schema v with
  | Valid s =>
      if Nat.ltb (List.length s) n then Invalid [js message] else Valid s
  | Invalid issues => Invalid issues
  end.

(** [.optional()]: [undefined] passes, every other value, [null]
    included, goes to the inner schema. *)
Definition optional {A} (schema : value -> parsed A) (v : value)
  : parsed (option A) :=
  match v with
  | VUndefined => Valid None
  | _ =>
      match schema v with
      | Valid a => Valid (Some a)
      | Invalid issues => Invalid issues
      end
  end.

(** [.transform(f)]: skipped once an issue was raised. *)
Definition transform {A B} (f : A -> B) (schema : value -> parsed A)
    (v : value) : parsed B :=
  match schema v with
  | Valid a => Valid (f a)
  | Invalid issues => Invalid issues
  end.

(** [.refine(check, message)] *)
Definition refine {A} (check : A -> bool) (message : string)
    (schema : value -> parsed A) (v : value) : parsed A :=
  match schema v with
  | Valid a => if check a then Valid a else Invalid [js message]
  | Invalid issues => Invalid issues
  end.

(** [z.enum(["public", "private", "unlisted"])] *)
Definition z_enum_privacy (v : value) : parsed PrivacyStatus :=
  match v with
  | VString s =>
      if jseqb s (js "public") then Valid public
      else if jseqb s (js "private") then Valid private
      else if jseqb s (js "unlisted") then Valid unlisted
      else Invalid [invalid_enum_message v]
  | _ => Invalid [invalid_enum_message v]
  end.

End Zod.

(** The output of [formSchema]. *)
Module Fields.
Record t := {
  title : jsstring;
  description : jsstring;
  tags : list jsstring;
  privacyStatus : PrivacyStatus;
  publishAt : option jsstring;
  madeForKids : bool;
  notifySubscribers : bool;
  categoryId : option jsstring;
  defaultLanguage : option jsstring
}.
End Fields.

(** The argument of [uploadShort]; [data] is the spread [...payload.data],
    [buffer] the bytes of the file. *)
Record UploadArgs := {
  buffer : File;
  fileName : jsstring;
  mimeType : jsstring;
  data : Fields.t
}.

Inductive upload_outcome :=
| UploadResolves (videoId url : jsstring)
| UploadRejects (e : thrown).

Record Response := { status : Z; body : Payload }.

(** [NextResponse.json({ error }, { status })] *)
Definition json_error (message : jsstring) (status : Z) : Response :=
  {| status := status;
     body := {| p_error := Some message; p_videoId := None; p_url := None |} |}.

(** [NextResponse.json({ videoId, url }, { status })] *)
Definition json_result (videoId url : jsstring) (status : Z) : Response :=
  {| status := status;
     body := {| p_error := None; p_videoId := Some videoId; p_url := Some url |} |}.

(** [await request.formData()] rejects when the body is not form data. *)
Inductive Request :=
| Unreadable (e : thrown)
| Multipart (formData : FormData).

Definition MAX_FILE_SIZE_BYTES : N := 1024 * 1024 * 1024.

Section Route.
Context {RT : Runtime} {EM : ZodErrorMap}.

(** [uploadShort] of [@/lib/youtube], a module outside these sources. *)
Variable uploadShort : UploadArgs -> upload_outcome.

Definition schema_title : value -> parsed jsstring :=
  min 5 "Title is required." z_string.

Definition schema_description : value -> parsed jsstring :=
  min 10 "Description is required." z_string.

Definition schema_tags : value -> parsed (list jsstring) :=
  transform
    (fun value : option jsstring =>
       match value with
       | Some s =>
           if truthy s
           then filter truthy (List.map trim (split_on (N_of_ascii ",") s))
           else []
       | None => []
       end)
    (optional z_string).

Definition schema_privacyStatus : value -> parsed PrivacyStatus :=
  z_enum_privacy.

(** The last transform is [value?.toISOString()]; it is not run on an
    invalid date, for which the refinement has raised its issue. *)
Definition schema_publishAt : value -> parsed (option jsstring) :=
  transform
    (fun value : option time_value =>
       match value with
       | Some (Some t) => Some (toISOString t)
       | _ => None
       end)
    (refine
       (fun value : option time_value =>
          match value with
          | None => true
          | Some date => match date with Some _ => true | None => false end
          end)
       "Invalid publish date."
       (transform
          (fun value : option jsstring =>
             match value with
             | Some s => if truthy s then Some (new_Date s) else None
             | None => None
             end)
          (optional z_string))).

Definition schema_flag : value -> parsed bool :=
  transform
    (fun value : option jsstring =>
       match value with
       | Some s => jseqb s (js "true")
       | None => false
       end)
    (optional z_string).

Definition schema_optional_string : value -> parsed (option jsstring) :=
  optional z_string.

(** The object handed to [safeParse], field by field. *)
Definition input_privacyStatus (formData : FormData) : value :=
  match get_value formData "privacyStatus" with
  | VNull => VString (js "private")
  | v => v
  end.

(** The issues of all the fields, in the order of the schema's keys. *)
Definition schema_issues (formData : FormData) : list jsstring :=
  issues_of (schema_title (get_value formData "title"))
  ++ issues_of (schema_description (get_value formData "description"))
  ++ issues_of (schema_tags (get_value formData "tags"))
  ++ issues_of (schema_privacyStatus (input_privacyStatus formData))
  ++ issues_of (schema_publishAt (get_value formData "publishAt"))
  ++ issues_of (schema_flag (get_value formData "madeForKids"))
  ++ issues_of (schema_flag (get_value formData "notifySubscribers"))
  ++ issues_of (schema_optional_string (get_value formData "categoryId"))
  ++ issues_of (schema_optional_string (get_value formData "defaultLanguage")).

(** [formSchema.safeParse({...})] on the fields of the form. *)
Definition safeParse (formData : FormData) : parsed Fields.t :=
  match schema_title (get_value formData "title"),
        schema_description (get_value formData "description"),
        schema_tags (get_value formData "tags"),
        schema_privacyStatus (input_privacyStatus formData),
        schema_publishAt (get_value formData "publishAt"),
        schema_flag (get_value formData "madeForKids"),
        schema_flag (get_value formData "notifySubscribers"),
        schema_optional_string (get_value formData "categoryId"),
        schema_optional_string (get_value formData "defaultLanguage")
  with
  | Valid title, Valid description, Valid tags, Valid privacyStatus,
    Valid publishAt, Valid madeForKids, Valid notifySubscribers,
    Valid categoryId, Valid defaultLanguage =>
      Valid {| Fields.title := title;
               Fields.description := description;
               Fields.tags := tags;
               Fields.privacyStatus := privacyStatus;
               Fields.publishAt := publishAt;
               Fields.madeForKids := madeForKids;
               Fields.notifySubscribers := notifySubscribers;
               Fields.categoryId := categoryId;
               Fields.defaultLanguage := defaultLanguage |}
  | _, _, _, _, _, _, _, _, _ => Invalid (schema_issues formData)
  end.

(** The [catch] block of the handler. *)
Definition server_error (error : thrown) : Response :=
  json_error
    (match error with
     | ThrownError message => message
     | ThrownOther =>
         js "An unexpected error occurred while uploading the video."
     end) 500.

(** The two checks on the [video] field: the response that ends the
    request, or the file. *)
Definition check_file (formData : FormData) : Response + File :=
  match get formData (js "video") with
  | Some (EFile file) =>
      if (MAX_FILE_SIZE_BYTES <? size file)%N
      then inl (json_error (js "Video file is too large.") 400)
      else inr file
  | _ => inl (json_error (js "Video file is required.") 400)
  end.

(** The handler from [formSchema.safeParse] on: its response and its
    calls of [uploadShort]. *)
Definition validate_and_upload (formData : FormData) (file : File)
  : Response * list UploadArgs :=
  match safeParse formData with
  | Invalid issues => (json_error (join (js " ") issues) 400, [])
  | Valid payload =>
      let args :=
        {| buffer := file;
           fileName := name file;
           mimeType := or_else (type file) (js "video/mp4");
           data := payload |} in
      match uploadShort args with
      | UploadResolves videoId url => (json_result videoId url 201, [args])
      | UploadRejects e => (server_error e, [args])
      end
  end.

Definition POST (request : Request) : Response * list UploadArgs :=
  match request with
  | Unreadable e => (server_error e, [])
  | Multipart formData =>
      match check_file formData with
      | inl response => (response, [])
      | inr file => validate_and_upload formData file
      end
  end.

End Route.

(** * Properties *)

(** ** Strings and lists *)

Lemma jseqb_eq (a b : jsstring) : jseqb a b = true <-> a = b.
Proof.
  revert b; induction a as [|x a IH]; intros [|y b]; simpl;
    try (split; congruence).
  rewrite andb_true_iff, N.eqb_eq, IH. split.
  - intros [-> ->]. reflexivity.
  - intros H. injection H. auto.
Qed.

Lemma jseqb_refl (a : jsstring) : jseqb a a = true.
Proof. apply jseqb_eq. reflexivity. Qed.

Lemma jseqb_neq (a b : jsstring) : jseqb a b = false <-> a <> b.
Proof.
  rewrite <- jseqb_eq. destruct (jseqb a b); split; congruence.
Qed.

Lemma seen_iff (x : jsstring) (seen : list jsstring) :
  existsb (jseqb x) seen = true <-> In x seen.
Proof.
  rewrite existsb_exists. split.
  - intros [y [Hy E]]. apply jseqb_eq in E. subst. assumption.
  - intros H. exists x. split; [assumption | apply jseqb_refl].
Qed.

Lemma truthy_nonempty (s : jsstring) : truthy s = true <-> s <> [].
Proof. destruct s; simpl; split; congruence. Qed.

Lemma slice_from_start {A} (n : nat) (xs : list A) :
  slice 0 n xs = firstn n xs.
Proof. unfold slice. rewrite Nat.sub_0_r. reflexivity. Qed.

Lemma slice_length {A} (i j : nat) (xs : list A) :
  (List.length (slice i j xs) <= j - i)%nat.
Proof. unfold slice. apply firstn_le_length. Qed.

Lemma In_firstn {A} (n : nat) (xs : list A) (x : A) :
  In x (firstn n xs) -> In x xs.
Proof.
  revert xs; induction n as [|n IH]; intros [|y xs]; simpl; try tauto.
  intros [->|H]; [left; reflexivity | right; apply IH, H].
Qed.

Lemma NoDup_firstn {A} (n : nat) (xs : list A) :
  NoDup xs -> NoDup (firstn n xs).
Proof.
  revert xs; induction n as [|n IH]; intros [|y xs] H; simpl;
    try constructor.
  - inversion H; subst. intros Hin. apply In_firstn in Hin. contradiction.
  - inversion H; subst. apply IH. assumption.
Qed.

(** [dedupe_from] yields distinct elements, none of them seen before, and
    keeps every element that was not. *)
Lemma dedupe_from_spec (xs seen : list jsstring) :
  NoDup (dedupe_from seen xs)
  /\ (forall x, In x (dedupe_from seen xs) <-> In x xs /\ ~ In x seen).
Proof.
  revert seen; induction xs as [|y xs IH]; intros seen; simpl.
  - split; [constructor | intros x; tauto].
  - destruct (existsb (jseqb y) seen) eqn:E.
    + apply seen_iff in E. destruct (IH seen) as [ND M]. split; [exact ND|].
      intros x. rewrite M. split; [tauto|].
      intros [[<-|H] Hn]; [contradiction | tauto].
    + assert (Hy : ~ In y seen)
        by (intros H; apply seen_iff in H; congruence).
      destruct (IH (y :: seen)) as [ND M]. split.
      * constructor; [| exact ND]. rewrite M. simpl. tauto.
      * intros x. simpl. rewrite M. simpl. split.
        -- intros [<-|[H Hn]]; [tauto|]. split; [tauto|]. tauto.
        -- intros [[<-|H] Hn]; [tauto|].
           destruct (list_eq_dec N.eq_dec y x) as [->|Hne];
             [left; reflexivity|].
           right. split; [assumption|]. intros [E'|H']; contradiction.
Qed.

Lemma dedupe_from_length (xs seen : list jsstring) :
  (List.length (dedupe_from seen xs) <= List.length xs)%nat.
Proof.
  revert seen; induction xs as [|y xs IH]; intros seen; simpl; [lia|].
  destruct (existsb (jseqb y) seen); simpl.
  - specialize (IH seen). lia.
  - specialize (IH (y :: seen)). lia.
Qed.

(** The set grows by the elements let through. *)
Lemma dedupe_from_app (a b seen : list jsstring) :
  dedupe_from seen (a ++ b)
  = dedupe_from seen a ++ dedupe_from (rev (dedupe_from seen a) ++ seen) b.
Proof.
  revert seen; induction a as [|y a IH]; intros seen; simpl; [reflexivity|].
  destruct (existsb (jseqb y) seen); [apply IH|].
  simpl. rewrite IH, <- app_assoc. reflexivity.
Qed.

(** ** The hashtag suggester *)

Section HashtagFacts.
Context {RT : Runtime}.

Lemma generateHashtags_length (title description tags : jsstring) :
  (List.length (generateHashtags title description tags) <= 8)%nat.
Proof. unfold generateHashtags. apply (slice_length 0 8). Qed.

Lemma generateHashtags_NoDup (title description tags : jsstring) :
  NoDup (generateHashtags title description tags).
Proof.
  unfold generateHashtags. rewrite slice_from_start.
  apply NoDup_firstn, dedupe_from_spec.
Qed.

(** A frequency-ranked entry is built as [#word]. *)
Lemma ranked_starts_with_hash (title description tags x : jsstring) :
  In x (ranked_hashtags title description tags) -> startsWith_hash x = true.
Proof.
  unfold ranked_hashtags. rewrite in_map_iff.
  intros [entry [<- _]]. reflexivity.
Qed.

(** An entry taken from the description went through
    [replace(/[^a-z0-9_]/g, '')], which removes its [#]. *)
Lemma extracted_lacks_hash (input x : jsstring) :
  In x (extractHashtags input) -> startsWith_hash x = false /\ x <> [].
Proof.
  unfold extractHashtags. rewrite filter_In, in_map_iff.
  intros [[tag [<- _]] Hne]. split; [| apply truthy_nonempty, Hne].
  unfold keep_tag_chars.
  destruct (filter _ tag) as [|c rest] eqn:E; [reflexivity|].
  assert (Hc : In c (c :: rest)) by (left; reflexivity).
  rewrite <- E in Hc. apply filter_In in Hc. destruct Hc as [_ Hc].
  simpl. unfold HASH. destruct (N.eqb_spec c 35) as [->|]; [|reflexivity].
  discriminate Hc.
Qed.

(** The entries taken from the description come first, all of them, and
    only frequency-ranked entries follow. *)
Lemma generateHashtags_inline_first (title description tags : jsstring) :
  exists rest,
    generateHashtags title description tags
    = dedupe (slice 0 3 (extractHashtags description)) ++ rest
    /\ Forall (fun x => In x (ranked_hashtags title description tags)) rest.
Proof.
  unfold generateHashtags, dedupe.
  set (inline := slice 0 3 (extractHashtags description)).
  set (ranked := ranked_hashtags title description tags).
  rewrite dedupe_from_app, slice_from_start, firstn_app.
  assert (L : (List.length (dedupe_from [] inline) <= 3)%nat).
  { pose proof (dedupe_from_length inline []).
    pose proof (slice_length 0 3 (extractHashtags description)).
    fold inline in H0. lia. }
  rewrite firstn_all2 by lia.
  eexists. split; [reflexivity|].
  apply Forall_forall. intros x Hx. apply In_firstn in Hx.
  apply dedupe_from_spec in Hx. tauto.
Qed.

End HashtagFacts.

(** C7. The suggester returns at most eight distinct entries with those of
    the description first, but an entry taken from the description has lost
    its [#]: for the description [#cats] the result is [cats] followed by
    the ranked [#cats]. *)
Theorem generateHashtags_entry_without_hash :
  @generateHashtags utc_runtime [] (js "#cats") []
  = [js "cats"; js "#cats"]
  /\ startsWith_hash (js "cats") = false.
Proof. split; vm_compute; reflexivity. Qed.

(** ** The publish-time resolver *)

Lemma toISOString_truthy (t : Z) : truthy (toISOString t) = true.
Proof.
  unfold toISOString. destruct (civil_from_days _) as [[y m] d].
  destruct (_ && _); reflexivity.
Qed.

(** The calendar date read off a day number is the date of that day: on
    every day from 1900-01-01 to 2100-12-31, [MakeDay] of the result of
    [civil_from_days] is the day, with month and day in range. *)
Definition day_round_trips (d : Z) : bool :=
  let '(y, m, dd) := civil_from_days d in
  (MakeDay y m dd =? d) && (1 <=? m) && (m <=? 12)
  && (1 <=? dd) && (dd <=? DaysInMonth y m).

Fixpoint days_from (d : Z) (count : nat) : list Z :=
  match count with
  | O => []
  | S count' => d :: days_from (d + 1) count'
  end.

Lemma days_round_trip_1900_2100 :
  MakeDay 1900 1 1 = -25567 /\ MakeDay 2100 12 31 = -25567 + 73414 - 1
  /\ forallb day_round_trips (days_from (-25567) (Z.to_nat 73414)) = true.
Proof.
  split; [vm_compute; reflexivity|]. split; vm_compute; reflexivity.
Qed.

Section ResolverFacts.
Context {RT : Runtime}.

(** The string handed to [new Date]. *)
Definition timestamp_text (date time : jsstring) : jsstring :=
  date ++ js "T" ++ or_else time (js "09:00") ++ js ":00".

Lemma buildPublishDate_cases (date time : jsstring) :
  buildPublishDate date time =
  match date with
  | [] => None
  | _ :: _ => option_map toISOString (new_Date (timestamp_text date time))
  end.
Proof.
  unfold buildPublishDate, timestamp_text. destruct date as [|c date];
    simpl; [reflexivity|].
  destruct (new_Date _); reflexivity.
Qed.

Lemma buildPublishDate_truthy (date time ts : jsstring) :
  buildPublishDate date time = Some ts -> truthy ts = true.
Proof.
  rewrite buildPublishDate_cases. destruct date; [discriminate|].
  destruct (new_Date _); simpl; [|discriminate].
  intros H. injection H as <-. apply toISOString_truthy.
Qed.

End ResolverFacts.

(** The number the clock shows for a date and a time of day: their time
    value when read as UTC. 2024-05-01 09:00 is 1714554000000 and 18:30 is
    1714588200000. *)
Definition wall_clock (y m d h mi : Z) : Z :=
  MakeDate (MakeDay y m d) (MakeTime h mi 0 0).

(** C6. The resolver returns absent for an empty date and whenever the
    assembled text does not parse; otherwise it returns the parsed instant
    in ISO form. An empty time stands for 09:00, and 2024-05-01 with no time
    or with 18:30 resolves to the instant at which the local clock shows
    09:00 or 18:30 on that date: the number the clock shows less the offset
    of the local zone from UTC, so in a zone [offset] ahead of UTC it is
    1714554000000 - offset or 1714588200000 - offset. *)
Theorem buildPublishDate_resolves :
  forall RT : Runtime,
    (forall time, buildPublishDate [] time = None)
    /\ (forall date time,
           new_Date (timestamp_text date time) = None ->
           buildPublishDate date time = None)
    /\ (forall date time t,
           date <> [] ->
           new_Date (timestamp_text date time) = Some t ->
           buildPublishDate date time = Some (toISOString t))
    /\ (forall date,
           timestamp_text date [] = date ++ js "T09:00:00"
           /\ buildPublishDate date [] = buildPublishDate date (js "09:00"))
    /\ buildPublishDate (js "2024-05-01") []
       = option_map toISOString
           (TimeClip (wall_clock 2024 5 1 9 0
                      - LocalTZA (wall_clock 2024 5 1 9 0)))
    /\ buildPublishDate (js "2024-05-01") (js "18:30")
       = option_map toISOString
           (TimeClip (wall_clock 2024 5 1 18 30
                      - LocalTZA (wall_clock 2024 5 1 18 30)))
    /\ (forall offset,
           (forall t, LocalTZA t = offset) ->
           -86400000 <= offset <= 86400000 ->
           buildPublishDate (js "2024-05-01") []
           = Some (toISOString (1714554000000 - offset))
           /\ buildPublishDate (js "2024-05-01") (js "18:30")
              = Some (toISOString (1714588200000 - offset))).
Proof.
  intros RT.
  assert (At9 : buildPublishDate (js "2024-05-01") []
                = option_map toISOString
                    (TimeClip (wall_clock 2024 5 1 9 0
                               - LocalTZA (wall_clock 2024 5 1 9 0))))
    by (rewrite buildPublishDate_cases; reflexivity).
  assert (At1830 : buildPublishDate (js "2024-05-01") (js "18:30")
                   = option_map toISOString
                       (TimeClip (wall_clock 2024 5 1 18 30
                                  - LocalTZA (wall_clock 2024 5 1 18 30))))
    by (rewrite buildPublishDate_cases; reflexivity).
  split; [reflexivity|].
  split.
  { intros date time H. rewrite buildPublishDate_cases, H.
    destruct date; reflexivity. }
  split.
  { intros date time t Hd H. rewrite buildPublishDate_cases, H.
    destruct date; [contradiction | reflexivity]. }
  split.
  { intros date. split; [reflexivity|].
    rewrite !buildPublishDate_cases. reflexivity. }
  split; [exact At9|]. split; [exact At1830|].
  intros offset Hzone Hoffset. rewrite At9, At1830, !Hzone.
  change (wall_clock 2024 5 1 9 0) with 1714554000000.
  change (wall_clock 2024 5 1 18 30) with 1714588200000.
  unfold TimeClip.
  destruct (Z.leb_spec (Z.abs (1714554000000 - offset)) 8640000000000000);
    [|lia].
  destruct (Z.leb_spec (Z.abs (1714588200000 - offset)) 8640000000000000);
    [|lia].
  split; reflexivity.
Qed.

(** Four hours west of Greenwich the two examples are 13:00 and 22:30 on
    the UTC clock, and a text that is no date resolves to nothing. *)
Lemma buildPublishDate_resolves_witness :
  @buildPublishDate new_york_summer_runtime (js "not-a-date") (js "18:30")
  = None
  /\ @buildPublishDate new_york_summer_runtime (js "2024-05-01") []
     = Some (js "2024-05-01T13:00:00.000Z")
  /\ @buildPublishDate new_york_summer_runtime (js "2024-05-01") (js "18:30")
     = Some (js "2024-05-01T22:30:00.000Z").
Proof.
  destruct (buildPublishDate_resolves new_york_summer_runtime)
    as (_ & Hnone & _ & _ & _ & _ & Hzone).
  split.
  - apply Hnone. vm_compute. reflexivity.
  - destruct (Hzone (-14400000)) as [H9 H1830];
      [intros t; reflexivity | lia |].
    rewrite H9, H1830. split; vm_compute; reflexivity.
Defined.

(** In a zone four hours behind UTC the same form fields name an instant
    four hours later on the UTC clock. *)
Example buildPublishDate_new_york :
  @buildPublishDate new_york_summer_runtime (js "2024-05-01") []
  = Some (js "2024-05-01T13:00:00.000Z").
Proof. vm_compute. reflexivity. Qed.

(** ** The local checks of [handleSubmit] *)

Definition MSG_ATTACH : jsstring := js "Attach a Short before uploading.".

Definition MSG_SCHEDULED : jsstring :=
  js "Scheduled Shorts must use private or unlisted privacy until publish time.".

Section SubmitFacts.
Context {RT : Runtime}.

(** The schedule of the form, as the handler resolves it. *)
Definition resolved (st : Page) : option jsstring :=
  buildPublishDate (Form.scheduleDate (form st)) (Form.scheduleTime (form st)).

Lemma begin_without_file (st : Page) :
  Form.file (form st) = None ->
  handleSubmit_begin st
  = (setError (Some MSG_ATTACH) (setResult None (setError None st)), None).
Proof. unfold handleSubmit_begin. simpl. intros ->. reflexivity. Qed.

Lemma begin_scheduled_public (st : Page) (f : File) (ts : jsstring) :
  Form.file (form st) = Some f ->
  resolved st = Some ts ->
  Form.privacyStatus (form st) = public ->
  handleSubmit_begin st
  = (setError (Some MSG_SCHEDULED) (setResult None (setError None st)), None).
Proof.
  unfold handleSubmit_begin, resolved. simpl. intros -> Hts ->.
  rewrite Hts. simpl. rewrite (buildPublishDate_truthy _ _ Hts). reflexivity.
Qed.

Lemma begin_sends (st : Page) (f : File) :
  Form.file (form st) = Some f ->
  resolved st = None \/ Form.privacyStatus (form st) <> public ->
  handleSubmit_begin st
  = (setUploading true (setResult None (setError None st)),
     Some (request_body f (resolved st) (form st))).
Proof.
  unfold handleSubmit_begin, resolved. simpl. intros -> H.
  destruct H as [-> | H]; [reflexivity|].
  destruct (Form.privacyStatus (form st)); try contradiction;
    rewrite andb_false_r; reflexivity.
Qed.

End SubmitFacts.

(** C5. The handler first requires a file, then refuses a resolved
    schedule with public privacy; in both cases it sets the message and
    sends nothing. When both checks pass it sends one request, and a
    submission adds to the requests sent exactly what the handler sends. *)
Theorem handleSubmit_local_checks :
  forall (RT : Runtime) (st : Page),
    (Form.file (form st) = None ->
       snd (handleSubmit_begin st) = None
       /\ error (fst (handleSubmit_begin st)) = Some MSG_ATTACH)
    /\ (forall f ts,
           Form.file (form st) = Some f ->
           resolved st = Some ts ->
           Form.privacyStatus (form st) = public ->
           snd (handleSubmit_begin st) = None
           /\ error (fst (handleSubmit_begin st)) = Some MSG_SCHEDULED)
    /\ (forall f,
           Form.file (form st) = Some f ->
           resolved st = None \/ Form.privacyStatus (form st) <> public ->
           snd (handleSubmit_begin st)
           = Some (request_body f (resolved st) (form st))
           /\ error (fst (handleSubmit_begin st)) = None)
    /\ (forall s,
           page s = st -> uploading st = false ->
           sent (step s Submit)
           = match snd (handleSubmit_begin st) with
             | Some request => request :: sent s
             | None => sent s
             end).
Proof.
  intros RT st. split; [|split; [|split]].
  - intros H. rewrite (begin_without_file _ H). split; reflexivity.
  - intros f ts Hf Hts Hp.
    rewrite (begin_scheduled_public _ Hf Hts Hp). split; reflexivity.
  - intros f Hf H. rewrite (begin_sends _ Hf H). split; reflexivity.
  - intros s <- Hu. unfold step. rewrite Hu.
    destruct (handleSubmit_begin (page s)) as [st' [request|]]; reflexivity.
Qed.

(** A page for running the model: a file and a title, private, with the
    given schedule. *)
Definition sample_file : File :=
  {| name := js "launch.mp4"; type := js "video/mp4"; size := 1048576 |}.

Definition sample_form (privacy : PrivacyStatus) (date time : jsstring)
  : Form.t :=
  {| Form.file := Some sample_file; Form.title := js "Launch day";
     Form.description := js "Behind the scenes of the launch";
     Form.tagsInput := js "launch, behind the scenes";
     Form.privacyStatus := privacy;
     Form.scheduleDate := date; Form.scheduleTime := time;
     Form.madeForKids := false; Form.notifySubscribers := true;
     Form.categoryId := js "24"; Form.defaultLanguage := js "en" |}.

Lemma handleSubmit_local_checks_witness :
  let scheduled_public :=
    setForm (sample_form public (js "2024-05-01") (js "18:30"))
            (initial_page None) in
  let unscheduled :=
    setForm (sample_form public [] []) (initial_page None) in
  snd (@handleSubmit_begin utc_runtime (initial_page None)) = None
  /\ snd (@handleSubmit_begin utc_runtime scheduled_public) = None
  /\ snd (@handleSubmit_begin utc_runtime unscheduled)
     = Some (request_body sample_file None (sample_form public [] [])).
Proof.
  intros scheduled_public unscheduled.
  split; [|split].
  - destruct (handleSubmit_local_checks utc_runtime (initial_page None))
      as (H & _).
    apply H. reflexivity.
  - destruct (handleSubmit_local_checks utc_runtime scheduled_public)
      as (_ & H & _).
    apply (H sample_file (js "2024-05-01T18:30:00.000Z"));
      vm_compute; reflexivity.
  - destruct (handleSubmit_local_checks utc_runtime unscheduled)
      as (_ & _ & H & _).
    apply (H sample_file); [reflexivity | left; vm_compute; reflexivity].
Defined.

(** ** Sessions *)


(** The draws of the additions to the launch plan, in order. *)
Fixpoint draws (actions : list Action) : list jsstring :=
  match actions with
  | [] => []
  | ClickAddToLaunchPlan draw :: rest => draw :: draws rest
  | _ :: rest => draws rest
  end.

Definition ids (s : Session) : list jsstring :=
  List.map QueueItem.id (queue (page s)).

Section SessionFacts.
Context {RT : Runtime}.

Lemma mark_uploaded_keeps (title : jsstring) (data : Payload)
    (item : QueueItem.t) :
  QueueItem.id (mark_uploaded title data item) = QueueItem.id item
  /\ QueueItem.title (mark_uploaded title data item) = QueueItem.title item
  /\ QueueItem.publishAt (mark_uploaded title data item)
     = QueueItem.publishAt item.
Proof.
  unfold mark_uploaded. destruct (_ && _); simpl; auto.
Qed.




Lemma or_else_nonempty (a : jsstring) (b : string) :
  js b <> [] -> or_else a (js b) <> [].
Proof.
  intros Hb. unfold or_else. destruct (truthy a) eqn:E; [|assumption].
  apply truthy_nonempty, E.
Qed.

Lemma begin_queue (st : Page) :
  queue (fst (handleSubmit_begin st)) = queue st.
Proof.
  unfold handleSubmit_begin. simpl.
  destruct (Form.file (form st)); [|reflexivity].
  destruct (_ && _); reflexivity.
Qed.

Lemma begin_request (st st' : Page) (request : FormData) :
  handleSubmit_begin st = (st', Some request) ->
  uploading st' = true /\ error st' = None /\ result st' = None.
Proof.
  unfold handleSubmit_begin. simpl.
  destruct (Form.file (form st)); [|discriminate].
  destruct (_ && _); [discriminate|].
  intros H. injection H as <- _. auto.
Qed.

Lemma end_queue_titles (title : jsstring) (outcome : fetch_outcome)
    (st : Page) :
  List.map QueueItem.title (queue (handleSubmit_end title outcome st))
  = List.map QueueItem.title (queue st)
  /\ List.map QueueItem.id (queue (handleSubmit_end title outcome st))
     = List.map QueueItem.id (queue st).
Proof.
  assert (F : forall e, queue (submit_failed e st) = queue st)
    by (intros []; reflexivity).
  unfold handleSubmit_end.
  destruct outcome as [e | status [e | data]]; rewrite ?F; auto.
  - destruct (negb (ok status)); rewrite ?F; auto.
  - destruct (negb (ok status)); rewrite ?F; auto. simpl.
    rewrite !map_map. split; apply map_ext; intros item;
      apply mark_uploaded_keeps.
Qed.




Lemma step_ids (s : Session) (a : Action) :
  ids (step s a) = ids s ++ List.map randomId (draws [a]).
Proof.
  unfold ids. destruct a as [f | | draw | | outcome]; simpl;
    rewrite ?app_nil_r; try reflexivity.
  - rewrite map_app. reflexivity.
  - destruct (uploading (page s)); [reflexivity|].
    pose proof (begin_queue (page s)) as Q.
    destruct (handleSubmit_begin (page s)) as [st' [request|]];
      simpl in *; rewrite Q; reflexivity.
  - destruct (in_flight s); [|reflexivity]. simpl.
    apply end_queue_titles.
Qed.

Lemma fold_ids (actions : list Action) (s : Session) :
  ids (fold_left step actions s) = ids s ++ List.map randomId (draws actions).
Proof.
  revert s; induction actions as [|a actions IH]; intros s; simpl.
  - rewrite app_nil_r. reflexivity.
  - rewrite IH, step_ids, <- app_assoc, <- map_app. f_equal.
    destruct a; reflexivity.
Qed.

End SessionFacts.


Definition sample_success : fetch_outcome :=
  FetchResolves 201
    (JsonResolves {| p_error := None; p_videoId := Some (js "abc123");
                     p_url := Some (js "https://youtu.be/abc123") |}).

Definition sample_actions : list Action :=
  [ Edit (sample_form private [] []);
    ClickAddToLaunchPlan (js "0.3lllllllllm");
    Submit ].


(** C8. On a status that is not [ok] the message shown is the [error]
    field of the parsed body, or [Upload failed.] when the body has no such
    field; when the body does not parse, the message shown is the one of the
    exception that [response.json()] raised. *)
Theorem failed_response_message :
  forall (title : jsstring) (status : Z) (st : Page),
    ok status = false ->
    (forall data message,
        p_error data = Some message ->
        error (handleSubmit_end title (FetchResolves status (JsonResolves data)) st)
        = Some message)
    /\ (forall data,
           p_error data = None ->
           error (handleSubmit_end title (FetchResolves status (JsonResolves data)) st)
           = Some (js "Upload failed."))
    /\ (forall message,
           error (handleSubmit_end title
                    (FetchResolves status (JsonRejects (ThrownError message))) st)
           = Some message).
Proof.
  intros title status st Hok. unfold handleSubmit_end. rewrite Hok. simpl.
  repeat split.
  - intros data message ->. reflexivity.
  - intros data ->. reflexivity.
Qed.

Lemma failed_response_message_witness :
  error (handleSubmit_end (js "Launch day")
           (FetchResolves 400
              (JsonResolves {| p_error := Some (js "Title is required.");
                               p_videoId := None; p_url := None |}))
           (initial_page None))
  = Some (js "Title is required.").
Proof.
  apply (failed_response_message (js "Launch day") 400 (initial_page None));
    reflexivity.
Defined.

(** A body that is not JSON: the message is the parser's, and it is neither
    of the two fixed messages of the handler. *)
Lemma unparseable_body_shows_parser_message :
  error (handleSubmit_end (js "Launch day")
           (FetchResolves 502
              (JsonRejects (ThrownError (js "Unexpected end of JSON input"))))
           (initial_page None))
  = Some (js "Unexpected end of JSON input")
  /\ js "Unexpected end of JSON input" <> js "Upload failed."
  /\ js "Unexpected end of JSON input" <> js "Something went wrong.".
Proof. repeat split; discriminate. Qed.

(** C9. The ids in the queue are the slices of the draws of
    [Math.random], in order of addition; they are pairwise distinct exactly
    when those slices are. *)
Theorem queue_ids_are_the_draws :
  forall (RT : Runtime) (hashtags : option jsstring) (actions : list Action),
    ids (run hashtags actions) = List.map randomId (draws actions)
    /\ (NoDup (ids (run hashtags actions))
        <-> NoDup (List.map randomId (draws actions))).
Proof.
  intros RT hashtags actions.
  assert (E : ids (run hashtags actions) = List.map randomId (draws actions))
    by (unfold run; rewrite fold_ids; reflexivity).
  split; [exact E | rewrite E; tauto].
Qed.

(** Two different draws with the same first eight digits give two queue
    entries one id: the texts of 1/2 + 2^-44 and of 1/2 + 2^-43. *)
Definition colliding_additions : list Action :=
  [ ClickAddToLaunchPlan (js "0.i00000005s");
    ClickAddToLaunchPlan (js "0.i0000000bjo") ].

Lemma colliding_draws_share_an_id :
  ids (@run utc_runtime None colliding_additions)
  = [js "i0000000"; js "i0000000"]
  /\ ~ NoDup (ids (@run utc_runtime None colliding_additions)).
Proof.
  assert (E : ids (@run utc_runtime None colliding_additions)
              = [js "i0000000"; js "i0000000"]) by (vm_compute; reflexivity).
  split; [exact E|]. rewrite E. intros H. inversion H as [|x l Hn _]; subst.
  apply Hn. left. reflexivity.
Qed.

(** ** The route handler *)

Section RouteFacts.
Context {RT : Runtime} {EM : ZodErrorMap}.
Variable uploadShort : UploadArgs -> upload_outcome.

Lemma min_string (n : nat) (message : string) (s : jsstring) :
  min n message z_string (VString s)
  = if Nat.ltb (List.length s) n then Invalid [js message] else Valid s.
Proof. reflexivity. Qed.

(** [safeParse] fails with all the issues of the fields or succeeds
    when there is none. *)
Lemma safeParse_cases (formData : FormData) :
  (exists payload, safeParse formData = Valid payload
                   /\ schema_issues formData = [])
  \/ safeParse formData = Invalid (schema_issues formData).
Proof.
  unfold safeParse, schema_issues.
  destruct (schema_title _); [|right; reflexivity].
  destruct (schema_description _); [|right; reflexivity].
  destruct (schema_tags _); [|right; reflexivity].
  destruct (schema_privacyStatus _); [|right; reflexivity].
  destruct (schema_publishAt _); [|right; reflexivity].
  destruct (schema_flag _); [|right; reflexivity].
  destruct (schema_flag _); [|right; reflexivity].
  destruct (schema_optional_string _); [|right; reflexivity].
  destruct (schema_optional_string _); [|right; reflexivity].
  left. eexists. split; reflexivity.
Qed.

Lemma check_file_cases (formData : FormData) :
  check_file formData =
  match get formData (js "video") with
  | Some (EFile file) =>
      if (MAX_FILE_SIZE_BYTES <? size file)%N
      then inl (json_error (js "Video file is too large.") 400)
      else inr file
  | _ => inl (json_error (js "Video file is required.") 400)
  end.
Proof. reflexivity. Qed.

(** A response of the file checks ends the request with a 400. *)
Lemma file_rejection_is_400 (formData : FormData) (response : Response) :
  check_file formData = inl response ->
  POST uploadShort (Multipart formData) = (response, [])
  /\ status response = 400.
Proof.
  intros Hfile. unfold POST. rewrite Hfile. split; [reflexivity|].
  rewrite check_file_cases in Hfile.
  destruct (get formData (js "video")) as [[s | file]|];
    try (injection Hfile as <-; reflexivity).
  destruct (_ <? _)%N; [injection Hfile as <-; reflexivity | discriminate].
Qed.

(** A non-empty [publishAt] that is no date raises the issue of the
    refinement. *)
Lemma publishAt_invalid (v : jsstring) :
  v <> [] -> new_Date v = None ->
  schema_publishAt (VString v) = Invalid [js "Invalid publish date."].
Proof.
  intros Hv Hd. apply truthy_nonempty in Hv.
  unfold schema_publishAt, transform, refine, optional, z_string.
  rewrite Hv, Hd. reflexivity.
Qed.

(** An empty [publishAt] is read as no schedule. *)
Lemma publishAt_empty : schema_publishAt (VString []) = Valid None.
Proof. reflexivity. Qed.

(** So is an [undefined] one; but an absent field of a form is [null],
    which is not a string. *)
Lemma publishAt_null :
  schema_publishAt VNull = Invalid [invalid_type_message VNull].
Proof. reflexivity. Qed.

End RouteFacts.

(** The messages of zod 3. *)
Definition zod3_messages : ZodErrorMap :=
  {| invalid_type_message := fun v =>
       match v with
       | VUndefined => js "Required"
       | VNull => js "Expected string, received null"
       | _ => js "Expected string, received object"
       end;
     invalid_enum_message := fun v =>
       match v with
       | VString s =>
           js "Invalid enum value. Expected 'public' | 'private' | 'unlisted', received '"
           ++ s ++ js "'"
       | VUndefined => js "Required"
       | VNull => js "Expected 'public' | 'private' | 'unlisted', received null"
       | VFile _ => js "Expected 'public' | 'private' | 'unlisted', received object"
       end |}.

(** An uploader that succeeds with the identifier [abc123]. *)
Definition upload_abc123 (args : UploadArgs) : upload_outcome :=
  UploadResolves (js "abc123") (js "https://youtu.be/abc123").

(** A well-formed body, with the given file, title, description and
    [publishAt]. *)
Definition sample_body (file : File) (title description publishAt : string)
  : FormData :=
  [ (js "video", EFile file);
    (js "title", EString (js title));
    (js "description", EString (js description));
    (js "tags", EString (js "launch, behind the scenes"));
    (js "privacyStatus", EString (js "private"));
    (js "publishAt", EString (js publishAt));
    (js "madeForKids", EString (js "false"));
    (js "notifySubscribers", EString (js "true"));
    (js "categoryId", EString (js "24"));
    (js "defaultLanguage", EString (js "en")) ].

Definition post_sample (body : FormData) : Response * list UploadArgs :=
  @POST utc_runtime zod3_messages upload_abc123 (Multipart body).

(** *** The rules of the schema

    What each key of [formSchema] demands of the value it is given, and the
    message a value gets that breaks the rule. A value that is not of the
    type of its key gets the library's message for that. *)

Section Rules.
Context {RT : Runtime} {EM : ZodErrorMap}.

(** A string of at least [n] units. *)
Definition rule_min_length (n : nat) (message : string) (v : value)
  : list jsstring :=
  match v with
  | VString s => if (List.length s <? n)%nat then [js message] else []
  | _ => [invalid_type_message v]
  end.

(** A string, or [undefined]. *)
Definition rule_optional_string (v : value) : list jsstring :=
  match v with
  | VString _ => []
  | VUndefined => []
  | _ => [invalid_type_message v]
  end.

(** One of the three names. *)
Definition rule_privacy (v : value) : list jsstring :=
  match v with
  | VString s =>
      if jseqb s (js "public") || jseqb s (js "private")
         || jseqb s (js "unlisted")
      then [] else [invalid_enum_message v]
  | _ => [invalid_enum_message v]
  end.

(** A string that is empty or reads as a date, or [undefined]. *)
Definition rule_publishAt (v : value) : list jsstring :=
  match v with
  | VString [] => []
  | VString s =>
      match new_Date s with
      | Some _ => []
      | None => [js "Invalid publish date."]
      end
  | VUndefined => []
  | _ => [invalid_type_message v]
  end.

(** The messages of the rules a request breaks, in the order of the keys. *)
Definition violated_rules (formData : FormData) : list jsstring :=
  rule_min_length 5 "Title is required." (get_value formData "title")
  ++ rule_min_length 10 "Description is required."
       (get_value formData "description")
  ++ rule_optional_string (get_value formData "tags")
  ++ rule_privacy (input_privacyStatus formData)
  ++ rule_publishAt (get_value formData "publishAt")
  ++ rule_optional_string (get_value formData "madeForKids")
  ++ rule_optional_string (get_value formData "notifySubscribers")
  ++ rule_optional_string (get_value formData "categoryId")
  ++ rule_optional_string (get_value formData "defaultLanguage").

Lemma min_issues (n : nat) (message : string) (v : value) :
  issues_of (min n message z_string v) = rule_min_length n message v.
Proof.
  destruct v as [| |s|f]; try reflexivity.
  unfold rule_min_length. rewrite min_string.
  destruct (List.length s <? n)%nat; reflexivity.
Qed.

Lemma tags_issues (v : value) :
  issues_of (schema_tags v) = rule_optional_string v.
Proof. destruct v; reflexivity. Qed.

Lemma privacy_issues (v : value) :
  issues_of (schema_privacyStatus v) = rule_privacy v.
Proof.
  destruct v as [| |s|f]; try reflexivity.
  unfold schema_privacyStatus, z_enum_privacy, rule_privacy.
  destruct (jseqb s (js "public")); [reflexivity|].
  destruct (jseqb s (js "private")); [reflexivity|].
  destruct (jseqb s (js "unlisted")); reflexivity.
Qed.

Lemma publishAt_issues (v : value) :
  issues_of (schema_publishAt v) = rule_publishAt v.
Proof.
  destruct v as [| |s|f]; try reflexivity.
  destruct s as [|c s]; [reflexivity|].
  unfold schema_publishAt, transform, refine, optional, z_string, rule_publishAt.
  cbn [truthy]. destruct (new_Date (c :: s)); reflexivity.
Qed.

Lemma flag_issues (v : value) :
  issues_of (schema_flag v) = rule_optional_string v.
Proof. destruct v; reflexivity. Qed.

Lemma optional_string_issues (v : value) :
  issues_of (schema_optional_string v) = rule_optional_string v.
Proof. destruct v; reflexivity. Qed.

(** The issues the schema collects are the messages of the rules broken. *)
Lemma schema_issues_rules (formData : FormData) :
  schema_issues formData = violated_rules formData.
Proof.
  unfold schema_issues, violated_rules, schema_title, schema_description.
  rewrite !min_issues, tags_issues, privacy_issues, publishAt_issues,
    !flag_issues, !optional_string_issues.
  reflexivity.
Qed.

(** A value that breaks no rule of its key is accepted by the schema of
    the key. *)
Lemma min_passes (n : nat) (message : string) (v : value) :
  rule_min_length n message v = [] ->
  exists s, min n message z_string v = Valid s.
Proof.
  destruct v as [| |s|f]; try discriminate.
  unfold rule_min_length. rewrite min_string.
  destruct (List.length s <? n)%nat; [discriminate|]. eauto.
Qed.

Lemma optional_string_passes (v : value) :
  rule_optional_string v = [] ->
  (exists tags, schema_tags v = Valid tags)
  /\ (exists flag, schema_flag v = Valid flag)
  /\ (exists o, schema_optional_string v = Valid o).
Proof.
  destruct v as [| |s|f]; try discriminate; intros _;
    (split; [|split]); eexists; reflexivity.
Qed.

Lemma privacy_passes (v : value) :
  rule_privacy v = [] -> exists p, schema_privacyStatus v = Valid p.
Proof.
  destruct v as [| |s|f]; try discriminate.
  unfold schema_privacyStatus, z_enum_privacy, rule_privacy.
  destruct (jseqb s (js "public")); [eauto|].
  destruct (jseqb s (js "private")); [eauto|].
  destruct (jseqb s (js "unlisted")); [eauto|discriminate].
Qed.

Lemma publishAt_passes (v : value) :
  rule_publishAt v = [] -> exists p, schema_publishAt v = Valid p.
Proof.
  destruct v as [| |s|f]; try discriminate; [eexists; reflexivity|].
  destruct s as [|c s]; [eexists; reflexivity|].
  unfold schema_publishAt, transform, refine, optional, z_string, rule_publishAt.
  cbn [truthy]. destruct (new_Date (c :: s)); [eauto | discriminate].
Qed.

Lemma safeParse_passes (formData : FormData) :
  violated_rules formData = [] ->
  exists payload, safeParse formData = Valid payload.
Proof.
  unfold violated_rules. intros H.
  apply app_eq_nil in H. destruct H as [H1 H].
  apply app_eq_nil in H. destruct H as [H2 H].
  apply app_eq_nil in H. destruct H as [H3 H].
  apply app_eq_nil in H. destruct H as [H4 H].
  apply app_eq_nil in H. destruct H as [H5 H].
  apply app_eq_nil in H. destruct H as [H6 H].
  apply app_eq_nil in H. destruct H as [H7 H].
  apply app_eq_nil in H. destruct H as [H8 H9].
  destruct (min_passes _ _ _ H1) as [title E1].
  destruct (min_passes _ _ _ H2) as [description E2].
  destruct (optional_string_passes _ H3) as ([tags E3] & _ & _).
  destruct (privacy_passes _ H4) as [privacy E4].
  destruct (publishAt_passes _ H5) as [publishAt E5].
  destruct (optional_string_passes _ H6) as (_ & [kids E6] & _).
  destruct (optional_string_passes _ H7) as (_ & [notify E7] & _).
  destruct (optional_string_passes _ H8) as (_ & _ & [category E8]).
  destruct (optional_string_passes _ H9) as (_ & _ & [language E9]).
  unfold safeParse, schema_title, schema_description.
  rewrite E1, E2, E3, E4, E5, E6, E7, E8, E9. eexists. reflexivity.
Qed.

End Rules.

(** C2. A title of four units raises [Title is required.] and one of five
    passes; a description of nine raises [Description is required.] and one
    of ten passes. A request that passed the file checks and breaks a rule
    is answered 400 with, as its error, the messages of all the rules it
    breaks joined by a space, and the uploader is not called; one that
    breaks no rule goes on to the uploader. A request that fails a file
    check is answered 400 with the message of that check. *)
Theorem validator_bounds_and_joined_messages :
  forall (RT : Runtime) (EM : ZodErrorMap)
         (uploadShort : UploadArgs -> upload_outcome),
    (forall s, List.length s = 4%nat ->
       schema_title (VString s) = Invalid [js "Title is required."])
    /\ (forall s, List.length s = 5%nat -> schema_title (VString s) = Valid s)
    /\ (forall s, List.length s = 9%nat ->
          schema_description (VString s)
          = Invalid [js "Description is required."])
    /\ (forall s, List.length s = 10%nat ->
          schema_description (VString s) = Valid s)
    /\ (forall formData file,
          check_file formData = inr file ->
          violated_rules formData <> [] ->
          POST uploadShort (Multipart formData)
          = ({| status := 400;
                body := {| p_error :=
                             Some (join (js " ") (violated_rules formData));
                           p_videoId := None;
                           p_url := None |} |}, []))
    /\ (forall formData file,
          check_file formData = inr file ->
          violated_rules formData = [] ->
          exists args,
            snd (POST uploadShort (Multipart formData)) = [args]
            /\ status (fst (POST uploadShort (Multipart formData))) <> 400)
    /\ (forall formData response,
          check_file formData = inl response ->
          POST uploadShort (Multipart formData) = (response, [])
          /\ status response = 400
          /\ exists message,
               (message = js "Video file is required."
                \/ message = js "Video file is too large.")
               /\ body response
                  = {| p_error := Some message; p_videoId := None;
                       p_url := None |})
    /\ (forall formData file s,
          check_file formData = inr file ->
          get_value formData "title" = VString s ->
          List.length s = 4%nat ->
          exists others,
            POST uploadShort (Multipart formData)
            = ({| status := 400;
                  body := {| p_error :=
                               Some (join (js " ")
                                       (js "Title is required." :: others));
                             p_videoId := None;
                             p_url := None |} |}, []))
    /\ (forall formData file s,
          check_file formData = inr file ->
          get_value formData "description" = VString s ->
          List.length s = 9%nat ->
          exists before others,
            POST uploadShort (Multipart formData)
            = ({| status := 400;
                  body := {| p_error :=
                               Some (join (js " ")
                                       (before
                                        ++ js "Description is required."
                                           :: others));
                             p_videoId := None;
                             p_url := None |} |}, [])).
Proof.
  intros RT EM uploadShort.
  assert (Reject : forall formData file,
    check_file formData = inr file ->
    violated_rules formData <> [] ->
    POST uploadShort (Multipart formData)
    = ({| status := 400;
          body := {| p_error := Some (join (js " ") (violated_rules formData));
                     p_videoId := None; p_url := None |} |}, [])).
  { intros formData file Hfile Hne. rewrite <- schema_issues_rules in *.
    unfold POST, validate_and_upload. rewrite Hfile.
    destruct (safeParse_cases formData) as [[payload [_ Hnil]] | ->];
      [contradiction | reflexivity]. }
  split; [|split; [|split; [|split; [|split; [|split; [|split; [|split]]]]]]].
  - intros s H. unfold schema_title. rewrite min_string, H. reflexivity.
  - intros s H. unfold schema_title. rewrite min_string, H. reflexivity.
  - intros s H. unfold schema_description. rewrite min_string, H. reflexivity.
  - intros s H. unfold schema_description. rewrite min_string, H. reflexivity.
  - exact Reject.
  - intros formData file Hfile Hnil.
    destruct (safeParse_passes _ Hnil) as [payload Hparse].
    unfold POST, validate_and_upload. rewrite Hfile, Hparse.
    eexists. destruct (uploadShort _) as [videoId url | [message|]];
      (split; [reflexivity | discriminate]).
  - intros formData response Hfile.
    destruct (file_rejection_is_400 uploadShort _ Hfile) as [HP HS].
    split; [exact HP|]. split; [exact HS|].
    rewrite check_file_cases in Hfile.
    destruct (get formData (js "video")) as [[s | file]|];
      try (injection Hfile as <-; eexists; split; [left|]; reflexivity).
    destruct (_ <? _)%N; [|discriminate].
    injection Hfile as <-. eexists. split; [right|]; reflexivity.
  - intros formData file s Hfile Hget Hlen. eexists.
    rewrite (Reject _ _ Hfile); unfold violated_rules, rule_min_length;
      rewrite Hget, Hlen; [reflexivity | discriminate].
  - intros formData file s Hfile Hget Hlen. eexists. eexists.
    rewrite (Reject _ _ Hfile); unfold violated_rules;
      unfold rule_min_length at 2;
      rewrite Hget, Hlen; [reflexivity|].
    simpl. intros H. apply app_eq_nil in H. destruct H as [_ H]. discriminate.
Qed.

(** A title of four units and a description of nine: both messages, in
    the order of the keys; and a title of five passes. *)
Lemma validator_bounds_and_joined_messages_witness :
  post_sample (sample_body sample_file "Lift" "Nine char" EmptyString)
  = ({| status := 400;
        body := {| p_error :=
                     Some (js "Title is required. Description is required.");
                   p_videoId := None;
                   p_url := None |} |}, [])
  /\ @schema_title zod3_messages (VString (js "Lift!")) = Valid (js "Lift!").
Proof.
  destruct (validator_bounds_and_joined_messages utc_runtime zod3_messages
              upload_abc123) as (_ & H5 & _ & _ & Hjoin & _).
  split.
  - unfold post_sample.
    rewrite (Hjoin (sample_body sample_file "Lift" "Nine char" EmptyString)
                   sample_file);
      [vm_compute; reflexivity | vm_compute; reflexivity
      | vm_compute; discriminate].
  - apply H5. reflexivity.
Defined.




(** C4. On the server a [publishAt] that is a non-empty string and no date
    is a 400, and when the file checks pass the issue
    [Invalid publish date.] is among those joined; an empty [publishAt] is
    read as no schedule. On the client a date that does not parse resolves
    to no schedule and the request goes out without a [publishAt] field. *)
Theorem malformed_publishAt_on_both_sides :
  forall (RT : Runtime) (EM : ZodErrorMap)
         (uploadShort : UploadArgs -> upload_outcome),
    (forall formData v,
        get formData (js "publishAt") = Some (EString v) ->
        v <> [] -> new_Date v = None ->
        status (fst (POST uploadShort (Multipart formData))) = 400
        /\ snd (POST uploadShort (Multipart formData)) = []
        /\ (forall file, check_file formData = inr file ->
              In (js "Invalid publish date.") (schema_issues formData)
              /\ POST uploadShort (Multipart formData)
                 = (json_error (join (js " ") (schema_issues formData)) 400,
                    [])))
    /\ schema_publishAt (VString []) = Valid None
    /\ (forall st file,
          Form.file (form st) = Some file ->
          new_Date (timestamp_text (Form.scheduleDate (form st))
                                   (Form.scheduleTime (form st))) = None ->
          resolved st = None
          /\ snd (handleSubmit_begin st)
             = Some (request_body file None (form st))
          /\ get (request_body file None (form st)) (js "publishAt") = None).
Proof.
  intros RT EM uploadShort. split; [|split; [reflexivity|]].
  - intros formData v Hget Hv Hd.
    assert (I : In (js "Invalid publish date.") (schema_issues formData)).
    { assert (G : get_value formData "publishAt" = VString v)
        by (unfold get_value; rewrite Hget; reflexivity).
      unfold schema_issues. rewrite G, (publishAt_invalid Hv Hd).
      rewrite !in_app_iff. do 4 right. left. left. reflexivity. }
    assert (P : forall file, check_file formData = inr file ->
      POST uploadShort (Multipart formData)
      = (json_error (join (js " ") (schema_issues formData)) 400, [])).
    { intros file Hfile. unfold POST, validate_and_upload. rewrite Hfile.
      destruct (safeParse_cases formData) as [[payload [_ Hnil]] | ->];
        [rewrite Hnil in I; contradiction | reflexivity]. }
    destruct (check_file formData) as [response | file] eqn:Hfile.
    + destruct (file_rejection_is_400 uploadShort _ Hfile) as [-> E].
      simpl. split; [exact E|]. split; [reflexivity | discriminate].
    + rewrite (P file eq_refl). repeat split; auto.
  - intros st file Hfile Hd.
    assert (R : resolved st = None).
    { unfold resolved. rewrite buildPublishDate_cases.
      destruct (Form.scheduleDate (form st)); [reflexivity|].
      rewrite Hd. reflexivity. }
    split; [exact R|]. split.
    + rewrite (begin_sends _ Hfile (or_introl R)), R. reflexivity.
    + reflexivity.
Qed.

Lemma malformed_publishAt_on_both_sides_witness :
  status (fst (post_sample
                 (sample_body sample_file "Launch day" "Behind the scenes"
                              "not-a-date"))) = 400
  /\ snd (@handleSubmit_begin utc_runtime
            (setForm (sample_form public (js "not-a-date") [])
                     (initial_page None)))
     = Some (request_body sample_file None
               (sample_form public (js "not-a-date") [])).
Proof.
  destruct (malformed_publishAt_on_both_sides utc_runtime zod3_messages
              upload_abc123) as (Hserver & _ & Hclient).
  split.
  - apply (Hserver _ (js "not-a-date")); [reflexivity | discriminate |].
    vm_compute. reflexivity.
  - apply (Hclient (setForm (sample_form public (js "not-a-date") [])
                            (initial_page None)) sample_file);
      [reflexivity | vm_compute; reflexivity].
Defined.

(** A [publishAt] field that is present and empty is no date, and the
    request is accepted. *)
Lemma empty_publishAt_is_accepted :
  get (sample_body sample_file "Launch day" "Behind the scenes" EmptyString)
      (js "publishAt") = Some (EString [])
  /\ @new_Date utc_runtime [] = None
  /\ fst (post_sample
            (sample_body sample_file "Launch day" "Behind the scenes" EmptyString))
     = json_result (js "abc123") (js "https://youtu.be/abc123") 201.
Proof. repeat split; vm_compute; reflexivity. Qed.

(** C10. Every call of the uploader carries the file of the [video] field
    and, as its MIME type, [video/mp4] when the type of the file is empty
    and the type of the file otherwise. *)
Theorem mimeType_defaults_to_mp4 :
  forall (RT : Runtime) (EM : ZodErrorMap)
         (uploadShort : UploadArgs -> upload_outcome)
         (request : Request) (args : UploadArgs),
    In args (snd (POST uploadShort request)) ->
    exists formData file,
      request = Multipart formData
      /\ get formData (js "video") = Some (EFile file)
      /\ buffer args = file
      /\ (type file = [] -> mimeType args = js "video/mp4")
      /\ (type file <> [] -> mimeType args = type file).
Proof.
  intros RT EM uploadShort [e | formData] args; simpl; [contradiction|].
  rewrite check_file_cases.
  destruct (get formData (js "video")) as [[s | file]|] eqn:Hget;
    simpl; try contradiction.
  destruct (_ <? _)%N; simpl; [contradiction|].
  unfold validate_and_upload.
  destruct (safeParse formData) as [payload | issues]; simpl; [|contradiction].
  intros Hin. exists formData, file.
  assert (E : args = {| buffer := file; fileName := name file;
                        mimeType := or_else (type file) (js "video/mp4");
                        data := payload |}).
  { destruct (uploadShort _); simpl in Hin; destruct Hin as [<- | []];
      reflexivity. }
  subst args. simpl.
  split; [reflexivity|]. split; [exact Hget|]. split; [reflexivity|].
  split.
  - intros ->. reflexivity.
  - intros Hne. unfold or_else. apply truthy_nonempty in Hne.
    rewrite Hne. reflexivity.
Qed.

Definition untyped_file : File :=
  {| name := js "launch.mp4"; type := []; size := 1048576 |}.

Lemma mimeType_defaults_to_mp4_witness :
  List.map mimeType
    (snd (post_sample
            (sample_body untyped_file "Launch day" "Behind the scenes" EmptyString)))
  = [js "video/mp4"].
Proof.
  destruct (snd (post_sample
                   (sample_body untyped_file "Launch day" "Behind the scenes" EmptyString)))
    as [|args [|more rest]] eqn:E; try (vm_compute in E; discriminate E).
  destruct (@mimeType_defaults_to_mp4 utc_runtime zod3_messages upload_abc123
              (Multipart (sample_body untyped_file "Launch day"
                                      "Behind the scenes" EmptyString)) args)
    as (formData & file & Hreq & Hget & _ & Hempty & _).
  - unfold post_sample in E. rewrite E. left. reflexivity.
  - injection Hreq as <-. vm_compute in Hget. injection Hget as <-.
    simpl. rewrite Hempty; reflexivity.
Defined.

(** ** The page and the route together *)

(** The local checks decide whether a submission puts a request in
    flight. *)
Lemma submit_takes_flight (RT : Runtime) (s : Session) :
  uploading (page s) = false -> in_flight s = None ->
  in_flight (step s Submit)
  = match Form.file (form (page s)) with
    | Some _ =>
        if truthy_opt (resolved (page s))
           && is_public (Form.privacyStatus (form (page s)))
        then None
        else Some (Form.title (form (page s)))
    | None => None
    end.
Proof.
  intros Hu Hn. unfold step, handleSubmit_begin, resolved. rewrite Hu. simpl.
  destruct (Form.file (form (page s))); [|exact Hn].
  destruct (_ && _); [exact Hn | reflexivity].
Qed.

(** [resetForm] restores the first render except for the tags, which it
    empties where the first render shows the configured hashtags. *)
Lemma reset_values_and_first_render (hashtags : option jsstring) :
  form (initial_page hashtags) = reset_values
  <-> (hashtags = None \/ hashtags = Some []).
Proof.
  unfold initial_page, reset_values. simpl. split.
  - destruct hashtags as [h|]; [|auto].
    intros H. injection H as ->. auto.
  - intros [-> | ->]; reflexivity.
Qed.

(** *** The request on the wire

    [fetch] sends the [FormData] of the page as [multipart/form-data], and
    [request.formData()] reads it back in the route. On the way the browser
    turns a text value into a scalar value string, in which a surrogate
    without its pair is U+FFFD, and every line break of it into CR LF; a
    file goes under its type, or under [application/octet-stream] when its
    type is empty. The names of the page's fields are plain ASCII and
    arrive as they are. *)

Definition CR : N := 13.
Definition LF : N := 10.
Definition REPLACEMENT : N := 65533.

Definition is_high_surrogate (c : N) : bool := in_range 55296 56319 c.
Definition is_low_surrogate (c : N) : bool := in_range 56320 57343 c.

Definition low_surrogate_next (s : jsstring) : bool :=
  match s with c :: _ => is_low_surrogate c | [] => false end.

(** The scalar value string of a string, unit by unit; [after_high] tells
    that the unit before was a high surrogate. *)
Fixpoint scalar_values_from (after_high : bool) (s : jsstring) : jsstring :=
  match s with
  | [] => []
  | c :: rest =>
      if is_high_surrogate c then
        (if low_surrogate_next rest then c else REPLACEMENT)
        :: scalar_values_from true rest
      else if is_low_surrogate c then
        (if after_high then c else REPLACEMENT)
        :: scalar_values_from false rest
      else c :: scalar_values_from false rest
  end.

Definition toUSVString (s : jsstring) : jsstring := scalar_values_from false s.

(** Every CR not followed by LF and every LF not preceded by CR becomes
    CR LF; [after_cr] tells that the unit before was a CR, which has been
    written with its LF. *)
Fixpoint crlf_from (after_cr : bool) (s : jsstring) : jsstring :=
  match s with
  | [] => []
  | c :: rest =>
      if N.eqb c CR then CR :: LF :: crlf_from true rest
      else if N.eqb c LF then
        if after_cr then crlf_from false rest
        else CR :: LF :: crlf_from false rest
      else c :: crlf_from false rest
  end.

Definition crlf (s : jsstring) : jsstring := crlf_from false s.

(** A text value as the route reads it. *)
Definition wire_text (s : jsstring) : jsstring := crlf (toUSVString s).

(** The name of a file as the route reads it. The browser escapes line
    breaks and double quotes in the header of the part, and what the parser
    of the server makes of the header is not fixed by these sources. *)
Class Transport := {
  file_name_read : jsstring -> jsstring
}.

(** A parser that reads a name back as it was. *)
Definition plain_names : Transport := {| file_name_read := fun n => n |}.

Section Wire.
Context {TR : Transport}.

(** A file as the route reads it. *)
Definition wire_file (f : File) : File :=
  {| name := file_name_read (name f);
     type := or_else (type f) (js "application/octet-stream");
     size := size f |}.

Definition wire_entry (v : entry) : entry :=
  match v with
  | EString s => EString (wire_text s)
  | EFile f => EFile (wire_file f)
  end.

(** What [request.formData()] holds for the [FormData] given to [fetch]. *)
Definition multipart (formData : FormData) : FormData :=
  List.map (fun e => (fst e, wire_entry (snd e))) formData.

End Wire.

(** [fetch("/api/upload", { method: "POST", body })] answered by the
    handler. *)
Definition fetch_upload (RT : Runtime) (TR : Transport) (EM : ZodErrorMap)
    (uploadShort : UploadArgs -> upload_outcome) (formData : FormData)
  : fetch_outcome :=
  let response := fst (POST uploadShort (Multipart (multipart formData))) in
  FetchResolves (status response) (JsonResolves (body response)).

Definition settle_with_handler (s : Session) : Session :=
  match sent s with
  | request :: _ =>
      @step utc_runtime s
        (Settle (fetch_upload utc_runtime plain_names zod3_messages
                   upload_abc123 request))
  | [] => s
  end.

(** A scheduled private Short: planned, submitted, accepted with a 201, and
    its queue entry marked uploaded with the returned url. *)
Example scheduled_upload_round_trip :
  let s := settle_with_handler
             (@run utc_runtime None
                [ Edit (sample_form private (js "2024-05-01") (js "18:30"));
                  ClickAddToLaunchPlan (js "0.3lllllllllm");
                  Submit ]) in
  queue (page s)
  = [ {| QueueItem.id := js "3lllllll";
         QueueItem.title := js "Launch day";
         QueueItem.publishAt := Some (js "2024-05-01T18:30:00.000Z");
         QueueItem.status := uploaded;
         QueueItem.url := Some (js "https://youtu.be/abc123") |} ]
  /\ error (page s) = None
  /\ form (page s) = reset_values.
Proof. vm_compute. repeat split. Qed.

(** A failing uploader: the handler answers 500 with the message of the
    failure, the page shows it, and the queue and the form are as before. *)
Example provider_failure_round_trip :
  let before :=
    @run utc_runtime None
      [ Edit (sample_form private (js "2024-05-01") (js "18:30"));
        ClickAddToLaunchPlan (js "0.3lllllllllm");
        Submit ] in
  let outcome :=
    fetch_upload utc_runtime plain_names zod3_messages
      (fun _ => UploadRejects (ThrownError (js "quotaExceeded")))
      (request_body sample_file (Some (js "2024-05-01T18:30:00.000Z"))
         (sample_form private (js "2024-05-01") (js "18:30"))) in
  let after := @step utc_runtime before (Settle outcome) in
  outcome
  = FetchResolves 500
      (JsonResolves {| p_error := Some (js "quotaExceeded");
                       p_videoId := None; p_url := None |})
  /\ error (page after) = Some (js "quotaExceeded")
  /\ queue (page after) = queue (page before)
  /\ form (page after) = form (page before).
Proof. vm_compute. repeat split. Qed.

(** The page omits [publishAt] when there is no schedule; the handler then
    reads [null] for it, which [z.string().optional()] does not take. *)
Example unscheduled_request_is_rejected :
  fetch_upload utc_runtime plain_names zod3_messages upload_abc123
    (request_body sample_file None (sample_form private [] []))
  = FetchResolves 400
      (JsonResolves {| p_error := Some (js "Expected string, received null");
                       p_videoId := None; p_url := None |}).
Proof. vm_compute. reflexivity. Qed.

(** A file without a type arrives as [application/octet-stream], and a line
    break in the description as CR LF. *)
Example untyped_file_on_the_wire :
  @multipart plain_names
    [ (js "video", EFile {| name := js "launch.mp4"; type := []; size := 7 |});
      (js "description", EString [76; 10; 97]%N) ]
  = [ (js "video",
       EFile {| name := js "launch.mp4";
                type := js "application/octet-stream"; size := 7 |});
      (js "description", EString [76; 13; 10; 97]%N) ].
Proof. vm_compute. reflexivity. Qed.

(** A title of five units with a description of ten is accepted. *)
Example five_and_ten_are_accepted :
  fst (post_sample (sample_body sample_file "Lift!" "Ten chars!" EmptyString))
  = json_result (js "abc123") (js "https://youtu.be/abc123") 201.
Proof. vm_compute. reflexivity. Qed.


(** * Further properties of the code *)

(** ** Splitting and the tokens of the suggester *)

Definition no_space (s : jsstring) : Prop :=
  Forall (fun c => is_space c = false) s.

(** A piece of [split(/\s+/)] holds no white space, and only units of the
    string. *)
Lemma split_ws_from_pieces (s cur : jsstring) (in_run : bool) (piece : jsstring) :
  no_space cur ->
  In piece (split_ws_from cur in_run s) ->
  Forall (fun c => is_space c = false /\ (In c cur \/ In c s)) piece.
Proof.
  revert cur in_run; induction s as [|c s IH]; intros cur in_run Hcur; simpl.
  - intros [<- | []]. apply Forall_forall. intros x Hx.
    apply in_rev in Hx. split; [|left; exact Hx].
    unfold no_space in Hcur. rewrite Forall_forall in Hcur. apply Hcur, Hx.
  - destruct (is_space c) eqn:Hc.
    + assert (Hrest : forall cur' run',
                no_space cur' -> (forall x, In x cur' -> In x cur) ->
                In piece (split_ws_from cur' run' s) ->
                Forall (fun x => is_space x = false /\ (In x cur \/ In x (c :: s)))
                       piece).
      { intros cur' run' Hn Hsub Hin. specialize (IH cur' run' Hn Hin).
        rewrite Forall_forall in *. intros x Hx.
        destruct (IH x Hx) as [Hs [H | H]]; split; auto.
        right. right. exact H. }
      destruct in_run.
      * apply Hrest; auto.
      * intros [<- | Hin].
        -- apply Forall_forall. intros x Hx. apply in_rev in Hx.
           split; [|left; exact Hx].
           unfold no_space in Hcur. rewrite Forall_forall in Hcur.
           apply Hcur, Hx.
        -- apply (Hrest [] true); [constructor | intros x [] | exact Hin].
    + intros Hin.
      assert (Hn : no_space (c :: cur)) by (constructor; assumption).
      specialize (IH (c :: cur) false Hn Hin).
      rewrite Forall_forall in *. intros x Hx.
      destruct (IH x Hx) as [Hs [[<- | H] | H]]; split; simpl; auto.
Qed.

Lemma split_ws_pieces (s piece : jsstring) :
  In piece (split_ws s) ->
  Forall (fun c => is_space c = false /\ In c s) piece.
Proof.
  intros H. apply split_ws_from_pieces in H; [|constructor].
  rewrite Forall_forall in *. intros x Hx.
  destruct (H x Hx) as [Hs [[] | Hin]]. auto.
Qed.

Definition alnum (c : N) : bool := is_lower c || is_digit c.

Lemma blank_non_alnum_units (s : jsstring) (c : N) :
  In c (blank_non_alnum s) -> alnum c = true \/ is_space c = true.
Proof.
  unfold blank_non_alnum. rewrite in_map_iff. intros [x [<- _]].
  unfold alnum.
  destruct (is_lower x || is_digit x || is_space x) eqn:E.
  - apply orb_true_iff in E. tauto.
  - right. reflexivity.
Qed.

Lemma keep_alnum_fixes (w : jsstring) :
  Forall (fun c => alnum c = true) w -> keep_alnum w = w.
Proof.
  unfold keep_alnum, alnum. induction 1 as [|c w Hc _ IH]; simpl;
    [reflexivity|]. rewrite Hc, IH. reflexivity.
Qed.

Section TokenFacts.
Context {RT : Runtime}.

(** A token is a word of at least four units from [a-z0-9] outside the
    skip list, whatever lower-casing does. *)
Lemma hashtag_token_shape (title description tags w : jsstring) :
  In w (hashtag_tokens title description tags) ->
  (4 <= List.length w)%nat
  /\ Forall (fun c => alnum c = true) w
  /\ ~ In w COMMON_SKIP.
Proof.
  unfold hashtag_tokens. rewrite filter_In. intros [Hin Hf].
  apply andb_true_iff in Hf. destruct Hf as [Hlen Hskip].
  apply Nat.ltb_lt in Hlen. split; [lia|]. split.
  - apply split_ws_pieces in Hin. rewrite Forall_forall in *.
    intros c Hc. destruct (Hin c Hc) as [Hs Hb].
    apply blank_non_alnum_units in Hb. destruct Hb; congruence.
  - intros H. apply seen_iff in H. rewrite H in Hskip. discriminate.
Qed.

End TokenFacts.


(** ** The histogram and the ranking *)

From Stdlib Require Import Permutation Sorted.

(** [histogram.get(k) ?? 0] *)
Fixpoint histogram_get (k : jsstring) (h : list (jsstring * N)) : N :=
  match h with
  | [] => 0%N
  | (k', n) :: h' => if jseqb k' k then n else histogram_get k h'
  end.

(** How often [k] occurs among the tokens. *)
Definition occurrences (k : jsstring) (tokens : list jsstring) : N :=
  N.of_nat (List.length (filter (jseqb k) tokens)).

Lemma jseqb_sym (a b : jsstring) : jseqb a b = jseqb b a.
Proof.
  destruct (jseqb a b) eqn:E.
  - apply jseqb_eq in E. subst. symmetry. apply jseqb_refl.
  - apply jseqb_neq in E. symmetry. apply jseqb_neq. congruence.
Qed.

Lemma dedupe_from_ext (xs seen seen' : list jsstring) :
  (forall x, In x seen <-> In x seen') ->
  dedupe_from seen xs = dedupe_from seen' xs.
Proof.
  revert seen seen'; induction xs as [|y xs IH]; intros seen seen' H; simpl;
    [reflexivity|].
  assert (E : existsb (jseqb y) seen = existsb (jseqb y) seen').
  { destruct (existsb (jseqb y) seen) eqn:A; symmetry.
    - apply seen_iff. apply H. apply seen_iff. exact A.
    - destruct (existsb (jseqb y) seen') eqn:B; [|reflexivity].
      apply seen_iff, H, seen_iff in B. congruence. }
  rewrite E. destruct (existsb (jseqb y) seen'); [apply IH, H|].
  f_equal. apply IH. intros x. simpl. rewrite H. tauto.
Qed.

Lemma histogram_bump_keys (t : jsstring) (h : list (jsstring * N)) :
  List.map fst (histogram_bump t h)
  = if existsb (jseqb t) (List.map fst h) then List.map fst h
    else List.map fst h ++ [t].
Proof.
  induction h as [|[k n] h IH]; simpl; [reflexivity|].
  rewrite (jseqb_sym t k). destruct (jseqb k t); simpl; [reflexivity|].
  rewrite IH. destruct (existsb _ _); reflexivity.
Qed.

Lemma histogram_bump_get (t k : jsstring) (h : list (jsstring * N)) :
  histogram_get k (histogram_bump t h)
  = (histogram_get k h + if jseqb t k then 1 else 0)%N.
Proof.
  induction h as [|[k' n] h IH]; simpl.
  - destruct (jseqb t k); reflexivity.
  - destruct (jseqb k' t) eqn:E; simpl.
    + apply jseqb_eq in E. subst k'. destruct (jseqb t k); [reflexivity|].
      rewrite N.add_0_r. reflexivity.
    + destruct (jseqb k' k) eqn:F; [|exact IH].
      apply jseqb_eq in F. subst k'. rewrite (jseqb_sym t k), E.
      rewrite N.add_0_r. reflexivity.
Qed.

Lemma histogram_fold (tokens : list jsstring) (h : list (jsstring * N)) :
  List.map fst (fold_left (fun h t => histogram_bump t h) tokens h)
  = List.map fst h ++ dedupe_from (List.map fst h) tokens
  /\ forall k,
       histogram_get k (fold_left (fun h t => histogram_bump t h) tokens h)
       = (histogram_get k h + occurrences k tokens)%N.
Proof.
  revert h; induction tokens as [|t tokens IH]; intros h; simpl.
  - split; [rewrite app_nil_r; reflexivity|].
    intros k. unfold occurrences. simpl. rewrite N.add_0_r. reflexivity.
  - destruct (IH (histogram_bump t h)) as [Hk Hg]. split.
    + rewrite Hk, histogram_bump_keys.
      destruct (existsb (jseqb t) (List.map fst h)); [reflexivity|].
      rewrite <- app_assoc. simpl. do 2 f_equal.
      apply dedupe_from_ext. intros x. rewrite in_app_iff. simpl. tauto.
    + intros k. rewrite Hg, histogram_bump_get. unfold occurrences. simpl.
      rewrite (jseqb_sym k t). destruct (jseqb t k); simpl List.length;
        lia.
Qed.

Lemma histogram_get_In (h : list (jsstring * N)) (k : jsstring) (n : N) :
  NoDup (List.map fst h) ->
  In (k, n) h <-> In k (List.map fst h) /\ n = histogram_get k h.
Proof.
  induction h as [|[k' n'] h IH]; simpl; intros ND; [tauto|].
  inversion ND as [|? ? Hnot ND']; subst. specialize (IH ND').
  destruct (jseqb k' k) eqn:E.
  - apply jseqb_eq in E. subst k'. split.
    + intros [H | H]; [injection H as ->; auto|].
      exfalso. apply Hnot. apply (in_map fst) in H. exact H.
    + intros [_ ->]. left. reflexivity.
  - apply jseqb_neq in E. split.
    + intros [H | H]; [injection H as -> ->; contradiction|].
      apply IH in H. tauto.
    + intros [[H | H] Hn]; [contradiction|]. right. apply IH. tauto.
Qed.

Lemma histogram_keys (tokens : list jsstring) :
  List.map fst (histogram_of tokens) = dedupe tokens.
Proof. exact (proj1 (histogram_fold tokens [])). Qed.

Lemma histogram_keys_tokens (tokens : list jsstring) (e : jsstring * N) :
  In e (histogram_of tokens) -> In (fst e) tokens.
Proof.
  intros H. apply (in_map fst) in H. rewrite histogram_keys in H.
  apply dedupe_from_spec in H. tauto.
Qed.

(** X1. The histogram lists the distinct tokens in the order in which they
    first occur, each once, with the number of its occurrences. *)
Theorem histogram_counts_first_seen :
  forall tokens : list jsstring,
    List.map fst (histogram_of tokens) = dedupe tokens
    /\ NoDup (List.map fst (histogram_of tokens))
    /\ (forall k n,
          In (k, n) (histogram_of tokens)
          <-> In k tokens /\ n = occurrences k tokens).
Proof.
  intros tokens. pose proof (histogram_keys tokens) as Hk.
  destruct (histogram_fold tokens []) as [_ Hg]. fold (histogram_of tokens) in Hg.
  simpl in Hg.
  assert (ND : NoDup (List.map fst (histogram_of tokens)))
    by (rewrite Hk; apply dedupe_from_spec).
  split; [exact Hk|]. split; [exact ND|].
  intros k n. rewrite (histogram_get_In _ k n ND), Hk, Hg.
  destruct (dedupe_from_spec tokens []) as [_ M]. unfold dedupe. rewrite M.
  simpl. tauto.
Qed.

(** The order of the ranking: a larger count first. *)
Definition count_ge (a b : jsstring * N) : Prop := (snd b <= snd a)%N.

Lemma sort_snoc (entries : list (jsstring * N)) (x : jsstring * N) :
  sort_by_count_desc (entries ++ [x])
  = insert_by_count x (sort_by_count_desc entries).
Proof. unfold sort_by_count_desc. rewrite fold_left_app. reflexivity. Qed.

Lemma insert_by_count_perm (x : jsstring * N) (l : list (jsstring * N)) :
  Permutation (insert_by_count x l) (x :: l).
Proof.
  induction l as [|y l IH]; simpl; [reflexivity|].
  destruct (snd y <? snd x)%N; [reflexivity|].
  rewrite IH. apply perm_swap.
Qed.

Lemma insert_by_count_sorted (x : jsstring * N) (l : list (jsstring * N)) :
  StronglySorted count_ge l -> StronglySorted count_ge (insert_by_count x l).
Proof.
  induction 1 as [|y l Hs IH Hy]; simpl.
  - constructor; constructor.
  - destruct (N.ltb_spec (snd y) (snd x)) as [Hlt | Hge].
    + constructor; [constructor; assumption|].
      constructor; [unfold count_ge; lia|].
      rewrite Forall_forall in *. intros z Hz. specialize (Hy z Hz).
      unfold count_ge in *. lia.
    + constructor; [exact IH|].
      rewrite Forall_forall in *. intros z Hz.
      apply (Permutation_in _ (insert_by_count_perm x l)) in Hz.
      destruct Hz as [<- | Hz]; [exact Hge | apply Hy, Hz].
Qed.

Definition with_count (n : N) (e : jsstring * N) : bool := (snd e =? n)%N.

Lemma filter_none {A} (f : A -> bool) (l : list A) :
  (forall x, In x l -> f x = false) -> filter f l = [].
Proof.
  induction l as [|y l IH]; simpl; intros H; [reflexivity|].
  rewrite (H y) by (left; reflexivity). apply IH. intros x Hx. apply H.
  right. exact Hx.
Qed.

Lemma insert_by_count_stable (n : N) (x : jsstring * N)
    (l : list (jsstring * N)) :
  StronglySorted count_ge l ->
  filter (with_count n) (insert_by_count x l)
  = filter (with_count n) l ++ filter (with_count n) [x].
Proof.
  induction 1 as [|y l Hs IH Hy]; [reflexivity|].
  cbn [insert_by_count].
  destruct (N.ltb_spec (snd y) (snd x)) as [Hlt | Hge].
  - change (x :: y :: l) with ([x] ++ y :: l). rewrite filter_app.
    cbn [filter]. destruct (with_count n x) eqn:E.
    + assert (Z : filter (with_count n) (y :: l) = []).
      { unfold with_count in E. apply N.eqb_eq in E.
        apply filter_none. intros z [<- | Hz]; unfold with_count;
          apply N.eqb_neq; [lia|].
        rewrite Forall_forall in Hy. specialize (Hy z Hz).
        unfold count_ge in Hy. lia. }
      cbn [filter] in Z. rewrite Z. reflexivity.
    + rewrite app_nil_r. reflexivity.
  - cbn [filter]. rewrite IH. destruct (with_count n y); reflexivity.
Qed.

Lemma sort_by_count_desc_perm (entries : list (jsstring * N)) :
  Permutation (sort_by_count_desc entries) entries.
Proof.
  induction entries as [|x entries IH] using rev_ind; [reflexivity|].
  rewrite sort_snoc, insert_by_count_perm, IH. apply Permutation_cons_append.
Qed.

Lemma sort_by_count_desc_sorted (entries : list (jsstring * N)) :
  StronglySorted count_ge (sort_by_count_desc entries).
Proof.
  induction entries as [|x entries IH] using rev_ind; [constructor|].
  rewrite sort_snoc. apply insert_by_count_sorted, IH.
Qed.

(** An entry of the histogram is a token with the number of its
    occurrences. *)
Lemma histogram_entry (tokens : list jsstring) (k : jsstring) (n : N) :
  In (k, n) (histogram_of tokens) ->
  In k tokens /\ n = occurrences k tokens.
Proof.
  intros H. split; [apply (histogram_keys_tokens tokens (k, n) H)|].
  assert (ND : NoDup (List.map fst (histogram_of tokens)))
    by (rewrite histogram_keys; apply dedupe_from_spec).
  apply (histogram_get_In _ k n ND) in H. destruct H as [_ ->].
  destruct (histogram_fold tokens []) as [_ Hg]. apply Hg.
Qed.

(** X2. The ranking is a rearrangement of the histogram with counts in
    descending order, and it is stable: the entries of any one count keep
    the order they had. *)
Theorem ranking_is_a_stable_descending_sort :
  forall entries : list (jsstring * N),
    Permutation (sort_by_count_desc entries) entries
    /\ StronglySorted count_ge (sort_by_count_desc entries)
    /\ (forall n,
          filter (with_count n) (sort_by_count_desc entries)
          = filter (with_count n) entries).
Proof.
  intros entries. split; [apply sort_by_count_desc_perm|].
  split; [apply sort_by_count_desc_sorted|].
  induction entries as [|x entries IH] using rev_ind; intros n;
    [reflexivity|].
  rewrite sort_snoc.
  rewrite (insert_by_count_stable n x (sort_by_count_desc_sorted entries)).
  rewrite IH, filter_app. reflexivity.
Qed.


(** ** What the suggester returns *)

Lemma map_fst_firstn {A B} (n : nat) (l : list (A * B)) :
  List.map fst (firstn n l) = firstn n (List.map fst l).
Proof.
  revert l; induction n as [|n IH]; intros [|x l]; simpl; try reflexivity.
  rewrite IH. reflexivity.
Qed.

Lemma NoDup_map_cons {A} (a : A) (l : list (list A)) :
  NoDup l -> NoDup (List.map (cons a) l).
Proof.
  induction 1 as [|x l Hx _ IH]; simpl; constructor; [|exact IH].
  rewrite in_map_iff. intros [y [E Hy]]. injection E as ->. contradiction.
Qed.

(** A list without repetition and with nothing seen before goes through
    the set unchanged. *)
Lemma dedupe_from_fresh (xs seen : list jsstring) :
  NoDup xs -> (forall x, In x xs -> ~ In x seen) ->
  dedupe_from seen xs = xs.
Proof.
  intros ND; revert seen; induction ND as [|y xs Hy _ IH]; intros seen Hf;
    simpl; [reflexivity|].
  destruct (existsb (jseqb y) seen) eqn:E.
  - apply seen_iff in E. exfalso. apply (Hf y); [left; reflexivity | exact E].
  - f_equal. apply IH. intros x Hx [<- | Hs]; [contradiction|].
    apply (Hf x); [right; exact Hx | exact Hs].
Qed.

Definition tag_unit (c : N) : bool :=
  is_lower c || is_digit c || N.eqb c UNDERSCORE.

Section SuggesterFacts.
Context {RT : Runtime}.

(** The ranked entries are [#] and a token, for distinct tokens. *)
Lemma ranked_hashtags_tokens (title description tags : jsstring) :
  exists words,
    ranked_hashtags title description tags = List.map (cons HASH) words
    /\ NoDup words
    /\ (List.length words <= 5)%nat
    /\ (forall w, In w words -> In w (hashtag_tokens title description tags)).
Proof.
  unfold ranked_hashtags.
  set (tokens := hashtag_tokens title description tags).
  set (top := slice 0 5 (sort_by_count_desc (histogram_of tokens))).
  assert (ND : NoDup (List.map fst (histogram_of tokens)))
    by (rewrite histogram_keys; apply dedupe_from_spec).
  pose proof (sort_by_count_desc_perm (histogram_of tokens)) as P.
  assert (Htop : forall e, In e top -> In (fst e) tokens).
  { intros e He. unfold top in He. rewrite slice_from_start in He.
    apply In_firstn in He. apply (Permutation_in _ P) in He.
    apply histogram_keys_tokens, He. }
  exists (List.map fst top). split; [|split; [|split]].
  - rewrite map_map. apply map_ext_in. intros e He. f_equal.
    apply keep_alnum_fixes.
    apply (hashtag_token_shape title description tags), Htop, He.
  - unfold top. rewrite slice_from_start, map_fst_firstn.
    apply NoDup_firstn.
    apply (Permutation_NoDup (l := List.map fst (histogram_of tokens)));
      [|exact ND].
    apply Permutation_map. symmetry. exact P.
  - rewrite length_map. apply (slice_length 0 5).
  - intros w Hw. apply in_map_iff in Hw. destruct Hw as [e [<- He]].
    apply Htop, He.
Qed.

Lemma extractHashtags_units (input x : jsstring) :
  In x (extractHashtags input) ->
  x <> [] /\ Forall (fun c => tag_unit c = true) x.
Proof.
  unfold extractHashtags. rewrite filter_In, in_map_iff.
  intros [[tag [<- _]] Hne]. split; [apply truthy_nonempty, Hne|].
  apply Forall_forall. intros c Hc. unfold keep_tag_chars in Hc.
  apply filter_In in Hc. exact (proj2 Hc).
Qed.

End SuggesterFacts.

(** X3. The suggestions are the distinct hashtags of the description, at
    most three, followed by all the ranked ones, at most five: the set
    never merges a ranked entry and the cut at eight never removes one. So
    there are at most eight, all different. *)
Theorem generateHashtags_is_inline_then_ranked :
  forall (RT : Runtime) (title description tags : jsstring),
    generateHashtags title description tags
    = dedupe (slice 0 3 (extractHashtags description))
      ++ ranked_hashtags title description tags
    /\ (List.length (dedupe (slice 0 3 (extractHashtags description))) <= 3)%nat
    /\ (List.length (ranked_hashtags title description tags) <= 5)%nat
    /\ (List.length (generateHashtags title description tags) <= 8)%nat
    /\ NoDup (generateHashtags title description tags).
Proof.
  intros RT title description tags.
  set (inline := slice 0 3 (extractHashtags description)).
  destruct (ranked_hashtags_tokens title description tags)
    as (words & Hr & ND & Hlen & _).
  assert (Li : (List.length (dedupe inline) <= 3)%nat).
  { pose proof (dedupe_from_length inline []).
    pose proof (slice_length 0 3 (extractHashtags description)).
    fold inline in H0. unfold dedupe. lia. }
  assert (Lr : (List.length (ranked_hashtags title description tags) <= 5)%nat)
    by (rewrite Hr, length_map; exact Hlen).
  assert (E : generateHashtags title description tags
              = dedupe inline ++ ranked_hashtags title description tags).
  { unfold generateHashtags. fold inline. unfold dedupe.
    rewrite dedupe_from_app, slice_from_start.
    rewrite (dedupe_from_fresh (xs := ranked_hashtags title description tags)).
    - apply firstn_all2. rewrite length_app. unfold dedupe in Li. lia.
    - rewrite Hr. apply NoDup_map_cons, ND.
    - intros x Hx Hs. rewrite app_nil_r in Hs. apply in_rev in Hs.
      apply dedupe_from_spec in Hs. destruct Hs as [Hs _].
      unfold inline in Hs. rewrite slice_from_start in Hs.
      apply In_firstn in Hs.
      apply extracted_lacks_hash in Hs.
      apply ranked_starts_with_hash in Hx. destruct Hs. congruence. }
  split; [exact E|]. split; [exact Li|]. split; [exact Lr|]. split.
  - rewrite E, length_app. lia.
  - unfold generateHashtags. rewrite slice_from_start.
    apply NoDup_firstn, dedupe_from_spec.
Qed.

(** X4. A ranked suggestion is [#] followed by a word of at least four
    units, all from [a-z0-9], that is not in the skip list; there are at
    most five and no two are equal. *)
Theorem ranked_hashtags_are_hashed_words :
  forall (RT : Runtime) (title description tags : jsstring),
    (List.length (ranked_hashtags title description tags) <= 5)%nat
    /\ NoDup (ranked_hashtags title description tags)
    /\ (forall x,
          In x (ranked_hashtags title description tags) ->
          exists w,
            x = HASH :: w
            /\ (4 <= List.length w)%nat
            /\ Forall (fun c => alnum c = true) w
            /\ ~ In w COMMON_SKIP).
Proof.
  intros RT title description tags.
  destruct (ranked_hashtags_tokens title description tags)
    as (words & Hr & ND & Hlen & Htok).
  rewrite Hr. split; [rewrite length_map; exact Hlen|].
  split; [apply NoDup_map_cons, ND|].
  intros x Hx. apply in_map_iff in Hx. destruct Hx as [w [<- Hw]].
  exists w. split; [reflexivity|].
  apply (hashtag_token_shape title description tags), Htok, Hw.
Qed.

(** X5. A hashtag taken from a text is not empty and holds only units
    from [a-z0-9_]: the [#] it was found by is removed with every other
    unit outside that class. *)
Theorem extractHashtags_are_bare_words :
  forall (RT : Runtime) (input x : jsstring),
    In x (extractHashtags input) ->
    x <> []
    /\ Forall (fun c => tag_unit c = true) x
    /\ ~ In HASH x.
Proof.
  intros RT input x Hx. destruct (extractHashtags_units _ _ Hx) as [Hne Hu].
  split; [exact Hne|]. split; [exact Hu|].
  intros Hin. rewrite Forall_forall in Hu. specialize (Hu _ Hin).
  discriminate Hu.
Qed.

Lemma extractHashtags_are_bare_words_witness :
  js "great" <> []
  /\ Forall (fun c => tag_unit c = true) (js "great")
  /\ ~ In HASH (js "great").
Proof.
  apply (@extractHashtags_are_bare_words utc_runtime
           (js "Cats are #Great fun") (js "great")).
  vm_compute. left. reflexivity.
Defined.


(** ** The launch queue over a session *)

(** What every entry of the queue satisfies. *)
Definition entry_ok (item : QueueItem.t) : Prop :=
  QueueItem.title item <> []
  /\ QueueItem.status item <> ready
  /\ (QueueItem.status item = draft ->
      QueueItem.publishAt item = None /\ QueueItem.url item = None)
  /\ (QueueItem.status item = scheduled ->
      QueueItem.publishAt item <> None /\ QueueItem.url item = None)
  /\ QueueItem.publishAt item <> Some [].

(** What identifies an entry and never changes. *)
Definition entry_key (item : QueueItem.t)
  : jsstring * jsstring * option jsstring :=
  (QueueItem.id item, QueueItem.title item, QueueItem.publishAt item).

(** The clicks on [Add to Launch Plan] among the actions. *)
Definition additions (actions : list Action) : nat := List.length (draws actions).

Section QueueFacts.
Context {RT : Runtime}.

(** The entry [addToQueue] appends. *)
Definition new_entry (draw : jsstring) (st : Page) : QueueItem.t :=
  {| QueueItem.id := randomId draw;
     QueueItem.title := or_else (Form.title (form st)) (js "Untitled Short");
     QueueItem.publishAt := resolved st;
     QueueItem.status := if truthy_opt (resolved st) then scheduled else draft;
     QueueItem.url := None |}.

Lemma addToQueue_queue (draw : jsstring) (st : Page) :
  queue (addToQueue draw st) = queue st ++ [new_entry draw st].
Proof. reflexivity. Qed.

Lemma new_entry_ok (draw : jsstring) (st : Page) : entry_ok (new_entry draw st).
Proof.
  unfold entry_ok, new_entry. simpl.
  split; [apply or_else_nonempty; discriminate|].
  destruct (resolved st) as [ts|] eqn:E; simpl.
  - pose proof (buildPublishDate_truthy _ _ E) as T. rewrite T.
    repeat split; try discriminate.
    intros H. injection H as ->. discriminate T.
  - repeat split; try discriminate.
Qed.

Lemma mark_uploaded_ok (title : jsstring) (data : Payload) (item : QueueItem.t) :
  entry_ok item -> entry_ok (mark_uploaded title data item).
Proof.
  intros H. unfold mark_uploaded. destruct (_ && _); [|exact H].
  destruct H as (Ht & _ & _ & _ & Hp). unfold entry_ok. simpl.
  repeat split; try discriminate; assumption.
Qed.

Lemma mark_uploaded_key (title : jsstring) (data : Payload) (item : QueueItem.t) :
  entry_key (mark_uploaded title data item) = entry_key item.
Proof. unfold mark_uploaded. destruct (_ && _); reflexivity. Qed.

(** An entry that has a url is left alone. *)
Lemma mark_uploaded_done (title : jsstring) (data : Payload) (item : QueueItem.t) :
  truthy_opt (QueueItem.url item) = true -> mark_uploaded title data item = item.
Proof. intros H. unfold mark_uploaded. rewrite H. reflexivity. Qed.

(** The queue after the handler has settled. *)
Lemma end_queue (title : jsstring) (outcome : fetch_outcome) (st : Page) :
  queue (handleSubmit_end title outcome st) = queue st
  \/ exists data,
       queue (handleSubmit_end title outcome st)
       = List.map (mark_uploaded title data) (queue st).
Proof.
  assert (F : forall e, queue (submit_failed e st) = queue st)
    by (intros []; reflexivity).
  unfold handleSubmit_end.
  destruct outcome as [e | status [e | data]]; rewrite ?F; auto;
    destruct (negb (ok status)); rewrite ?F; auto.
  right. exists data. reflexivity.
Qed.

(** The queue after one action. *)
Lemma step_queue (s : Session) (a : Action) :
  (exists draw, a = ClickAddToLaunchPlan draw
                /\ queue (page (step s a))
                   = queue (page s) ++ [new_entry draw (page s)])
  \/ (draws [a] = []
      /\ (queue (page (step s a)) = queue (page s)
          \/ exists title data,
               queue (page (step s a))
               = List.map (mark_uploaded title data) (queue (page s)))).
Proof.
  destruct a as [f | | draw | | outcome]; simpl.
  - right. auto.
  - right. auto.
  - left. exists draw. auto.
  - right. split; [reflexivity|]. left.
    destruct (uploading (page s)); [reflexivity|].
    pose proof (begin_queue (page s)) as Q.
    destruct (handleSubmit_begin (page s)) as [st' [request|]]; exact Q.
  - right. split; [reflexivity|].
    destruct (in_flight s) as [title|]; [|auto]. simpl.
    destruct (end_queue title outcome (page s)) as [E | [data E]];
      [left; exact E | right; exists title, data; exact E].
Qed.

Lemma step_entries_ok (s : Session) (a : Action) :
  Forall entry_ok (queue (page s)) ->
  Forall entry_ok (queue (page (step s a))).
Proof.
  intros H.
  destruct (step_queue s a) as [[draw [_ ->]] | [_ [-> | [title [data ->]]]]].
  - apply Forall_app. split; [exact H|].
    constructor; [apply new_entry_ok | constructor].
  - exact H.
  - rewrite Forall_forall in *. intros item Hin.
    apply in_map_iff in Hin. destruct Hin as [old [<- Hold]].
    apply mark_uploaded_ok, H, Hold.
Qed.

Lemma step_keys (s : Session) (a : Action) :
  exists added,
    List.map entry_key (queue (page (step s a)))
    = List.map entry_key (queue (page s)) ++ added
    /\ List.length added = additions [a].
Proof.
  destruct (step_queue s a)
    as [[draw [-> ->]] | [Hd [-> | [title [data ->]]]]].
  - exists [entry_key (new_entry draw (page s))].
    rewrite map_app. auto.
  - exists []. rewrite app_nil_r. unfold additions. rewrite Hd. auto.
  - exists []. rewrite app_nil_r, map_map. unfold additions. rewrite Hd.
    split; [|reflexivity]. apply map_ext. apply mark_uploaded_key.
Qed.

Lemma additions_cons (a : Action) (actions : list Action) :
  additions (a :: actions) = (additions [a] + additions actions)%nat.
Proof. unfold additions. destruct a; reflexivity. Qed.

Lemma fold_keys (actions : list Action) (s : Session) :
  exists added,
    List.map entry_key (queue (page (fold_left step actions s)))
    = List.map entry_key (queue (page s)) ++ added
    /\ List.length added = additions actions.
Proof.
  revert s; induction actions as [|a actions IH]; intros s; simpl.
  - exists []. rewrite app_nil_r. auto.
  - destruct (IH (step s a)) as (more & E & L).
    destruct (step_keys s a) as (one & E1 & L1).
    exists (one ++ more). rewrite E, E1, <- app_assoc.
    split; [reflexivity|]. rewrite length_app, additions_cons. lia.
Qed.

Lemma step_keeps_uploaded (s : Session) (a : Action) (i : nat)
    (item : QueueItem.t) :
  nth_error (queue (page s)) i = Some item ->
  truthy_opt (QueueItem.url item) = true ->
  nth_error (queue (page (step s a))) i = Some item.
Proof.
  intros Hi Hu.
  destruct (step_queue s a)
    as [[draw [_ ->]] | [_ [-> | [title [data ->]]]]].
  - rewrite nth_error_app1; [exact Hi|].
    apply nth_error_Some. congruence.
  - exact Hi.
  - rewrite nth_error_map, Hi. simpl. f_equal.
    apply mark_uploaded_done, Hu.
Qed.

Lemma run_app (hashtags : option jsstring) (actions more : list Action) :
  run hashtags (actions ++ more) = fold_left step more (run hashtags actions).
Proof. unfold run. apply fold_left_app. Qed.

End QueueFacts.

(** X6. In every session each entry of the queue has a title, is never
    [ready], has neither schedule nor url while it is a draft, has a
    schedule and no url while it is scheduled, and never has the empty
    string as its schedule. *)
Theorem queue_entries_are_well_formed :
  forall (RT : Runtime) (hashtags : option jsstring) (actions : list Action),
    Forall entry_ok (queue (page (run hashtags actions))).
Proof.
  intros RT hashtags actions. unfold run.
  assert (G : forall s, Forall entry_ok (queue (page s)) ->
                        Forall entry_ok (queue (page (fold_left step actions s)))).
  { induction actions as [|a actions IH]; intros s H; simpl; [exact H|].
    apply IH, step_entries_ok, H. }
  apply G. constructor.
Qed.

(** X7. The queue only grows at its end: whatever is done later, the
    entries present keep their place, id, title and schedule, and the
    entries that follow them are as many as the later clicks on Add to
    Launch Plan. Neither a reset nor an upload removes an entry. *)
Theorem queue_is_append_only :
  forall (RT : Runtime) (hashtags : option jsstring)
         (actions more : list Action),
    exists added,
      List.map entry_key (queue (page (run hashtags (actions ++ more))))
      = List.map entry_key (queue (page (run hashtags actions))) ++ added
      /\ List.length added = additions more
      /\ List.length (queue (page (run hashtags actions))) = additions actions.
Proof.
  intros RT hashtags actions more. rewrite run_app.
  destruct (fold_keys more (run hashtags actions)) as (added & E & L).
  exists added. split; [exact E|]. split; [exact L|].
  destruct (fold_keys actions (start hashtags)) as (all & E' & L').
  fold (run hashtags actions) in E'. simpl in E'.
  rewrite <- L', <- E', length_map. reflexivity.
Qed.

(** X8. An entry that has a non-empty url is final: no later action,
    a further successful upload of the same title included, changes it. *)
Theorem uploaded_entry_is_final :
  forall (RT : Runtime) (hashtags : option jsstring)
         (actions more : list Action) (i : nat) (item : QueueItem.t),
    nth_error (queue (page (run hashtags actions))) i = Some item ->
    truthy_opt (QueueItem.url item) = true ->
    nth_error (queue (page (run hashtags (actions ++ more)))) i = Some item.
Proof.
  intros RT hashtags actions more i item Hi Hu. rewrite run_app.
  revert Hi. generalize (run hashtags actions).
  induction more as [|a more IH]; intros s Hi; simpl; [exact Hi|].
  apply IH, step_keeps_uploaded; assumption.
Qed.

Definition second_upload : list Action :=
  [ Edit (sample_form private [] []);
    Submit;
    Settle (FetchResolves 201
              (JsonResolves {| p_error := None; p_videoId := Some (js "xyz789");
                               p_url := Some (js "https://youtu.be/xyz789") |})) ].

Definition uploaded_sample : QueueItem.t :=
  {| QueueItem.id := js "3lllllll";
     QueueItem.title := js "Launch day";
     QueueItem.publishAt := None;
     QueueItem.status := uploaded;
     QueueItem.url := Some (js "https://youtu.be/abc123") |}.

Lemma uploaded_entry_is_final_witness :
  nth_error
    (queue (page (@run utc_runtime None
                    ((sample_actions ++ [Settle sample_success])
                     ++ second_upload)))) 0
  = Some uploaded_sample.
Proof.
  apply (@uploaded_entry_is_final utc_runtime None
           (sample_actions ++ [Settle sample_success]) second_upload
           0%nat uploaded_sample);
    vm_compute; reflexivity.
Defined.


(** ** The requests of a session *)

(** The field names of a request, with and without a schedule. *)
Definition names_scheduled : list jsstring :=
  [ js "video"; js "title"; js "description"; js "tags"; js "privacyStatus";
    js "publishAt"; js "madeForKids"; js "notifySubscribers";
    js "categoryId"; js "defaultLanguage" ].

Definition names_unscheduled : list jsstring :=
  [ js "video"; js "title"; js "description"; js "tags"; js "privacyStatus";
    js "madeForKids"; js "notifySubscribers";
    js "categoryId"; js "defaultLanguage" ].

(** What every request of the page satisfies. *)
Definition request_ok (request : FormData) : Prop :=
  (exists file, get request (js "video") = Some (EFile file))
  /\ (exists privacy,
        get request (js "privacyStatus") = Some (EString (privacy_name privacy))
        /\ ((get request (js "publishAt") = None
             /\ List.map fst request = names_unscheduled)
            \/ (exists ts,
                  get request (js "publishAt") = Some (EString ts)
                  /\ ts <> [] /\ privacy <> public
                  /\ List.map fst request = names_scheduled)))
  /\ (exists kids notify,
        get request (js "madeForKids") = Some (EString (String_of_bool kids))
        /\ get request (js "notifySubscribers")
           = Some (EString (String_of_bool notify))).

Lemma request_body_ok (f : File) (publishAt : option jsstring) (fm : Form.t) :
  truthy_opt publishAt && is_public (Form.privacyStatus fm) = false ->
  publishAt <> Some [] ->
  request_ok (request_body f publishAt fm).
Proof.
  intros Hcheck Hne. unfold request_ok.
  destruct publishAt as [[|c ts]|]; [contradiction| |].
  - simpl in Hcheck. split; [exists f; reflexivity|]. split.
    + exists (Form.privacyStatus fm). split; [reflexivity|]. right.
      exists (c :: ts). split; [reflexivity|]. split; [discriminate|].
      split; [|reflexivity].
      intros E. rewrite E in Hcheck. discriminate.
    + exists (Form.madeForKids fm), (Form.notifySubscribers fm).
      split; reflexivity.
  - split; [exists f; reflexivity|]. split.
    + exists (Form.privacyStatus fm). split; [reflexivity|]. left.
      split; reflexivity.
    + exists (Form.madeForKids fm), (Form.notifySubscribers fm).
      split; reflexivity.
Qed.

Section RequestFacts.
Context {RT : Runtime}.

Lemma begin_request_ok (st st' : Page) (request : FormData) :
  handleSubmit_begin st = (st', Some request) -> request_ok request.
Proof.
  unfold handleSubmit_begin. simpl.
  destruct (Form.file (form st)) as [f|]; [|discriminate].
  destruct (buildPublishDate _ _) as [ts|] eqn:B; simpl.
  - destruct (truthy ts && is_public _) eqn:C; [discriminate|].
    intros H. injection H as _ <-. apply request_body_ok; [exact C|].
    intros E. injection E as ->.
    apply buildPublishDate_truthy in B. discriminate B.
  - intros H. injection H as _ <-. apply request_body_ok;
      [reflexivity | discriminate].
Qed.

(** The state of a session between its page and its request. *)
Definition in_step (s : Session) : Prop :=
  (uploading (page s) = true <-> in_flight s <> None)
  /\ (in_flight s <> None -> error (page s) = None /\ result (page s) = None)
  /\ Forall request_ok (sent s).

Lemma begin_uploading (st : Page) :
  snd (handleSubmit_begin st) = None ->
  uploading (fst (handleSubmit_begin st)) = uploading st.
Proof.
  unfold handleSubmit_begin. simpl.
  destruct (Form.file (form st)); [|reflexivity].
  destruct (_ && _); [reflexivity | discriminate].
Qed.

Lemma end_uploading (title : jsstring) (outcome : fetch_outcome) (st : Page) :
  uploading (handleSubmit_end title outcome st) = false.
Proof.
  assert (F : forall e, uploading (submit_failed e st) = false)
    by (intros []; reflexivity).
  unfold handleSubmit_end.
  destruct outcome as [e | status [e | data]]; rewrite ?F; auto;
    destruct (negb (ok status)); rewrite ?F; auto.
Qed.

Lemma step_in_step (s : Session) (a : Action) : in_step s -> in_step (step s a).
Proof.
  intros H. pose proof H as (Hu & He & Hs).
  destruct a as [f | | draw | | outcome]; simpl; try exact H.
  - destruct (uploading (page s)) eqn:U; [exact H|].
    assert (Hn : in_flight s = None).
    { destruct (in_flight s) eqn:F; [|reflexivity].
      destruct Hu as [_ Hu].
      assert (A : false = true) by (apply Hu; discriminate).
      discriminate A. }
    pose proof (begin_uploading (page s)) as B.
    destruct (handleSubmit_begin (page s)) as [st' [request|]] eqn:E.
    + destruct (begin_request _ E) as (A1 & A2 & A3).
      split; [|split]; simpl.
      * split; [discriminate | auto].
      * auto.
      * constructor; [apply (begin_request_ok _ E) | exact Hs].
    + simpl in B. specialize (B eq_refl).
      split; [|split]; simpl.
      * rewrite B, U, Hn. split; [discriminate | contradiction].
      * rewrite Hn. contradiction.
      * exact Hs.
  - destruct (in_flight s) as [title|] eqn:F; [|exact H].
    split; [|split]; simpl.
    + rewrite end_uploading. split; [discriminate | contradiction].
    + contradiction.
    + exact Hs.
Qed.

Lemma run_in_step (hashtags : option jsstring) (actions : list Action) :
  in_step (run hashtags actions).
Proof.
  unfold run.
  assert (G : forall s, in_step s -> in_step (fold_left step actions s)).
  { induction actions as [|a actions IH]; intros s H; simpl; [exact H|].
    apply IH, step_in_step, H. }
  apply G. split; [|split]; simpl.
  - split; [discriminate | contradiction].
  - contradiction.
  - constructor.
Qed.

End RequestFacts.

(** X9. Every request the page sends carries a file as [video], the name
    of the privacy chosen, and the two flags as [true] or [false]; it has a
    [publishAt] field only with a non-empty value and a privacy that is not
    public, and its fields are the nine or ten of the form, each once and
    in the order of the handler. *)
Theorem sent_requests_are_well_formed :
  forall (RT : Runtime) (hashtags : option jsstring) (actions : list Action),
    Forall request_ok (sent (run hashtags actions)).
Proof.
  intros RT hashtags actions.
  destruct (run_in_step hashtags actions) as (_ & _ & H). exact H.
Qed.

(** X10. Throughout a session [uploading] is true exactly while a request
    awaits its response, and meanwhile the page shows neither an error nor
    a result; when the request settles, however it does, [uploading] is
    false again and nothing is awaited. *)
Theorem uploading_while_in_flight :
  forall (RT : Runtime) (hashtags : option jsstring) (actions : list Action)
         (outcome : fetch_outcome),
    (uploading (page (run hashtags actions)) = true
     <-> in_flight (run hashtags actions) <> None)
    /\ (uploading (page (run hashtags actions)) = true ->
        error (page (run hashtags actions)) = None
        /\ result (page (run hashtags actions)) = None)
    /\ uploading (page (step (run hashtags actions) (Settle outcome))) = false
    /\ in_flight (step (run hashtags actions) (Settle outcome)) = None.
Proof.
  intros RT hashtags actions outcome.
  destruct (run_in_step hashtags actions) as (Hu & He & _).
  split; [exact Hu|]. split; [intros U; apply He, Hu, U|].
  simpl. destruct (in_flight (run hashtags actions)) as [title|] eqn:F; simpl.
  - split; [apply end_uploading | reflexivity].
  - split; [|exact F].
    destruct (uploading (page (run hashtags actions))) eqn:U; [|reflexivity].
    destruct Hu as [Hu _]. exfalso. apply (Hu eq_refl). reflexivity.
Qed.

Lemma uploading_while_in_flight_witness :
  error (page (@run utc_runtime None sample_actions)) = None
  /\ result (page (@run utc_runtime None sample_actions)) = None.
Proof.
  destruct (@uploading_while_in_flight utc_runtime None sample_actions
              sample_success) as (_ & H & _).
  apply H. vm_compute. reflexivity.
Defined.


(** ** Trimming and splitting at commas *)

Definition COMMA : N := N_of_ascii ",".

Lemma trimStart_head (s r : jsstring) (c : N) :
  trimStart s = c :: r -> is_space c = false.
Proof.
  induction s as [|x s IH]; simpl; [discriminate|].
  destruct (is_space x) eqn:E; [exact IH|].
  intros H. injection H as <- _. exact E.
Qed.

Lemma trimStart_fixed (s : jsstring) (c : N) :
  is_space c = false -> trimStart (c :: s) = c :: s.
Proof. intros H. simpl. rewrite H. reflexivity. Qed.

Lemma trimStart_idem (s : jsstring) : trimStart (trimStart s) = trimStart s.
Proof.
  destruct (trimStart s) as [|c r] eqn:E; [reflexivity|].
  apply trimStart_fixed, (@trimStart_head _ _ _ E).
Qed.

Lemma trimStart_In (s : jsstring) (c : N) : In c (trimStart s) -> In c s.
Proof.
  induction s as [|x s IH]; simpl; [tauto|].
  destruct (is_space x); [right; apply IH; assumption | tauto].
Qed.

(** A last unit that is no white space stays the last. *)
Lemma trimStart_last (s : jsstring) (c : N) :
  is_space c = false -> exists pre, trimStart (s ++ [c]) = pre ++ [c].
Proof.
  intros H. induction s as [|x s [pre IH]]; simpl.
  - rewrite H. exists []. reflexivity.
  - destruct (is_space x); [exists pre; exact IH|].
    exists (x :: s). reflexivity.
Qed.

Lemma trim_In (s : jsstring) (c : N) : In c (trim s) -> In c s.
Proof.
  unfold trim. intros H. apply in_rev, trimStart_In, in_rev, trimStart_In in H.
  exact H.
Qed.

Lemma trim_idem (s : jsstring) : trim (trim s) = trim s.
Proof.
  unfold trim. destruct (trimStart s) as [|c r] eqn:E; [reflexivity|].
  pose proof (@trimStart_head _ _ _ E) as Hc.
  change (rev (c :: r)) with (rev r ++ [c]).
  destruct (@trimStart_last (rev r) c Hc) as [pre P]. rewrite P.
  assert (T : trimStart (pre ++ [c]) = pre ++ [c])
    by (rewrite <- P; apply trimStart_idem).
  rewrite rev_app_distr. change (rev [c] ++ rev pre) with (c :: rev pre).
  rewrite (@trimStart_fixed (rev pre) c Hc).
  change (rev (c :: rev pre)) with (rev (rev pre) ++ [c]).
  rewrite rev_involutive, T, rev_app_distr. reflexivity.
Qed.

Lemma split_on_from_pieces (sep : N) (s cur piece : jsstring) :
  ~ In sep cur ->
  In piece (split_on_from sep cur s) -> ~ In sep piece.
Proof.
  revert cur; induction s as [|c s IH]; intros cur Hcur; simpl.
  - intros [<- | []] H. apply in_rev in H. contradiction.
  - destruct (N.eqb_spec c sep) as [-> | Hne].
    + intros [<- | H].
      * intros H'. apply in_rev in H'. contradiction.
      * apply (IH []); [intros [] | exact H].
    + apply IH. intros [E | H]; [congruence | contradiction].
Qed.

(** What holds of a tag: not empty, nothing to trim, no comma. *)
Definition tag_ok (tag : jsstring) : Prop :=
  tag <> [] /\ trim tag = tag /\ ~ In COMMA tag.

(** [value.split(",").map((tag) => tag.trim()).filter(Boolean)] *)
Definition split_tags (s : jsstring) : list jsstring :=
  filter truthy (List.map trim (split_on COMMA s)).

Lemma split_tags_ok (s : jsstring) : Forall tag_ok (split_tags s).
Proof.
  apply Forall_forall. intros tag H. unfold split_tags in H.
  apply filter_In in H. destruct H as [H Hne].
  apply in_map_iff in H. destruct H as [piece [<- Hp]].
  split; [apply truthy_nonempty, Hne|]. split; [apply trim_idem|].
  intros Hc. apply trim_In in Hc.
  apply (@split_on_from_pieces COMMA s [] piece); auto.
Qed.

(** ** The fields of the schema *)

Section FieldFacts.
Context {RT : Runtime} {EM : ZodErrorMap}.

Lemma schema_tags_string (s : jsstring) :
  schema_tags (VString s) = Valid (if truthy s then split_tags s else []).
Proof. reflexivity. Qed.

Lemma min_valid (n : nat) (message : string) (v : value) (s : jsstring) :
  min n message z_string v = Valid s ->
  v = VString s /\ (n <= List.length s)%nat.
Proof.
  unfold min. destruct v as [| |x|f]; simpl; try discriminate.
  destruct (Nat.ltb_spec (List.length x) n) as [Hlt | Hge]; [discriminate|].
  intros H. injection H as ->. auto.
Qed.

Lemma schema_tags_valid (v : value) (tags : list jsstring) :
  schema_tags v = Valid tags -> Forall tag_ok tags.
Proof.
  destruct v as [| |s|f]; simpl; try discriminate.
  - intros H. injection H as <-. constructor.
  - rewrite schema_tags_string. intros H. injection H as <-.
    destruct (truthy s); [apply split_tags_ok | constructor].
Qed.

(** A valid [publishAt] is absent, for an absent or empty field, or the
    ISO text of the instant the field parses to. *)
Lemma schema_publishAt_valid (v : value) (p : option jsstring) :
  schema_publishAt v = Valid p ->
  (p = None /\ (v = VUndefined \/ v = VString []))
  \/ (exists s t, v = VString s /\ s <> [] /\ new_Date s = Some t
                  /\ p = Some (toISOString t)).
Proof.
  destruct v as [| |s|f]; simpl; try discriminate.
  - intros H. injection H as <-. left. auto.
  - unfold schema_publishAt, transform, refine, optional, z_string.
    destruct s as [|c s]; simpl.
    + intros H. injection H as <-. left. auto.
    + destruct (new_Date (c :: s)) as [t|] eqn:D; [|discriminate].
      intros H. injection H as <-. right. exists (c :: s), t.
      repeat split; [discriminate | exact D].
Qed.

Lemma schema_optional_string_valid (v : value) (o : option jsstring) :
  schema_optional_string v = Valid o ->
  (v = VUndefined /\ o = None) \/ (exists s, v = VString s /\ o = Some s).
Proof.
  destruct v as [| |s|f]; simpl; try discriminate.
  - intros H. injection H as <-. auto.
  - intros H. injection H as <-. right. exists s. auto.
Qed.

Lemma get_value_defined (formData : FormData) (key : string) :
  get_value formData key <> VUndefined.
Proof.
  unfold get_value. destruct (get formData (js key)) as [[s|f]|]; discriminate.
Qed.

(** The fields of a valid payload are the outputs of the field schemas. *)
Lemma safeParse_valid (formData : FormData) (payload : Fields.t) :
  safeParse formData = Valid payload ->
  schema_title (get_value formData "title") = Valid (Fields.title payload)
  /\ schema_description (get_value formData "description")
     = Valid (Fields.description payload)
  /\ schema_tags (get_value formData "tags") = Valid (Fields.tags payload)
  /\ schema_privacyStatus (input_privacyStatus formData)
     = Valid (Fields.privacyStatus payload)
  /\ schema_publishAt (get_value formData "publishAt")
     = Valid (Fields.publishAt payload)
  /\ schema_flag (get_value formData "madeForKids")
     = Valid (Fields.madeForKids payload)
  /\ schema_flag (get_value formData "notifySubscribers")
     = Valid (Fields.notifySubscribers payload)
  /\ schema_optional_string (get_value formData "categoryId")
     = Valid (Fields.categoryId payload)
  /\ schema_optional_string (get_value formData "defaultLanguage")
     = Valid (Fields.defaultLanguage payload).
Proof.
  unfold safeParse.
  destruct (schema_title _); [|discriminate].
  destruct (schema_description _); [|discriminate].
  destruct (schema_tags _); [|discriminate].
  destruct (schema_privacyStatus _); [|discriminate].
  destruct (schema_publishAt _); [|discriminate].
  destruct (schema_flag (get_value formData "madeForKids")); [|discriminate].
  destruct (schema_flag _); [|discriminate].
  destruct (schema_optional_string (get_value formData "categoryId"));
    [|discriminate].
  destruct (schema_optional_string _); [|discriminate].
  intros H. injection H as <-. simpl. repeat split.
Qed.

(** And a payload is valid when all the field schemas succeed. *)
Lemma safeParse_fields (formData : FormData)
    (title description : jsstring) (tags : list jsstring)
    (privacy : PrivacyStatus) (publishAt : option jsstring)
    (kids notify : bool) (category language : option jsstring) :
  schema_title (get_value formData "title") = Valid title ->
  schema_description (get_value formData "description") = Valid description ->
  schema_tags (get_value formData "tags") = Valid tags ->
  schema_privacyStatus (input_privacyStatus formData) = Valid privacy ->
  schema_publishAt (get_value formData "publishAt") = Valid publishAt ->
  schema_flag (get_value formData "madeForKids") = Valid kids ->
  schema_flag (get_value formData "notifySubscribers") = Valid notify ->
  schema_optional_string (get_value formData "categoryId") = Valid category ->
  schema_optional_string (get_value formData "defaultLanguage") = Valid language ->
  safeParse formData
  = Valid {| Fields.title := title; Fields.description := description;
             Fields.tags := tags; Fields.privacyStatus := privacy;
             Fields.publishAt := publishAt; Fields.madeForKids := kids;
             Fields.notifySubscribers := notify;
             Fields.categoryId := category;
             Fields.defaultLanguage := language |}.
Proof.
  intros H1 H2 H3 H4 H5 H6 H7 H8 H9. unfold safeParse.
  rewrite H1, H2, H3, H4, H5, H6, H7, H8, H9. reflexivity.
Qed.

End FieldFacts.


(** ** What the handler answers and what it hands on *)

(** X11. The handler answers 201, 400 or 500 and calls the uploader at
    most once. A 400 comes without any call. It answers 201 exactly when
    its one call resolved, with the identifier and url of that call and no
    error field; every other response has an error field and neither
    identifier nor url. *)
Theorem POST_answers_201_400_or_500 :
  forall (RT : Runtime) (EM : ZodErrorMap)
         (uploadShort : UploadArgs -> upload_outcome) (request : Request),
    let response := fst (POST uploadShort request) in
    let calls := snd (POST uploadShort request) in
    (status response = 201 \/ status response = 400 \/ status response = 500)
    /\ (List.length calls <= 1)%nat
    /\ (status response = 400 -> calls = [])
    /\ (status response = 201 <->
        exists args videoId url,
          calls = [args]
          /\ uploadShort args = UploadResolves videoId url
          /\ body response
             = {| p_error := None; p_videoId := Some videoId;
                  p_url := Some url |})
    /\ (status response <> 201 ->
        exists message,
          body response
          = {| p_error := Some message; p_videoId := None; p_url := None |}).
Proof.
  intros RT EM uploadShort request.
  assert (Err : forall message code calls,
    code = 400 \/ code = 500 -> (code = 400 -> calls = []) ->
    (List.length calls <= 1)%nat ->
    (forall args videoId url, calls = [args] ->
       uploadShort args <> UploadResolves videoId url) ->
    let response := json_error message code in
    (status response = 201 \/ status response = 400 \/ status response = 500)
    /\ (List.length calls <= 1)%nat
    /\ (status response = 400 -> calls = [])
    /\ (status response = 201 <->
        exists args videoId url,
          calls = [args]
          /\ uploadShort args = UploadResolves videoId url
          /\ body response
             = {| p_error := None; p_videoId := Some videoId;
                  p_url := Some url |})
    /\ (status response <> 201 ->
        exists message,
          body response
          = {| p_error := Some message; p_videoId := None; p_url := None |})).
  { intros message code calls Hcode H400 Hlen Hno. simpl.
    split; [tauto|]. split; [exact Hlen|]. split; [exact H400|]. split.
    - split; [intros ->; destruct Hcode; discriminate|].
      intros (args & videoId & url & Hc & Hu & _). exfalso.
      apply (Hno args videoId url Hc Hu).
    - intros _. exists message. reflexivity. }
  assert (Plain : forall message code,
    code = 400 \/ code = 500 ->
    let response := fst (json_error message code, @nil UploadArgs) in
    let calls := snd (json_error message code, @nil UploadArgs) in
    (status response = 201 \/ status response = 400 \/ status response = 500)
    /\ (List.length calls <= 1)%nat
    /\ (status response = 400 -> calls = [])
    /\ (status response = 201 <->
        exists args videoId url,
          calls = [args]
          /\ uploadShort args = UploadResolves videoId url
          /\ body response
             = {| p_error := None; p_videoId := Some videoId;
                  p_url := Some url |})
    /\ (status response <> 201 ->
        exists message,
          body response
          = {| p_error := Some message; p_videoId := None; p_url := None |})).
  { intros message code Hcode. cbn [fst snd]. apply Err; auto.
    intros args videoId url H. discriminate H. }
  cbv zeta. unfold POST.
  destruct request as [e | formData]; [apply Plain; auto|].
  rewrite check_file_cases.
  destruct (get formData (js "video")) as [[s | file]|];
    try (apply Plain; auto).
  destruct (_ <? _)%N; [apply Plain; auto|].
  unfold validate_and_upload.
  destruct (safeParse formData) as [payload | issues]; [|apply Plain; auto].
  set (args := {| buffer := file; fileName := name file;
                  mimeType := or_else (type file) (js "video/mp4");
                  data := payload |}).
  destruct (uploadShort args) as [videoId url | e] eqn:U; cbn [fst snd].
  - simpl. split; [auto|]. split; [auto|]. split; [discriminate|]. split.
    + split; [|reflexivity]. intros _. exists args, videoId, url. auto.
    + intros H. contradiction.
  - apply Err; simpl; auto; try discriminate.
    intros a v u Ha. injection Ha as <-. rewrite U. discriminate.
Qed.

(** X12. What the uploader is called with: a file of at most 1 GiB under
    its own name, a MIME type that is not empty, a title of five units or
    more and a description of ten or more, tags that are not empty, are
    trimmed and hold no comma, a [publishAt] that is absent or the ISO text
    of an instant, and a category and a language that are present. *)
Theorem uploader_receives_validated_fields :
  forall (RT : Runtime) (EM : ZodErrorMap)
         (uploadShort : UploadArgs -> upload_outcome)
         (request : Request) (args : UploadArgs),
    In args (snd (POST uploadShort request)) ->
    (size (buffer args) <= 2 ^ 30)%N
    /\ fileName args = name (buffer args)
    /\ mimeType args <> []
    /\ (5 <= List.length (Fields.title (data args)))%nat
    /\ (10 <= List.length (Fields.description (data args)))%nat
    /\ Forall tag_ok (Fields.tags (data args))
    /\ (Fields.publishAt (data args) = None
        \/ exists t, Fields.publishAt (data args) = Some (toISOString t))
    /\ Fields.categoryId (data args) <> None
    /\ Fields.defaultLanguage (data args) <> None.
Proof.
  intros RT EM uploadShort [e | formData] args; simpl; [contradiction|].
  rewrite check_file_cases.
  destruct (get formData (js "video")) as [[s | file]|];
    simpl; try contradiction.
  destruct (N.ltb_spec MAX_FILE_SIZE_BYTES (size file)) as [Hbig | Hsize];
    simpl; [contradiction|].
  unfold validate_and_upload.
  destruct (safeParse formData) as [payload | issues] eqn:P;
    simpl; [|contradiction].
  intros Hin.
  assert (E : args = {| buffer := file; fileName := name file;
                        mimeType := or_else (type file) (js "video/mp4");
                        data := payload |}).
  { destruct (uploadShort _); simpl in Hin; destruct Hin as [<- | []];
      reflexivity. }
  subst args. simpl.
  destruct (safeParse_valid _ P)
    as (Ht & Hd & Hg & _ & Hp & _ & _ & Hc & Hl).
  split; [exact Hsize|]. split; [reflexivity|].
  split; [apply or_else_nonempty; discriminate|].
  split; [apply (min_valid _ _ _ Ht)|].
  split; [apply (min_valid _ _ _ Hd)|].
  split; [apply (schema_tags_valid _ Hg)|].
  split.
  { destruct (schema_publishAt_valid _ Hp) as [[-> _] | (s & t & _ & _ & _ & ->)];
      [left; reflexivity | right; exists t; reflexivity]. }
  split.
  - destruct (schema_optional_string_valid _ Hc) as [[Hu _] | [s [_ ->]]];
      [|discriminate].
    exfalso. apply (get_value_defined _ _ Hu).
  - destruct (schema_optional_string_valid _ Hl) as [[Hu _] | [s [_ ->]]];
      [|discriminate].
    exfalso. apply (get_value_defined _ _ Hu).
Qed.

Lemma uploader_receives_validated_fields_witness :
  Forall tag_ok [js "launch"; js "behind the scenes"].
Proof.
  destruct (snd (post_sample
                   (sample_body sample_file "Launch day" "Behind the scenes"
                                "2024-05-01T18:30:00.000Z")))
    as [|args rest] eqn:E; [vm_compute in E; discriminate E|].
  destruct (@uploader_receives_validated_fields utc_runtime zod3_messages
              upload_abc123
              (Multipart (sample_body sample_file "Launch day"
                            "Behind the scenes" "2024-05-01T18:30:00.000Z"))
              args) as (_ & _ & _ & _ & _ & H & _).
  - unfold post_sample in E. rewrite E. left. reflexivity.
  - vm_compute in E. injection E as <- _. exact H.
Defined.

(** X13. The tags of a request are the pieces of the field between
    commas, trimmed, without the empty ones, in their order and with their
    repetitions; an empty field gives none, and an absent field is an
    issue. No tag is empty, has white space at an end, or holds a comma. *)
Theorem tags_are_trimmed_pieces :
  forall (EM : ZodErrorMap) (s : jsstring),
    schema_tags (VString s) = Valid (split_tags s)
    /\ Forall tag_ok (split_tags s)
    /\ schema_tags (VString []) = Valid []
    /\ schema_tags VNull = Invalid [invalid_type_message VNull].
Proof.
  intros EM s. split; [|split; [apply split_tags_ok | split; reflexivity]].
  rewrite schema_tags_string. destruct s; reflexivity.
Qed.

(** X14. The privacy of a request is read from exactly the three names,
    so the name the page sends is read back as the privacy chosen; a field
    that is absent stands for private, and any other string is an issue. *)
Theorem privacy_is_read_from_its_name :
  forall EM : ZodErrorMap,
    (forall p, schema_privacyStatus (VString (privacy_name p)) = Valid p)
    /\ (forall s p,
          schema_privacyStatus (VString s) = Valid p -> s = privacy_name p)
    /\ (forall s,
          (forall p, s <> privacy_name p) ->
          schema_privacyStatus (VString s)
          = Invalid [invalid_enum_message (VString s)])
    /\ (forall formData,
          get formData (js "privacyStatus") = None ->
          schema_privacyStatus (input_privacyStatus formData) = Valid private).
Proof.
  intros EM. split; [intros []; reflexivity|].
  assert (C : forall s,
    (exists p, s = privacy_name p
               /\ schema_privacyStatus (VString s) = Valid p)
    \/ ((forall p, s <> privacy_name p)
        /\ schema_privacyStatus (VString s)
           = Invalid [invalid_enum_message (VString s)])).
  { intros s. unfold schema_privacyStatus, z_enum_privacy.
    destruct (jseqb s (js "public")) eqn:A;
      [apply jseqb_eq in A; left; exists public; auto|].
    destruct (jseqb s (js "private")) eqn:B;
      [apply jseqb_eq in B; left; exists private; auto|].
    destruct (jseqb s (js "unlisted")) eqn:D;
      [apply jseqb_eq in D; left; exists unlisted; auto|].
    right. split; [|reflexivity].
    apply jseqb_neq in A, B, D. intros []; assumption. }
  split; [|split].
  - intros s p H. destruct (C s) as [(q & -> & Hq) | [_ Hi]]; [|congruence].
    rewrite Hq in H. injection H as ->. reflexivity.
  - intros s Hs. destruct (C s) as [(q & -> & _) | [_ Hi]]; [|exact Hi].
    exfalso. apply (Hs q). reflexivity.
  - intros formData H. unfold input_privacyStatus, get_value. rewrite H.
    reflexivity.
Qed.

Lemma privacy_is_read_from_its_name_witness :
  @schema_privacyStatus zod3_messages (VString (js "Public"))
  = Invalid [js "Invalid enum value. Expected 'public' | 'private' | 'unlisted', received 'Public'"].
Proof.
  destruct (privacy_is_read_from_its_name zod3_messages)
    as (_ & _ & H & _).
  rewrite (H (js "Public")); [reflexivity|]. intros []; discriminate.
Defined.


(** ** Reading back an ISO text *)

Lemma digit_of_digit_char (x : Z) : digit (digit_char x) = Some (x mod 10).
Proof.
  unfold digit, digit_char, is_digit, in_range.
  pose proof (Z.mod_pos_bound x 10 eq_refl) as B.
  replace (48 <=? Z.to_N (48 + x mod 10))%N with true
    by (symmetry; apply N.leb_le; lia).
  replace (Z.to_N (48 + x mod 10) <=? 57)%N with true
    by (symmetry; apply N.leb_le; lia).
  cbn [andb]. f_equal. rewrite Z2N.id by lia. lia.
Qed.

Lemma number_pad2 (n : Z) : 0 <= n < 100 -> number (pad2 n) = Some n.
Proof.
  intros H. unfold number, pad2, number_from.
  rewrite !digit_of_digit_char. f_equal.
  Z.to_euclidean_division_equations. lia.
Qed.

Lemma number_pad3 (n : Z) : 0 <= n < 1000 -> number (pad3 n) = Some n.
Proof.
  intros H. unfold number, pad3, number_from.
  rewrite !digit_of_digit_char. f_equal.
  Z.to_euclidean_division_equations. lia.
Qed.

Lemma number_pad4 (n : Z) : 0 <= n < 10000 -> number (pad4 n) = Some n.
Proof.
  intros H. unfold number, pad4, number_from.
  rewrite !digit_of_digit_char. f_equal.
  Z.to_euclidean_division_equations. lia.
Qed.

(** The text of [toISOString] for a year of four digits, from its fields. *)
Definition utc_text (y m d h mi s ms : Z) : jsstring :=
  pad4 y ++ js "-" ++ pad2 m ++ js "-" ++ pad2 d ++ js "T"
    ++ pad2 h ++ js ":" ++ pad2 mi ++ js ":" ++ pad2 s ++ js "."
    ++ pad3 ms ++ js "Z".

Lemma read_utc_text (y m d h mi s ms : Z) :
  0 <= y < 10000 -> 0 <= m < 100 -> 0 <= d < 100 -> 0 <= h < 100 ->
  0 <= mi < 100 -> 0 <= s < 100 -> 0 <= ms < 1000 ->
  read_date_time (utc_text y m d h mi s ms)
  = Some {| f_year := y; f_month := m; f_day := d; f_hour := h;
            f_minute := mi; f_second := s; f_millis := ms; f_utc := true |}.
Proof.
  intros Hy Hm Hd Hh Hmi Hs Hms.
  pose proof (number_pad4 Hy) as Ny. pose proof (number_pad2 Hm) as Nm.
  pose proof (number_pad2 Hd) as Nd. pose proof (number_pad2 Hh) as Nh.
  pose proof (number_pad2 Hmi) as Nmi. pose proof (number_pad2 Hs) as Ns.
  pose proof (number_pad3 Hms) as Nms.
  unfold utc_text, pad4, pad3, pad2 in *.
  unfold read_date_time. cbn -[number digit_char Z.div].
  rewrite Ny, Nm, Nd, Nh, Nmi, Ns, Nms. reflexivity.
Qed.

Lemma time_of_day_fields (ms : Z) :
  0 <= ms < msPerDay ->
  MakeTime (ms / 3600000) (ms / 60000 mod 60) (ms / 1000 mod 60) (ms mod 1000)
  = ms
  /\ 0 <= ms / 3600000 <= 23.
Proof.
  unfold msPerDay, MakeTime. intros H.
  Z.to_euclidean_division_equations. lia.
Qed.


Lemma days_from_In (count : nat) (lo d : Z) :
  lo <= d < lo + Z.of_nat count -> In d (days_from lo count).
Proof.
  revert lo; induction count as [|count IH]; intros lo H; simpl; [lia|].
  destruct (Z.eq_dec lo d) as [E | E]; [left; exact E|].
  right. apply IH. lia.
Qed.

Lemma days_before_month_bounds (y m : Z) :
  0 <= days_before_month y m <= 335.
Proof.
  unfold days_before_month, leap_day.
  repeat match goal with
         | |- context [if ?b then _ else _] => destruct b
         end; lia.
Qed.

(** The year of a date is bounded by its day number. *)
Lemma MakeDay_year_bounds (y m d : Z) :
  1 <= d <= 31 -> -25567 <= MakeDay y m d <= 47846 -> 1899 <= y <= 2101.
Proof.
  intros Hd. unfold MakeDay, DayFromYear.
  pose proof (days_before_month_bounds y m) as B.
  generalize dependent (days_before_month y m). intros b B H.
  Z.to_euclidean_division_equations. lia.
Qed.

Lemma DaysInMonth_le_31 (y m : Z) : DaysInMonth y m <= 31.
Proof.
  unfold DaysInMonth, leap_day.
  repeat match goal with
         | |- context [if ?b then _ else _] => destruct b
         end; lia.
Qed.

(** What is checked of the date [p] computed for a day number: it is a
    calendar date and [MakeDay] maps it back to the day. *)
Definition date_checks (p : Z * Z * Z) (day : Z) : bool :=
  let '(y, m, d) := p in
  (MakeDay y m d =? day) && (1 <=? m) && (m <=? 12)
  && (1 <=? d) && (d <=? DaysInMonth y m).

(** The check holds on every day from 1900-01-01 to 2100-12-31. *)
Lemma date_checks_1900_2100 :
  forallb (fun day => date_checks (civil_from_days day) day)
          (days_from (-25567) (Z.to_nat 73414)) = true.
Proof. vm_compute. reflexivity. Qed.

(** The date of a day from 1900-01-01 to 2100-12-31. *)
Lemma civil_from_days_date (day y m d : Z) :
  -25567 <= day <= 47846 ->
  civil_from_days day = (y, m, d) ->
  MakeDay y m d = day /\ 1 <= m <= 12 /\ 1 <= d <= DaysInMonth y m
  /\ 1899 <= y <= 2101.
Proof.
  intros Hday C.
  pose proof date_checks_1900_2100 as Hall.
  rewrite forallb_forall in Hall.
  assert (R : date_checks (civil_from_days day) day = true).
  { apply (Hall day). apply days_from_In. rewrite Z2Nat.id by lia. lia. }
  rewrite C in R. unfold date_checks in R.
  repeat (apply andb_true_iff in R; destruct R as [R ?]).
  apply Z.eqb_eq in R.
  repeat match goal with H : (_ <=? _) = true |- _ => apply Z.leb_le in H end.
  pose proof (DaysInMonth_le_31 y m) as D31.
  split; [exact R|]. split; [lia|]. split; [lia|].
  apply (@MakeDay_year_bounds y m d); [lia | rewrite R; exact Hday].
Qed.

Lemma toISOString_utc_text (t y m d : Z) :
  civil_from_days (t / msPerDay) = (y, m, d) -> 0 <= y <= 9999 ->
  toISOString t
  = utc_text y m d (t mod msPerDay / 3600000) (t mod msPerDay / 60000 mod 60)
      (t mod msPerDay / 1000 mod 60) (t mod msPerDay mod 1000).
Proof.
  intros C Hy. unfold toISOString. rewrite C.
  replace ((0 <=? y) && (y <=? 9999)) with true; [reflexivity|].
  symmetry. apply andb_true_iff. split; apply Z.leb_le; lia.
Qed.

Section ReadBack.
Context {RT : Runtime}.

Lemma Date_parse_utc_text (y m d h mi s ms : Z) :
  0 <= y < 10000 -> 1 <= m <= 12 -> 1 <= d <= DaysInMonth y m ->
  0 <= h <= 23 -> 0 <= mi <= 59 -> 0 <= s <= 59 -> 0 <= ms < 1000 ->
  Date_parse (utc_text y m d h mi s ms)
  = TimeClip (MakeDate (MakeDay y m d) (MakeTime h mi s ms)).
Proof.
  intros Hy Hm Hd Hh Hmi Hs Hms.
  pose proof (DaysInMonth_le_31 y m) as D31.
  unfold Date_parse. rewrite read_utc_text by lia.
  unfold legal_fields, fields_time.
  cbn [f_year f_month f_day f_hour f_minute f_second f_millis f_utc].
  replace (_ && _) with true; [reflexivity|].
  symmetry. repeat (apply andb_true_iff; split); apply Z.leb_le; lia.
Qed.

(** The instants from 1900-01-01 to the end of 2100. *)
Definition in_calendar_range (t : Z) : Prop :=
  MakeDate (MakeDay 1900 1 1) 0 <= t < MakeDate (MakeDay 2101 1 1) 0.

Lemma in_calendar_range_days (t : Z) :
  in_calendar_range t ->
  -25567 <= t / msPerDay <= 47846 /\ Z.abs t <= 8640000000000000.
Proof.
  unfold in_calendar_range.
  replace (MakeDate (MakeDay 1900 1 1) 0) with (-2208988800000) by reflexivity.
  replace (MakeDate (MakeDay 2101 1 1) 0) with (4133980800000) by reflexivity.
  unfold msPerDay. intros H. split; [|lia].
  Z.to_euclidean_division_equations. lia.
Qed.

Lemma Date_parse_toISOString (t : Z) :
  in_calendar_range t -> Date_parse (toISOString t) = Some t.
Proof.
  intros Ht. destruct (in_calendar_range_days Ht) as [Hday Habs].
  destruct (civil_from_days (t / msPerDay)) as [[y m] d] eqn:C.
  destruct (civil_from_days_date Hday C) as (Hmk & Hm & Hd & Hy).
  assert (Hms : 0 <= t mod msPerDay < msPerDay)
    by (apply Z.mod_pos_bound; reflexivity).
  destruct (time_of_day_fields Hms) as [Htime Hhour].
  pose proof (Z.mod_pos_bound (t mod msPerDay / 60000) 60 eq_refl).
  pose proof (Z.mod_pos_bound (t mod msPerDay / 1000) 60 eq_refl).
  pose proof (Z.mod_pos_bound (t mod msPerDay) 1000 eq_refl).
  rewrite (toISOString_utc_text _ C) by lia.
  rewrite Date_parse_utc_text by lia.
  rewrite Hmk, Htime. unfold MakeDate.
  replace (t / msPerDay * msPerDay + t mod msPerDay) with t
    by (rewrite Z.mul_comm; apply Z.div_mod; discriminate).
  unfold TimeClip.
  replace (Z.abs t <=? 8640000000000000) with true; [reflexivity|].
  symmetry. apply Z.leb_le. exact Habs.
Qed.

End ReadBack.

(** X15. For every instant from 1900-01-01 to the end of 2100 and in any
    time zone, the text [toISOString] writes is read back by [new Date] as
    the same instant, and as a [publishAt] field it passes the schema
    unchanged. *)
Theorem iso_text_reads_back :
  forall (RT : Runtime) (EM : ZodErrorMap) (t : Z),
    in_calendar_range t ->
    new_Date (toISOString t) = Some t
    /\ schema_publishAt (VString (toISOString t))
       = Valid (Some (toISOString t)).
Proof.
  intros RT EM t Ht.
  assert (D : new_Date (toISOString t) = Some t)
    by (apply Date_parse_toISOString, Ht).
  split; [exact D|].
  unfold schema_publishAt, transform, refine, optional, z_string.
  rewrite toISOString_truthy, D. reflexivity.
Qed.

Lemma iso_text_reads_back_witness :
  @new_Date utc_runtime (js "2024-05-01T18:30:00.000Z") = Some 1714588200000.
Proof.
  apply (@iso_text_reads_back utc_runtime zod3_messages 1714588200000).
  vm_compute. split; [discriminate | reflexivity].
Defined.


(** ** The page's request at the route *)

(** The tags the route reads from the tags field of the page. *)
Definition tags_of (tagsInput : jsstring) : list jsstring :=
  if truthy tagsInput then split_tags tagsInput else [].

(** A printable ASCII unit. *)
Definition is_plain (c : N) : bool := in_range 32 126 c.

Lemma String_of_bool_true (b : bool) : jseqb (String_of_bool b) (js "true") = b.
Proof. destruct b; reflexivity. Qed.

Lemma request_body_video (f : File) (publishAt : option jsstring)
    (fm : Form.t) :
  get (request_body f publishAt fm) (js "video") = Some (EFile f).
Proof.
  unfold request_body. destruct publishAt as [p|]; [|reflexivity].
  destruct (truthy p); reflexivity.
Qed.

(** The scalar value string has the length of the string. *)
Lemma scalar_values_from_length (s : jsstring) (after_high : bool) :
  List.length (scalar_values_from after_high s) = List.length s.
Proof.
  revert after_high; induction s as [|c s IH]; intros after_high; simpl;
    [reflexivity|].
  destruct (is_high_surrogate c); [|destruct (is_low_surrogate c)];
    simpl; rewrite IH; reflexivity.
Qed.

(** Writing the line breaks as CR LF makes no text shorter. *)
Lemma crlf_from_length (s : jsstring) (after_cr : bool) :
  (List.length s
   <= List.length (crlf_from after_cr s) + (if after_cr then 1 else 0))%nat.
Proof.
  revert after_cr; induction s as [|c s IH]; intros after_cr; simpl; [lia|].
  destruct (N.eqb c CR).
  - specialize (IH true). simpl in *. lia.
  - destruct (N.eqb c LF).
    + specialize (IH false). destruct after_cr; simpl in *; lia.
    + specialize (IH false). simpl in *. lia.
Qed.

Lemma wire_text_length (s : jsstring) :
  (List.length s <= List.length (wire_text s))%nat.
Proof.
  unfold wire_text, crlf, toUSVString.
  pose proof (crlf_from_length (scalar_values_from false s) false) as H.
  rewrite scalar_values_from_length in H. lia.
Qed.

Lemma is_plain_unit (c : N) :
  is_plain c = true ->
  is_high_surrogate c = false /\ is_low_surrogate c = false
  /\ N.eqb c CR = false /\ N.eqb c LF = false.
Proof.
  unfold is_plain, is_high_surrogate, is_low_surrogate, in_range, CR, LF.
  intros H. apply andb_true_iff in H. destruct H as [H1 H2].
  apply N.leb_le in H1, H2.
  repeat split.
  - apply andb_false_iff. left. apply N.leb_gt. lia.
  - apply andb_false_iff. left. apply N.leb_gt. lia.
  - apply N.eqb_neq. lia.
  - apply N.eqb_neq. lia.
Qed.

(** A text of printable ASCII arrives as it is. *)
Lemma wire_text_plain (s : jsstring) :
  Forall (fun c => is_plain c = true) s -> wire_text s = s.
Proof.
  unfold wire_text, crlf, toUSVString.
  induction 1 as [|c s Hc _ IH]; [reflexivity|].
  destruct (is_plain_unit _ Hc) as (Hh & Hl & Hcr & Hlf).
  simpl. rewrite Hh, Hl. simpl. rewrite Hcr, Hlf, IH. reflexivity.
Qed.

Lemma digit_char_plain (d : Z) : is_plain (digit_char d) = true.
Proof.
  unfold is_plain, in_range, digit_char.
  pose proof (Z.mod_pos_bound d 10 ltac:(lia)) as H.
  apply andb_true_iff. split; apply N.leb_le; lia.
Qed.

(** The text of [toISOString] is printable ASCII. *)
Lemma toISOString_plain (t : Z) :
  Forall (fun c => is_plain c = true) (toISOString t).
Proof.
  unfold toISOString. destruct (civil_from_days _) as [[y m] d].
  unfold pad2, pad3, pad4, pad6.
  destruct (_ && _); [|destruct (y <? 0)];
    repeat (apply Forall_app; split);
    repeat (constructor; try apply digit_char_plain; try reflexivity).
Qed.

Section WireFacts.
Context {RT : Runtime} {TR : Transport} {EM : ZodErrorMap}.
Variable uploadShort : UploadArgs -> upload_outcome.

(** The route finds under a name what the page put there, as read from the
    wire. *)
Lemma get_multipart (formData : FormData) (key : jsstring) :
  get (multipart formData) key = option_map wire_entry (get formData key).
Proof.
  induction formData as [|[k v] formData IH]; simpl; [reflexivity|].
  destruct (jseqb k key); [reflexivity | exact IH].
Qed.

(** The request without a schedule fails the schema on [publishAt]. *)
Lemma unscheduled_body_issues (f : File) (fm : Form.t) :
  safeParse (multipart (request_body f None fm))
  = Invalid (schema_issues (multipart (request_body f None fm)))
  /\ In (invalid_type_message VNull)
        (schema_issues (multipart (request_body f None fm))).
Proof.
  assert (I : In (invalid_type_message VNull)
                 (schema_issues (multipart (request_body f None fm)))).
  { unfold schema_issues.
    change (get_value (multipart (request_body f None fm)) "publishAt")
      with VNull.
    change (schema_publishAt VNull) with (@Invalid (option jsstring)
                                            [invalid_type_message VNull]).
    rewrite !in_app_iff. do 4 right. left. left. reflexivity. }
  split; [|exact I].
  destruct (safeParse_cases (multipart (request_body f None fm)))
    as [[payload [_ Hnil]] | H]; [|exact H].
  rewrite Hnil in I. contradiction.
Qed.

(** The schema on the request with a schedule that reads back. *)
Lemma scheduled_body_parses (f : File) (ts : jsstring) (fm : Form.t) (t : Z) :
  truthy ts = true -> wire_text ts = ts ->
  new_Date ts = Some t -> toISOString t = ts ->
  (5 <= List.length (Form.title fm))%nat ->
  (10 <= List.length (Form.description fm))%nat ->
  safeParse (multipart (request_body f (Some ts) fm))
  = Valid {| Fields.title := wire_text (Form.title fm);
             Fields.description := wire_text (Form.description fm);
             Fields.tags := tags_of (wire_text (Form.tagsInput fm));
             Fields.privacyStatus := Form.privacyStatus fm;
             Fields.publishAt := Some ts;
             Fields.madeForKids := Form.madeForKids fm;
             Fields.notifySubscribers := Form.notifySubscribers fm;
             Fields.categoryId := Some (wire_text (Form.categoryId fm));
             Fields.defaultLanguage
             := Some (wire_text (Form.defaultLanguage fm)) |}.
Proof.
  intros Hts Hwire Hd Hiso Ht Hdesc.
  assert (B : multipart (request_body f (Some ts) fm)
              = [ (js "video", EFile (wire_file f));
                  (js "title", EString (wire_text (Form.title fm)));
                  (js "description",
                   EString (wire_text (Form.description fm)));
                  (js "tags", EString (wire_text (Form.tagsInput fm)));
                  (js "privacyStatus",
                   EString (privacy_name (Form.privacyStatus fm)));
                  (js "publishAt", EString ts);
                  (js "madeForKids",
                   EString (String_of_bool (Form.madeForKids fm)));
                  (js "notifySubscribers",
                   EString (String_of_bool (Form.notifySubscribers fm)));
                  (js "categoryId", EString (wire_text (Form.categoryId fm)));
                  (js "defaultLanguage",
                   EString (wire_text (Form.defaultLanguage fm))) ]).
  { unfold request_body. rewrite Hts. cbn [append app multipart List.map fst snd wire_entry].
    rewrite Hwire.
    destruct (Form.privacyStatus fm), (Form.madeForKids fm),
      (Form.notifySubscribers fm); reflexivity. }
  rewrite B. apply safeParse_fields.
  - change (schema_title (VString (wire_text (Form.title fm)))
            = Valid (wire_text (Form.title fm))).
    unfold schema_title. rewrite min_string.
    pose proof (wire_text_length (Form.title fm)).
    destruct (Nat.ltb_spec (List.length (wire_text (Form.title fm))) 5);
      [lia|reflexivity].
  - change (schema_description (VString (wire_text (Form.description fm)))
            = Valid (wire_text (Form.description fm))).
    unfold schema_description. rewrite min_string.
    pose proof (wire_text_length (Form.description fm)).
    destruct (Nat.ltb_spec
                (List.length (wire_text (Form.description fm))) 10);
      [lia|reflexivity].
  - reflexivity.
  - change (schema_privacyStatus
              (VString (privacy_name (Form.privacyStatus fm)))
            = Valid (Form.privacyStatus fm)).
    destruct (Form.privacyStatus fm); reflexivity.
  - change (schema_publishAt (VString ts) = Valid (Some ts)).
    unfold schema_publishAt, transform, refine, optional, z_string.
    rewrite Hts, Hd, Hiso. reflexivity.
  - change (schema_flag (VString (String_of_bool (Form.madeForKids fm)))
            = Valid (Form.madeForKids fm)).
    unfold schema_flag, transform, optional, z_string.
    rewrite String_of_bool_true. reflexivity.
  - change (schema_flag (VString (String_of_bool (Form.notifySubscribers fm)))
            = Valid (Form.notifySubscribers fm)).
    unfold schema_flag, transform, optional, z_string.
    rewrite String_of_bool_true. reflexivity.
  - reflexivity.
  - reflexivity.
Qed.

End WireFacts.

(** X16. A submission without a schedule never reaches the uploader: the
    page leaves [publishAt] out of the request, the route reads [null] for
    it, and the schema takes no [null]. The answer is a 400 without a call
    of the uploader: for a file of more than 1 GiB with the message of the
    size check, and otherwise with the issues of the schema joined by a
    space, that of [publishAt] among them. *)
Theorem unscheduled_submission_is_rejected :
  forall (client server : Runtime) (TR : Transport) (EM : ZodErrorMap)
         (uploadShort : UploadArgs -> upload_outcome)
         (st : Page) (request : FormData),
    snd (@handleSubmit_begin client st) = Some request ->
    @resolved client st = None ->
    exists f,
      Form.file (form st) = Some f
      /\ In (invalid_type_message VNull)
            (@schema_issues server EM (multipart request))
      /\ @POST server EM uploadShort (Multipart (multipart request))
         = ({| status := 400;
               body :=
                 {| p_error :=
                      Some (if (MAX_FILE_SIZE_BYTES <? size f)%N
                            then js "Video file is too large."
                            else join (js " ")
                                   (@schema_issues server EM
                                      (multipart request)));
                    p_videoId := None;
                    p_url := None |} |}, []).
Proof.
  intros client server TR EM uploadShort st request Hsend Hres.
  destruct (Form.file (form st)) as [f|] eqn:Hf.
  - rewrite (@begin_sends client _ _ Hf (or_introl Hres)) in Hsend.
    simpl in Hsend. injection Hsend as <-. rewrite Hres.
    destruct (@unscheduled_body_issues server TR EM f (form st)) as [P I].
    exists f. split; [reflexivity|]. split; [exact I|].
    unfold POST. rewrite check_file_cases, get_multipart, request_body_video.
    cbn [option_map wire_entry wire_file size].
    destruct (_ <? _)%N; [reflexivity|].
    unfold validate_and_upload. rewrite P. reflexivity.
  - rewrite (@begin_without_file client _ Hf) in Hsend. discriminate Hsend.
Qed.

Lemma unscheduled_submission_is_rejected_witness :
  @POST utc_runtime zod3_messages upload_abc123
    (Multipart (@multipart plain_names
                  (request_body sample_file None (sample_form private [] []))))
  = ({| status := 400;
        body := {| p_error := Some (js "Expected string, received null");
                   p_videoId := None;
                   p_url := None |} |}, []).
Proof.
  destruct (@unscheduled_submission_is_rejected utc_runtime utc_runtime
              plain_names zod3_messages upload_abc123
              (setForm (sample_form private [] []) (initial_page None))
              (request_body sample_file None (sample_form private [] [])))
    as (f & Hf & _ & HP); [reflexivity | reflexivity |].
  rewrite HP. simpl in Hf. injection Hf as <-. vm_compute. reflexivity.
Defined.

(** X17. A submission with a schedule between 1900 and 2100, a file of at
    most 1 GiB, a title of five units or more and a description of ten or
    more passes the route whatever the two time zones are. The uploader is
    called once, with what the route reads from the wire: the file under
    its type, or under [application/octet-stream] when it has none, so
    never under the [video/mp4] of the route for want of a type; title,
    description, category and language as scalar value strings with their
    line breaks as CR LF; the tags split at commas; and the instant of the
    schedule in ISO form. *)
Theorem scheduled_submission_reaches_uploader :
  forall (client server : Runtime) (TR : Transport) (EM : ZodErrorMap)
         (uploadShort : UploadArgs -> upload_outcome)
         (st : Page) (f : File) (t : Z),
    Form.file (form st) = Some f ->
    Form.privacyStatus (form st) <> public ->
    Form.scheduleDate (form st) <> [] ->
    @new_Date client (timestamp_text (Form.scheduleDate (form st))
                                     (Form.scheduleTime (form st))) = Some t ->
    in_calendar_range t ->
    (size f <= 2 ^ 30)%N ->
    (5 <= List.length (Form.title (form st)))%nat ->
    (10 <= List.length (Form.description (form st)))%nat ->
    exists request,
      snd (@handleSubmit_begin client st) = Some request
      /\ snd (@POST server EM uploadShort (Multipart (multipart request)))
         = [ {| buffer :=
                  {| name := file_name_read (name f);
                     type := or_else (type f) (js "application/octet-stream");
                     size := size f |};
                fileName := file_name_read (name f);
                mimeType := or_else (type f) (js "application/octet-stream");
                data :=
                  {| Fields.title := wire_text (Form.title (form st));
                     Fields.description
                     := wire_text (Form.description (form st));
                     Fields.tags
                     := tags_of (wire_text (Form.tagsInput (form st)));
                     Fields.privacyStatus := Form.privacyStatus (form st);
                     Fields.publishAt := Some (toISOString t);
                     Fields.madeForKids := Form.madeForKids (form st);
                     Fields.notifySubscribers
                     := Form.notifySubscribers (form st);
                     Fields.categoryId
                     := Some (wire_text (Form.categoryId (form st)));
                     Fields.defaultLanguage
                     := Some (wire_text (Form.defaultLanguage (form st)))
                  |} |} ]
      /\ (status (fst (@POST server EM uploadShort
                         (Multipart (multipart request)))) = 201
          \/ status (fst (@POST server EM uploadShort
                            (Multipart (multipart request)))) = 500).
Proof.
  intros client server TR EM uploadShort st f t Hf Hp Hdate Hparse Hrange
         Hsize Htitle Hdesc.
  assert (R : @resolved client st = Some (toISOString t)).
  { unfold resolved. rewrite buildPublishDate_cases.
    destruct (Form.scheduleDate (form st)); [contradiction|].
    rewrite Hparse. reflexivity. }
  exists (request_body f (Some (toISOString t)) (form st)).
  split; [rewrite (@begin_sends client _ _ Hf (or_intror Hp)), R; reflexivity|].
  pose proof (@scheduled_body_parses server TR EM f (toISOString t) (form st) t
                (toISOString_truthy t)
                (wire_text_plain (toISOString_plain t))
                (@Date_parse_toISOString server t Hrange) eq_refl
                Htitle Hdesc) as P.
  unfold POST. rewrite check_file_cases, get_multipart, request_body_video.
  cbn [option_map wire_entry].
  replace (MAX_FILE_SIZE_BYTES <? size (wire_file f))%N with false
    by (symmetry; apply N.ltb_ge; exact Hsize).
  unfold validate_and_upload. rewrite P.
  assert (M : or_else (type (wire_file f)) (js "video/mp4")
              = or_else (type f) (js "application/octet-stream")).
  { assert (T : truthy (or_else (type f) (js "application/octet-stream"))
                = true)
      by (apply truthy_nonempty, or_else_nonempty; discriminate).
    unfold wire_file. cbn [type]. unfold or_else at 1. rewrite T.
    reflexivity. }
  rewrite M. unfold wire_file. cbn [name].
  destruct (uploadShort _); simpl; auto.
Qed.

Definition scheduled_page : Page :=
  setForm (sample_form private (js "2024-05-01") (js "18:30"))
          (initial_page None).

(** From a browser four hours west of Greenwich to a server on UTC: the
    schedule arrives as 22:30 on the UTC clock. *)
Lemma scheduled_submission_reaches_uploader_witness :
  exists request,
    snd (@handleSubmit_begin new_york_summer_runtime scheduled_page)
    = Some request
    /\ snd (post_sample (@multipart plain_names request))
       = [ {| buffer := sample_file;
              fileName := js "launch.mp4";
              mimeType := js "video/mp4";
              data :=
                {| Fields.title := js "Launch day";
                   Fields.description := js "Behind the scenes of the launch";
                   Fields.tags := [js "launch"; js "behind the scenes"];
                   Fields.privacyStatus := private;
                   Fields.publishAt := Some (js "2024-05-01T22:30:00.000Z");
                   Fields.madeForKids := false;
                   Fields.notifySubscribers := true;
                   Fields.categoryId := Some (js "24");
                   Fields.defaultLanguage := Some (js "en") |} |} ].
Proof.
  destruct (@scheduled_submission_reaches_uploader new_york_summer_runtime
              utc_runtime plain_names zod3_messages upload_abc123
              scheduled_page sample_file 1714602600000)
    as (request & Hsend & Hcall & _);
    [ reflexivity | discriminate | discriminate
    | vm_compute; reflexivity
    | vm_compute; split; [discriminate | reflexivity]
    | vm_compute; discriminate
    | simpl; lia
    | simpl; lia | ].
  exists request. split; [exact Hsend|].
  unfold post_sample. rewrite Hcall. vm_compute. reflexivity.
Defined.


(** ** page.tsx: the hook tips *)

(** The class [\w] of a regular expression without flags. *)
Definition is_word (c : N) : bool :=
  is_lower c || in_range 65 90 c || is_digit c || N.eqb c UNDERSCORE.

(** [s.split(/\b/)]: the string is cut wherever, inside it, a unit of
    [\w] meets one outside; [cur] is the piece being read, reversed, and
    [word] the class of its units. *)
Fixpoint split_b_from (cur : jsstring) (word : bool) (s : jsstring)
  : list jsstring :=
  match s with
  | [] => [rev cur]
  | c :: s' =>
      if Bool.eqb (is_word c) word then split_b_from (c :: cur) word s'
      else rev cur :: split_b_from [c] (is_word c) s'
  end.

Definition split_b (s : jsstring) : list jsstring :=
  match s with
  | [] => [[]]
  | c :: s' => split_b_from [c] (is_word c) s'
  end.

Definition QUOTE : N := 34.

Definition generic_tips : list jsstring :=
  [ js "Hook the viewer within the first second.";
    js "Show the end result first, then rewind.";
    js "End on a punchy CTA that fits the story." ].

(** The first tip for a title, around the hook. *)
Definition caption_tip (hook : jsstring) : jsstring :=
  js "Open with an on-screen caption: " ++ [QUOTE] ++ hook
    ++ js " in 30 seconds" ++ [QUOTE] ++ js ".".

Section Hook.
(** [String.prototype.toUpperCase], which is the engine's. *)
Variable toUpperCase : jsstring -> jsstring.

Definition recommendedHook (title : jsstring) : list jsstring :=
  if negb (truthy (trim title)) then generic_tips
  else
    let hook :=
      match hd_error (split_b title) with
      | Some first => toUpperCase first
      | None => js "NEW"
      end in
    [ caption_tip hook;
      js "Cut to your strongest visual immediately.";
      js "Layer upbeat music under the first three seconds." ].

End Hook.

(** The units at the start of a string that are of the class of its
    first unit. *)
Fixpoint same_class (word : bool) (s : jsstring) : jsstring :=
  match s with
  | c :: s' => if Bool.eqb (is_word c) word then c :: same_class word s' else []
  | [] => []
  end.

Definition leading_run (s : jsstring) : jsstring :=
  match s with
  | [] => []
  | c :: s' => c :: same_class (is_word c) s'
  end.

Lemma split_b_from_head (s cur : jsstring) (word : bool) :
  hd_error (split_b_from cur word s) = Some (rev cur ++ same_class word s).
Proof.
  revert cur; induction s as [|c s IH]; intros cur; simpl.
  - rewrite app_nil_r. reflexivity.
  - destruct (Bool.eqb (is_word c) word).
    + rewrite IH. simpl. rewrite <- app_assoc. reflexivity.
    + simpl. rewrite app_nil_r. reflexivity.
Qed.

Lemma trim_empty_title (s : jsstring) : trim s <> [] -> s <> [].
Proof. intros H ->. apply H. reflexivity. Qed.

(** X18. The tips are always three. For a title that is blank they are
    the three general ones; otherwise the first quotes the upper-cased
    start of the title as typed, up to the first change between word and
    other units, which is never empty, so the fallback [NEW] is never
    shown, and white space in front of the title becomes the hook. *)
Theorem recommendedHook_quotes_leading_run :
  forall (toUpperCase : jsstring -> jsstring) (title : jsstring),
    List.length (recommendedHook toUpperCase title) = 3%nat
    /\ (trim title = [] -> recommendedHook toUpperCase title = generic_tips)
    /\ (trim title <> [] ->
        leading_run title <> []
        /\ (exists rest, title = leading_run title ++ rest)
        /\ recommendedHook toUpperCase title
           = [ caption_tip (toUpperCase (leading_run title));
               js "Cut to your strongest visual immediately.";
               js "Layer upbeat music under the first three seconds." ]).
Proof.
  intros toUpperCase title. unfold recommendedHook.
  destruct (truthy (trim title)) eqn:T; simpl.
  - split; [reflexivity|]. apply truthy_nonempty in T.
    split; [intros E; contradiction|]. intros _.
    destruct title as [|c s]; [exfalso; apply T; reflexivity|].
    split; [discriminate|]. split.
    + simpl. assert (P : forall w l, exists rest, l = same_class w l ++ rest).
      { intros w l. induction l as [|x l [rest IH]]; simpl;
          [exists []; reflexivity|].
        destruct (Bool.eqb (is_word x) w);
          [exists rest; simpl; f_equal; exact IH | exists (x :: l); reflexivity]. }
      destruct (P (is_word c) s) as [rest E]. exists rest. simpl. f_equal.
      exact E.
    + unfold split_b. rewrite split_b_from_head. reflexivity.
  - split; [reflexivity|]. split; [reflexivity|].
    intros H. exfalso. apply H.
    destruct (trim title); [reflexivity | discriminate T].
Qed.

(** ASCII upper-casing: what [toUpperCase] does on a string of ASCII
    characters. *)
Definition ascii_upper (s : jsstring) : jsstring :=
  List.map (fun c => if is_lower c then (c - 32)%N else c) s.

Lemma recommendedHook_quotes_leading_run_witness :
  recommendedHook ascii_upper (js "  5 ways to edit")
  = [ caption_tip (js "  ");
      js "Cut to your strongest visual immediately.";
      js "Layer upbeat music under the first three seconds." ].
Proof.
  destruct (recommendedHook_quotes_leading_run ascii_upper
              (js "  5 ways to edit")) as (_ & _ & H).
  destruct H as (_ & _ & E); [vm_compute; discriminate|].
  rewrite E. vm_compute. reflexivity.
Defined.

Example recommendedHook_launch :
  recommendedHook ascii_upper (js "launch day, at last")
  = [ caption_tip (js "LAUNCH");
      js "Cut to your strongest visual immediately.";
      js "Layer upbeat music under the first three seconds." ].
Proof. vm_compute. reflexivity. Qed.


(** ** page.tsx: the suggested hashtags as tags *)

Lemma trim_no_space (s : jsstring) : no_space s -> trim s = s.
Proof.
  intros H. unfold trim.
  assert (T : forall l, no_space l -> trimStart l = l).
  { intros l Hl. destruct Hl as [|c l Hc _]; [reflexivity|].
    apply trimStart_fixed, Hc. }
  rewrite (T s H), T, rev_involutive; [reflexivity|].
  unfold no_space in *. rewrite Forall_forall in *. intros c Hc.
  apply H, in_rev, Hc.
Qed.

(** A unit of a suggestion: [#] or one of [a-z0-9_]. *)
Definition suggestion_unit (c : N) : bool := tag_unit c || N.eqb c HASH.

Lemma suggestion_unit_plain (c : N) :
  suggestion_unit c = true -> is_space c = false /\ c <> COMMA.
Proof.
  unfold suggestion_unit, tag_unit, is_lower, is_digit, in_range, UNDERSCORE,
    HASH.
  rewrite !orb_true_iff, !andb_true_iff, !N.leb_le, !N.eqb_eq.
  intros H. split.
  - unfold is_space, in_range.
    rewrite !orb_false_iff, !andb_false_iff, !N.leb_gt, !N.eqb_neq. lia.
  - change COMMA with 44%N. lia.
Qed.

Definition suggestion (x : jsstring) : Prop :=
  x <> [] /\ Forall (fun c => suggestion_unit c = true) x.

Lemma split_on_from_plain (x cur : jsstring) (rest : jsstring) :
  ~ In COMMA x ->
  split_on_from COMMA cur (x ++ rest)
  = match rest with
    | [] => [rev cur ++ x]
    | _ => split_on_from COMMA (rev x ++ cur) rest
    end.
Proof.
  revert cur; induction x as [|c x IH]; intros cur H; simpl.
  - destruct rest; [simpl; rewrite app_nil_r; reflexivity | reflexivity].
  - destruct (N.eqb_spec c COMMA) as [E | _];
      [exfalso; apply H; left; exact E|].
    rewrite IH by (intros Hx; apply H; right; exact Hx).
    destruct rest; simpl; rewrite <- app_assoc; reflexivity.
Qed.

(** The piece being read goes in front of the first piece. *)
Lemma split_on_from_cur (s cur : jsstring) :
  split_on_from COMMA cur s
  = match split_on_from COMMA [] s with
    | first :: more => (rev cur ++ first) :: more
    | [] => []
    end.
Proof.
  revert cur; induction s as [|c s IH]; intros cur; simpl.
  - rewrite app_nil_r. reflexivity.
  - destruct (N.eqb c COMMA).
    + rewrite app_nil_r. reflexivity.
    + rewrite (IH (c :: cur)), (IH [c]).
      destruct (split_on_from COMMA [] s); [reflexivity|].
      simpl. rewrite <- app_assoc. reflexivity.
Qed.

(** Joining with a comma and a space, then splitting at commas. *)
Lemma split_on_join (xs : list jsstring) (x : jsstring) :
  Forall (fun y => ~ In COMMA y) (x :: xs) ->
  split_on COMMA (join (js ", ") (x :: xs)) = x :: List.map (cons SPACE) xs.
Proof.
  revert x; induction xs as [|y xs IH]; intros x H.
  - inversion H; subst. simpl. unfold split_on.
    rewrite <- (app_nil_r x) at 1. rewrite split_on_from_plain by assumption.
    reflexivity.
  - inversion H as [|? ? Hx Hrest]; subst.
    change (join (js ", ") (x :: y :: xs))
      with (x ++ COMMA :: SPACE :: join (js ", ") (y :: xs)).
    unfold split_on. rewrite split_on_from_plain by assumption.
    cbn [split_on_from]. rewrite N.eqb_refl.
    rewrite app_nil_r, rev_involutive. f_equal.
    change (SPACE =? COMMA)%N with false. cbv iota.
    rewrite split_on_from_cur. specialize (IH y Hrest).
    unfold split_on in IH. rewrite IH. reflexivity.
Qed.

Lemma trimStart_nil (s : jsstring) :
  trimStart s = [] -> Forall (fun c => is_space c = true) s.
Proof.
  induction s as [|c s IH]; simpl; intros H; [constructor|].
  destruct (is_space c) eqn:E; [|discriminate].
  constructor; [exact E | apply IH, H].
Qed.

(** A string with a unit that is no white space does not trim to
    nothing. *)
Lemma trim_nonempty (s : jsstring) (c : N) :
  In c s -> is_space c = false -> trim s <> [].
Proof.
  intros Hin Hc H. unfold trim in H.
  assert (R : trimStart (rev (trimStart s)) = [])
    by (rewrite <- (rev_involutive (trimStart _)), H; reflexivity).
  apply trimStart_nil in R.
  destruct (trimStart s) as [|x r] eqn:E.
  - apply trimStart_nil in E. rewrite Forall_forall in E.
    specialize (E _ Hin). congruence.
  - pose proof (@trimStart_head _ _ _ E) as Hx.
    rewrite Forall_forall in R. specialize (R x).
    rewrite R in Hx; [discriminate|]. apply in_rev. rewrite rev_involutive.
    left. reflexivity.
Qed.

(** The tags the route reads from joined suggestions are the
    suggestions. *)
Lemma tags_of_join (xs : list jsstring) :
  Forall suggestion xs -> tags_of (join (js ", ") xs) = xs.
Proof.
  intros H. destruct xs as [|x xs]; [reflexivity|].
  assert (Plain : forall y, suggestion y ->
            y <> [] /\ no_space y /\ ~ In COMMA y).
  { intros y [Hne Hu]. split; [exact Hne|]. rewrite Forall_forall in Hu.
    split.
    - apply Forall_forall. intros c Hc.
      apply (suggestion_unit_plain c (Hu c Hc)).
    - intros Hc. destruct (suggestion_unit_plain _ (Hu _ Hc)) as [_ N].
      apply N. reflexivity. }
  assert (T : truthy (join (js ", ") (x :: xs)) = true).
  { inversion H as [|? ? [Hx _] _]; subst.
    destruct x as [|c x]; [contradiction|]. destruct xs; reflexivity. }
  unfold tags_of. rewrite T. unfold split_tags.
  rewrite split_on_join.
  - assert (F : forall l, Forall suggestion l ->
                filter truthy (List.map trim (List.map (cons SPACE) l)) = l).
    { induction 1 as [|y l Hy _ IHl]; [reflexivity|].
      destruct (Plain y Hy) as (Hne & Hns & _). cbn [List.map filter].
      replace (trim (SPACE :: y)) with y.
      - apply truthy_nonempty in Hne. rewrite Hne, IHl. reflexivity.
      - symmetry. rewrite <- (trim_no_space Hns) at 2. reflexivity. }
    inversion H as [|? ? Hx Hxs]; subst.
    destruct (Plain x Hx) as (Hne & Hns & _).
    cbn [List.map filter]. rewrite (trim_no_space Hns).
    apply truthy_nonempty in Hne. rewrite Hne, (F xs Hxs). reflexivity.
  - rewrite Forall_forall in *. intros y Hy. apply (Plain y (H y Hy)).
Qed.


Section Sync.
Context {RT : Runtime}.

(** The memo [autoHashtags] of the page. *)
Definition autoHashtags (fm : Form.t) : jsstring :=
  join (js ", ")
    (generateHashtags (Form.title fm) (Form.description fm) (Form.tagsInput fm)).

(** [setTagsInput(tags)] *)
Definition setTagsInput (tags : jsstring) (st : Page) : Page :=
  setForm
    {| Form.file := Form.file (form st);
       Form.title := Form.title (form st);
       Form.description := Form.description (form st);
       Form.tagsInput := tags;
       Form.privacyStatus := Form.privacyStatus (form st);
       Form.scheduleDate := Form.scheduleDate (form st);
       Form.scheduleTime := Form.scheduleTime (form st);
       Form.madeForKids := Form.madeForKids (form st);
       Form.notifySubscribers := Form.notifySubscribers (form st);
       Form.categoryId := Form.categoryId (form st);
       Form.defaultLanguage := Form.defaultLanguage (form st) |} st.

Definition syncTagsWithHashtags (st : Page) : Page :=
  if negb (truthy (trim (Form.tagsInput (form st))))
  then setTagsInput (autoHashtags (form st)) st
  else st.

(** A suggestion is not empty and is made of [#] and [a-z0-9_]. *)
Lemma generateHashtags_suggestions (title description tags : jsstring) :
  Forall suggestion (generateHashtags title description tags).
Proof.
  destruct (generateHashtags_inline_first title description tags)
    as (rest & -> & Hrest).
  apply Forall_app. split; apply Forall_forall; intros x Hx.
  - apply dedupe_from_spec in Hx. destruct Hx as [Hx _].
    rewrite slice_from_start in Hx. apply In_firstn in Hx.
    destruct (extractHashtags_units _ _ Hx) as [Hne Hu]. split; [exact Hne|].
    rewrite Forall_forall in *. intros c Hc. unfold suggestion_unit.
    rewrite (Hu c Hc). reflexivity.
  - rewrite Forall_forall in Hrest. specialize (Hrest x Hx).
    destruct (ranked_hashtags_tokens title description tags)
      as (words & Hr & _ & _ & Htok).
    rewrite Hr in Hrest. apply in_map_iff in Hrest.
    destruct Hrest as [w [<- Hw]]. split; [discriminate|].
    constructor; [reflexivity|].
    destruct (hashtag_token_shape _ _ _ _ (Htok w Hw)) as (_ & Ha & _).
    rewrite Forall_forall in *. intros c Hc. specialize (Ha c Hc).
    unfold suggestion_unit, tag_unit. unfold alnum in Ha. rewrite Ha.
    reflexivity.
Qed.

End Sync.

(** X19. The button that uses the suggestions leaves tags that are not
    blank as they are and changes nothing but the tags. On blank tags it
    writes the suggestions joined by a comma and a space; the route reads
    these tags as exactly the suggestions, and when there is a suggestion
    a second click changes nothing. *)
Theorem syncTags_writes_the_suggestions :
  forall (RT : Runtime) (EM : ZodErrorMap) (st : Page),
    let suggestions :=
      generateHashtags (Form.title (form st)) (Form.description (form st))
                       (Form.tagsInput (form st)) in
    (trim (Form.tagsInput (form st)) <> [] -> syncTagsWithHashtags st = st)
    /\ (trim (Form.tagsInput (form st)) = [] ->
        Form.tagsInput (form (syncTagsWithHashtags st))
        = join (js ", ") suggestions
        /\ schema_tags
             (VString (Form.tagsInput (form (syncTagsWithHashtags st))))
           = Valid suggestions
        /\ (suggestions <> [] ->
            syncTagsWithHashtags (syncTagsWithHashtags st)
            = syncTagsWithHashtags st))
    /\ setTagsInput (Form.tagsInput (form st)) (syncTagsWithHashtags st) = st.
Proof.
  intros RT EM st suggestions. unfold syncTagsWithHashtags.
  destruct (truthy (trim (Form.tagsInput (form st)))) eqn:T; simpl.
  - split; [reflexivity|]. split.
    + intros E. rewrite E in T. discriminate T.
    + destruct st as [[] ? ? ? ?]. reflexivity.
  - split; [|split].
    + intros H. apply truthy_nonempty in H. congruence.
    + intros _. unfold autoHashtags. fold suggestions.
      pose proof (generateHashtags_suggestions (Form.title (form st))
                    (Form.description (form st)) (Form.tagsInput (form st)))
        as S. fold suggestions in S.
      split; [reflexivity|].
      split; [rewrite schema_tags_string; f_equal; apply tags_of_join, S|].
      intros Hne.
      assert (N : truthy (trim (join (js ", ") suggestions)) = true).
      { apply truthy_nonempty.
        destruct suggestions as [|x xs]; [contradiction|].
        inversion S as [|? ? [Hx Hu] _]; subst.
        destruct x as [|c x]; [contradiction|].
        apply (@trim_nonempty _ c).
        - destruct xs; simpl; left; reflexivity.
        - inversion Hu; subst. apply suggestion_unit_plain. assumption. }
      rewrite N. reflexivity.
    + destruct st as [[] ? ? ? ?]. reflexivity.
Qed.

Definition blank_tags_page : Page :=
  setForm
    {| Form.file := None; Form.title := js "Launch day";
       Form.description := js "Behind the scenes of the #launch";
       Form.tagsInput := js "  ";
       Form.privacyStatus := private;
       Form.scheduleDate := []; Form.scheduleTime := [];
       Form.madeForKids := false; Form.notifySubscribers := false;
       Form.categoryId := js "24"; Form.defaultLanguage := js "en" |}
    (initial_page None).

Lemma syncTags_writes_the_suggestions_witness :
  Form.tagsInput (form (@syncTagsWithHashtags utc_runtime blank_tags_page))
  = js "launch, #launch, #behind, #scenes"
  /\ @schema_tags zod3_messages
       (VString (js "launch, #launch, #behind, #scenes"))
     = Valid [js "launch"; js "#launch"; js "#behind"; js "#scenes"].
Proof.
  destruct (@syncTags_writes_the_suggestions utc_runtime zod3_messages
              blank_tags_page) as (_ & H & _).
  destruct H as (E & R & _); [vm_compute; reflexivity|].
  assert (J : Form.tagsInput
                (form (@syncTagsWithHashtags utc_runtime blank_tags_page))
              = js "launch, #launch, #behind, #scenes")
    by (rewrite E; vm_compute; reflexivity).
  split; [exact J|]. rewrite <- J, R. vm_compute. reflexivity.
Defined.


(** ** The five most frequent words *)

Lemma StronglySorted_app {A} (R : A -> A -> Prop) (l1 l2 : list A) :
  StronglySorted R (l1 ++ l2) ->
  StronglySorted R l1 /\ (forall a b, In a l1 -> In b l2 -> R a b).
Proof.
  induction l1 as [|x l1 IH]; simpl; intros H.
  - split; [constructor | intros a b []].
  - inversion H as [|? ? Hs Hall]; subst. destruct (IH Hs) as [S1 C].
    rewrite Forall_forall in Hall. split.
    + constructor; [exact S1|]. apply Forall_forall. intros y Hy.
      apply Hall, in_app_iff. left. exact Hy.
    + intros a b [<- | Ha] Hb; [|apply C; assumption].
      apply Hall, in_app_iff. right. exact Hb.
Qed.

Lemma StronglySorted_map {A B} (R : A -> A -> Prop) (S : B -> B -> Prop)
    (f : A -> B) (l : list A) :
  (forall a b, In a l -> In b l -> R a b -> S (f a) (f b)) ->
  StronglySorted R l -> StronglySorted S (List.map f l).
Proof.
  intros H Hs. induction Hs as [|x l Hs IH Hx]; simpl; constructor.
  - apply IH. intros a b Ha Hb. apply H; right; assumption.
  - rewrite Forall_forall in *. intros y Hy. apply in_map_iff in Hy.
    destruct Hy as [z [<- Hz]]. apply H; [left; reflexivity | right; exact Hz |].
    apply Hx, Hz.
Qed.

(** X20. The ranked suggestions are the five most frequent tokens, the
    more frequent first: each is [#] and a token, no token occurs less
    often than a token ranked after it, and a token that is left out occurs
    no more often than any that is ranked. When there are fewer than five
    different tokens all of them are ranked. *)
Theorem ranked_hashtags_are_the_most_frequent :
  forall (RT : Runtime) (title description tags : jsstring),
    let tokens := hashtag_tokens title description tags in
    exists words,
      ranked_hashtags title description tags = List.map (cons HASH) words
      /\ StronglySorted
           (fun a b => (occurrences b tokens <= occurrences a tokens)%N) words
      /\ (forall w r,
            In w tokens -> ~ In w words -> In r words ->
            (occurrences w tokens <= occurrences r tokens)%N)
      /\ List.length words = Nat.min 5 (List.length (dedupe tokens)).
Proof.
  intros RT title description tags tokens.
  set (sorted := sort_by_count_desc (histogram_of tokens)).
  pose proof (sort_by_count_desc_perm (histogram_of tokens)) as P.
  pose proof (sort_by_count_desc_sorted (histogram_of tokens)) as S.
  fold sorted in P, S.
  assert (Hent : forall e, In e sorted ->
            In (fst e) tokens /\ snd e = occurrences (fst e) tokens).
  { intros [k n] He. apply (Permutation_in _ P) in He.
    apply histogram_entry, He. }
  rewrite <- (firstn_skipn 5 sorted) in S.
  apply StronglySorted_app in S. destruct S as [Stop Cross].
  assert (Htop : forall e, In e (firstn 5 sorted) -> In e sorted)
    by (intros e; apply In_firstn).
  exists (List.map fst (firstn 5 sorted)). split; [|split; [|split]].
  - unfold ranked_hashtags. fold tokens. fold sorted.
    rewrite slice_from_start, map_map. apply map_ext_in. intros e He.
    f_equal. apply keep_alnum_fixes.
    apply (hashtag_token_shape title description tags), Hent, Htop, He.
  - apply (StronglySorted_map (R := count_ge)); [|exact Stop].
    intros a b Ha Hb Hab. unfold count_ge in Hab.
    destruct (Hent a (Htop a Ha)) as [_ <-].
    destruct (Hent b (Htop b Hb)) as [_ <-]. exact Hab.
  - intros w r Hw Hnot Hr. apply in_map_iff in Hr.
    destruct Hr as [e [<- He]].
    assert (Hk : In w (List.map fst sorted)).
    { apply (Permutation_in (l := List.map fst (histogram_of tokens)));
        [apply Permutation_map; symmetry; exact P|].
      rewrite histogram_keys. apply dedupe_from_spec. auto. }
    apply in_map_iff in Hk. destruct Hk as [we [<- Hwe]].
    rewrite <- (firstn_skipn 5 sorted) in Hwe. apply in_app_iff in Hwe.
    destruct Hwe as [Hin | Hout];
      [exfalso; apply Hnot, in_map, Hin|].
    specialize (Cross e we He Hout). unfold count_ge in Cross.
    destruct (Hent e (Htop e He)) as [_ <-].
    assert (Hs : In we sorted)
      by (rewrite <- (firstn_skipn 5 sorted); apply in_app_iff; right;
          exact Hout).
    destruct (Hent we Hs) as [_ <-]. exact Cross.
  - rewrite length_map, length_firstn. f_equal.
    rewrite <- histogram_keys, length_map.
    apply Permutation_length, P.
Qed.

(** ** The fields a request must have *)





(** ** The picker formats *)

(** The value of a date input and of a time input. *)
Definition date_text (y m d : Z) : jsstring :=
  pad4 y ++ js "-" ++ pad2 m ++ js "-" ++ pad2 d.

Definition time_text (h mi : Z) : jsstring := pad2 h ++ js ":" ++ pad2 mi.

Lemma read_local_text (y m d h mi : Z) :
  0 <= y < 10000 -> 0 <= m < 100 -> 0 <= d < 100 -> 0 <= h < 100 ->
  0 <= mi < 100 ->
  read_date_time (date_text y m d ++ js "T" ++ time_text h mi ++ js ":00")
  = Some {| f_year := y; f_month := m; f_day := d; f_hour := h;
            f_minute := mi; f_second := 0; f_millis := 0; f_utc := false |}.
Proof.
  intros Hy Hm Hd Hh Hmi.
  pose proof (number_pad4 Hy) as Ny. pose proof (number_pad2 Hm) as Nm.
  pose proof (number_pad2 Hd) as Nd. pose proof (number_pad2 Hh) as Nh.
  pose proof (number_pad2 Hmi) as Nmi.
  assert (N0 : number (js "00") = Some 0) by reflexivity.
  unfold date_text, time_text, pad4, pad2 in *.
  unfold read_date_time. cbn -[number digit_char Z.div].
  cbn -[number] in N0.
  rewrite Ny, Nm, Nd, Nh, Nmi, N0. reflexivity.
Qed.

(** X22. For every date and time of the calendar in the format of the
    pickers, the resolver returns the instant at which the local clock
    shows them, in ISO form, whatever the engine does with other strings;
    with no time it is the instant of 09:00 on that date. *)
Theorem buildPublishDate_of_picker_values :
  forall (RT : Runtime) (y m d h mi : Z),
    0 <= y <= 9999 -> 1 <= m <= 12 -> 1 <= d <= DaysInMonth y m ->
    0 <= h <= 23 -> 0 <= mi <= 59 ->
    buildPublishDate (date_text y m d) (time_text h mi)
    = option_map toISOString (local_instant y m d h mi)
    /\ buildPublishDate (date_text y m d) []
       = option_map toISOString (local_instant y m d 9 0).
Proof.
  intros RT y m d h mi Hy Hm Hd Hh Hmi.
  pose proof (DaysInMonth_le_31 y m) as D31.
  assert (G : forall h' mi', 0 <= h' <= 23 -> 0 <= mi' <= 59 ->
    new_Date (date_text y m d ++ js "T" ++ time_text h' mi' ++ js ":00")
    = local_instant y m d h' mi').
  { intros h' mi' Hh' Hmi'. unfold new_Date, Date_parse.
    rewrite read_local_text by lia.
    unfold legal_fields, fields_time, local_instant.
    cbn [f_year f_month f_day f_hour f_minute f_second f_millis f_utc].
    replace (_ && _) with true; [reflexivity|].
    symmetry. repeat (apply andb_true_iff; split); apply Z.leb_le; lia. }
  assert (Dne : exists c rest, date_text y m d = c :: rest)
    by (unfold date_text, pad4; simpl; eauto).
  destruct Dne as (c & rest & Dne).
  split.
  - rewrite buildPublishDate_cases, Dne, <- Dne. unfold timestamp_text.
    replace (or_else (time_text h mi) (js "09:00")) with (time_text h mi)
      by reflexivity.
    rewrite G by lia. reflexivity.
  - rewrite buildPublishDate_cases, Dne, <- Dne. unfold timestamp_text.
    replace (or_else [] (js "09:00")) with (time_text 9 0) by reflexivity.
    rewrite G by lia. reflexivity.
Qed.

Lemma buildPublishDate_of_picker_values_witness :
  @buildPublishDate new_york_summer_runtime (js "2024-02-29") (js "23:45")
  = Some (js "2024-03-01T03:45:00.000Z").
Proof.
  assert (Hy : 0 <= 2024 <= 9999) by lia.
  assert (Hm : 1 <= 2 <= 12) by lia.
  assert (Hd : 1 <= 29 <= DaysInMonth 2024 2)
    by (vm_compute; split; discriminate).
  assert (Hh : 0 <= 23 <= 23) by lia.
  assert (Hmi : 0 <= 45 <= 59) by lia.
  destruct (@buildPublishDate_of_picker_values new_york_summer_runtime
              2024 2 29 23 45 Hy Hm Hd Hh Hmi) as [E _].
  change (js "2024-02-29") with (date_text 2024 2 29).
  change (js "23:45") with (time_text 23 45).
  rewrite E. vm_compute. reflexivity.
Defined.

(** ** What a response leaves alone *)

(** X23. When a request settles, whatever the outcome, an entry of the
    queue is left as it was if its title is not the submitted one, if it
    already has a non-empty url, or if the submitted title is empty. *)
Theorem settle_leaves_other_entries :
  forall (RT : Runtime) (hashtags : option jsstring) (actions : list Action)
         (title : jsstring) (outcome : fetch_outcome) (i : nat)
         (item : QueueItem.t),
    in_flight (run hashtags actions) = Some title ->
    nth_error (queue (page (run hashtags actions))) i = Some item ->
    QueueItem.title item <> title \/ title = []
    \/ truthy_opt (QueueItem.url item) = true ->
    nth_error (queue (page (step (run hashtags actions) (Settle outcome)))) i
    = Some item.
Proof.
  intros RT hashtags actions title outcome i item Hin Hi Hcase.
  unfold step. rewrite Hin. cbn [page].
  destruct (end_queue title outcome (page (run hashtags actions)))
    as [-> | [data ->]]; [exact Hi|].
  rewrite nth_error_map, Hi. simpl. f_equal. unfold mark_uploaded.
  destruct Hcase as [Hne | [-> | Hu]].
  - apply jseqb_neq in Hne. rewrite Hne, andb_false_r. reflexivity.
  - rewrite andb_false_r. reflexivity.
  - rewrite Hu. reflexivity.
Qed.

Definition two_plans : list Action :=
  [ Edit (sample_form private [] []);
    ClickAddToLaunchPlan (js "0.3lllllllllm");
    Edit (sample_form private (js "2024-05-01") (js "18:30"));
    ClickAddToLaunchPlan (js "0.i00000005s");
    Edit {| Form.file := Some sample_file; Form.title := js "Teaser";
            Form.description := js "A first look";
            Form.tagsInput := []; Form.privacyStatus := private;
            Form.scheduleDate := []; Form.scheduleTime := [];
            Form.madeForKids := false; Form.notifySubscribers := false;
            Form.categoryId := js "24"; Form.defaultLanguage := js "en" |};
    Submit ].

Lemma settle_leaves_other_entries_witness :
  nth_error
    (queue (page (@step utc_runtime (@run utc_runtime None two_plans)
                    (Settle sample_success)))) 0
  = Some {| QueueItem.id := js "3lllllll";
            QueueItem.title := js "Launch day";
            QueueItem.publishAt := None;
            QueueItem.status := draft;
            QueueItem.url := None |}.
Proof.
  apply (@settle_leaves_other_entries utc_runtime None two_plans
           (js "Teaser") sample_success 0%nat);
    [ vm_compute; reflexivity | vm_compute; reflexivity | left; discriminate ].
Defined.
